(** * MPAS-Analysis: mixed-layer-depth climatology maps, plot provenance
      and the 1-D plot renderer

    A shallow embedding of

    - [mpas_analysis/ocean/climatology_map_mld.py]
      (module [ClimatologyMapMLD] and module [ObservedMLD]),
    - [mpas_analysis/shared/html/image_xml.py] (module [ImageXml]),
    - [mpas_analysis/shared/plot/oned.py] (module [Oned]),

    together with the properties of these programs.

    Conventions.  Python exceptions are values of [exn] (class name and
    message); a Python procedure that mutates objects is a state
    transformer [py S A] that returns either a value or a raised
    exception, in both cases with the state reached so far.  Python
    [float] quotients are modelled by exact rationals ([Q]). *)

From Stdlib Require Import ZArith QArith Qround Lia Ascii String.
From stdpp Require Import base option list strings pretty gmap.

#[local] Open Scope string_scope.
#[local] Open Scope Z_scope.
#[local] Open Scope list_scope.

(** ** Python exceptions and effectful procedures *)

Record exn := Exn { exn_class : string; exn_msg : string }.

Definition ValueError (msg : string) : exn := Exn "ValueError" msg.
Definition OSError (msg : string) : exn := Exn "OSError" msg.
Definition IOError (msg : string) : exn := Exn "IOError" msg.
Definition IndexError (msg : string) : exn := Exn "IndexError" msg.
Definition KeyError (msg : string) : exn := Exn "KeyError" msg.
Definition AttributeError (msg : string) : exn := Exn "AttributeError" msg.
Definition NoOptionError (msg : string) : exn := Exn "NoOptionError" msg.
Definition ZeroDivisionError (msg : string) : exn :=
  Exn "ZeroDivisionError" msg.

Inductive outcome (A : Type) : Type :=
| Return (a : A)
| Raise (e : exn).
Arguments Return {A} a.
Arguments Raise {A} e.

(** A procedure over a mutable state [S]. *)
Definition py (S A : Type) : Type := S -> outcome A * S.

Section PyMonad.
Context {S : Type}.

#[export] Instance py_ret : MRet (py S) := fun A a s => (Return a, s).

#[export] Instance py_bind : MBind (py S) := fun A B f m s =>
  match m s with
  | (Return a, s') => f a s'
  | (Raise e, s') => (Raise e, s')
  end.

Definition raise {A} (e : exn) : py S A := fun s => (Raise e, s).

Definition get_state : py S S := fun s => (Return s, s).

Definition modify (f : S -> S) : py S unit := fun s => (Return tt, f s).

(** [try: body except cls: handler] *)
Definition try_except {A} (body : py S A) (cls : string)
    (handler : py S A) : py S A := fun s =>
  match body s with
  | (Return a, s') => (Return a, s')
  | (Raise e, s') =>
      if decide (exn_class e = cls) then handler s' else (Raise e, s')
  end.

(** [for x in l: body x] *)
Fixpoint for_in {A} (l : list A) (body : A -> py S unit) : py S unit :=
  match l with
  | [] => mret tt
  | x :: l' => _ ← body x; for_in l' body
  end.
End PyMonad.

(** ** [climatology_map_mld.py]: the analysis task *)

Module ClimatologyMapMLD.

(** The configuration: options read with [getExpression] (lists of
    names) and options read with [get] (strings), keyed by section and
    option name. *)
Record MpasAnalysisConfigParser := {
  expr_options : gmap (string * string) (list string);
  str_options : gmap (string * string) string
}.

Record MpasClimatologyTask := {
  mct_config : MpasAnalysisConfigParser
}.

Record RemapMpasClimatologySubtask := {
  rm_mpasClimatologyTask : MpasClimatologyTask;
  rm_parentTask : string;
  rm_climatologyName : string;
  rm_variableList : list string;
  rm_comparisonGridNames : list string;
  rm_seasons : list string;
  rm_iselValues : option (list (string * Z))
}.

Record RemapObservedMLDClimatology := {
  ro_parentTask : string;
  ro_seasons : list string;
  ro_fileName : string;
  ro_outFilePrefix : string;
  ro_comparisonGridNames : list string
}.

Record RemapMpasReferenceClimatologySubtask := {
  rr_mpasClimatologyTask : MpasClimatologyTask;
  rr_parentTask : string;
  rr_climatologyName : string;
  rr_variableList : list string;
  rr_comparisonGridNames : list string;
  rr_seasons : list string;
  rr_iselValues : option (list (string * Z))
}.

Record plot_info := {
  outFileLabel : string;
  fieldNameInTitle : string;
  mpasFieldName : string;
  refFieldName : string;
  refTitleLabel : string;
  diffTitleLabel : string;
  unitsLabel : string;
  imageCaption : string;
  galleryGroup : string;
  groupSubtitle : option string;
  groupLink : string;
  galleryName : option string
}.

Record PlotClimatologyMapSubtask := {
  pl_parentTask : string;
  pl_season : string;
  pl_comparisonGridName : string;
  pl_remapMpasClimatologySubtask : RemapMpasClimatologySubtask;
  pl_remapObsClimatologySubtask : option RemapObservedMLDClimatology;
  pl_refClimatologySubtask : option RemapMpasReferenceClimatologySubtask;
  pl_info : option plot_info
}.

Inductive subtask :=
| RemapMpas (r : RemapMpasClimatologySubtask)
| RemapObs (r : RemapObservedMLDClimatology)
| RemapRef (r : RemapMpasReferenceClimatologySubtask)
| Plot (p : PlotClimatologyMapSubtask).

Definition is_plot (t : subtask) : bool :=
  match t with Plot _ => true | _ => false end.

Definition as_plot (t : subtask) : option PlotClimatologyMapSubtask :=
  match t with Plot p => Some p | _ => None end.

(** Modelled from the spec: the base class [AnalysisTask] is not part
    of the sources at hand.  A task is "a named unit of work belonging
    to a component, tagged with category labels, owning zero or more
    subtasks"; it owns none when its constructor returns. *)
Record AnalysisTask := {
  config : MpasAnalysisConfigParser;
  taskName : string;
  componentName : string;
  tags : list string;
  subtasks : list subtask
}.

(** The state of a constructor call: the task under construction
    ([self], [None] until the base-class constructor has run) and the
    subtask objects allocated so far, oldest first. *)
Record state := {
  self : option AnalysisTask;
  allocated : list subtask
}.

Definition initial : state := {| self := None; allocated := [] |}.

Definition AnalysisTask__init__ (cfg : MpasAnalysisConfigParser)
    (name component : string) (tgs : list string) : py state unit :=
  modify (fun s =>
    {| self := Some {| config := cfg; taskName := name;
                       componentName := component; tags := tgs;
                       subtasks := [] |};
       allocated := allocated s |}).

(** Modelled from the spec: [AnalysisTask.add_subtask] is not part of
    the sources at hand; construction "mutates the task tree by
    appending subtasks". *)
Definition add_subtask (t : subtask) : py state unit :=
  modify (fun s =>
    {| self := (fun a =>
                  {| config := config a; taskName := taskName a;
                     componentName := componentName a; tags := tags a;
                     subtasks := subtasks a ++ [t] |}) <$> self s;
       allocated := allocated s |}).

(** Calling the constructor of a subtask class allocates the object.
    The classes themselves are not part of the sources at hand; what
    their constructors do besides is left out. *)
Definition new {A} (inj : A -> subtask) (a : A) : py state A :=
  _ ← modify (fun s =>
        {| self := self s; allocated := allocated s ++ [inj a] |});
  mret a.

(** Modelled from the spec: [MpasAnalysisConfigParser.getExpression]
    is not part of the sources at hand; it "reads required list-valued
    configuration options". *)
Definition getExpression (cfg : MpasAnalysisConfigParser)
    (section option : string) : py state (list string) :=
  match expr_options cfg !! (section, option) with
  | Some l => mret l
  | None => raise (NoOptionError option)
  end.

(** [config.get(section, option)] *)
Definition config_get (cfg : MpasAnalysisConfigParser)
    (section option : string) : py state string :=
  match str_options cfg !! (section, option) with
  | Some v => mret v
  | None => raise (NoOptionError option)
  end.

Section Init.
(** [build_config_full_path] of [shared.io.utility] is not part of
    the sources at hand; the path it computes is a parameter. *)
Variable build_config_full_path :
  MpasAnalysisConfigParser -> string -> string -> string.

(** What the branch on [mpasRefClimatologyTask] leaves in the local
    variables. *)
Record comparison := {
  remapObservationsSubtask : option RemapObservedMLDClimatology;
  remapRefClimatologySubtask :
    option RemapMpasReferenceClimatologySubtask;
  c_galleryName : option string;
  c_refTitleLabel : string;
  c_diffTitleLabel : string;
  c_refFieldName : string;
  c_outFileLabel : string
}.

Definition fieldName := "mld".
Definition sectionName := "climatologyMapMLD".
Definition mpasFieldName_ := "timeMonthly_avg_dThreshMLD".

(** The branch [if mpasRefClimatologyTask is None: ... else: ...] of
    [__init__]. *)
Definition choose_comparison (cfg : MpasAnalysisConfigParser)
    (mpasRefClimatologyTask : option MpasClimatologyTask)
    (comparisonGridNames seasons : list string)
    : py state comparison :=
  match mpasRefClimatologyTask with
  | None =>
      let observationsDirectory :=
        build_config_full_path cfg "oceanObservations"
          (fieldName +:+ "Subdirectory") in
      let obsFileName :=
        observationsDirectory +:+ "/holtetalley_mld_climatology.nc" in
      let refFieldName := "mld" in
      let outFileLabel := "mldHolteTalleyARGO" in
      obs ← new RemapObs
        {| ro_parentTask := sectionName; ro_seasons := seasons;
           ro_fileName := obsFileName;
           ro_outFilePrefix := refFieldName;
           ro_comparisonGridNames := comparisonGridNames |};
      _ ← add_subtask (RemapObs obs);
      mret {| remapObservationsSubtask := Some obs;
              remapRefClimatologySubtask := None;
              c_galleryName := Some "Observations: Holte-Talley ARGO";
              c_refTitleLabel :=
                "Observations (HolteTalley density threshold MLD)";
              c_diffTitleLabel := "Model - Observations";
              c_refFieldName := refFieldName;
              c_outFileLabel := outFileLabel |}
  | Some refTask =>
      ref ← new RemapRef
        {| rr_mpasClimatologyTask := refTask;
           rr_parentTask := sectionName;
           rr_climatologyName := fieldName;
           rr_variableList := [mpasFieldName_];
           rr_comparisonGridNames := comparisonGridNames;
           rr_seasons := seasons;
           rr_iselValues := None |};
      refRunName ← config_get (mct_config refTask) "runs" "mainRunName";
      mret {| remapObservationsSubtask := None;
              remapRefClimatologySubtask := Some ref;
              c_galleryName := None;
              c_refTitleLabel := "Ref: " +:+ refRunName;
              c_diffTitleLabel := "Main - Reference";
              c_refFieldName := mpasFieldName_;
              c_outFileLabel := "mld" |}
  end.

Definition set_plot_info (p : PlotClimatologyMapSubtask)
    (i : plot_info) : PlotClimatologyMapSubtask :=
  {| pl_parentTask := pl_parentTask p; pl_season := pl_season p;
     pl_comparisonGridName := pl_comparisonGridName p;
     pl_remapMpasClimatologySubtask := pl_remapMpasClimatologySubtask p;
     pl_remapObsClimatologySubtask := pl_remapObsClimatologySubtask p;
     pl_refClimatologySubtask := pl_refClimatologySubtask p;
     pl_info := Some i |}.

Definition mld_plot_info (c : comparison) : plot_info :=
  {| outFileLabel := c_outFileLabel c;
     fieldNameInTitle := "MLD";
     mpasFieldName := mpasFieldName_;
     refFieldName := c_refFieldName c;
     refTitleLabel := c_refTitleLabel c;
     diffTitleLabel := c_diffTitleLabel c;
     unitsLabel := "m";
     imageCaption := "Mean Mixed-Layer Depth";
     galleryGroup := "Mixed-Layer Depth";
     groupSubtitle := None;
     groupLink := "mld";
     galleryName := c_galleryName c |}.

(** The body of the double loop: one plot subtask for a season and a
    comparison grid. *)
Definition make_plot (remap : RemapMpasClimatologySubtask)
    (c : comparison) (comparisonGridName season : string)
    : PlotClimatologyMapSubtask :=
  set_plot_info
    {| pl_parentTask := sectionName; pl_season := season;
       pl_comparisonGridName := comparisonGridName;
       pl_remapMpasClimatologySubtask := remap;
       pl_remapObsClimatologySubtask := remapObservationsSubtask c;
       pl_refClimatologySubtask := remapRefClimatologySubtask c;
       pl_info := None |}
    (mld_plot_info c).

(** [ClimatologyMapMLD.__init__] *)
Definition __init__ (cfg : MpasAnalysisConfigParser)
    (mpasClimatologyTask : MpasClimatologyTask)
    (mpasRefClimatologyTask : option MpasClimatologyTask)
    : py state unit :=
  _ ← AnalysisTask__init__ cfg "climatologyMapMLD" "ocean"
        ["climatology"; "horizontalMap"; fieldName];
  seasons ← getExpression cfg sectionName "seasons";
  _ ← (if decide (length seasons = 0%nat)
       then raise (ValueError ("config section " +:+ sectionName +:+
                     " does not contain valid list of seasons"))
       else mret tt);
  comparisonGridNames ← getExpression cfg sectionName "comparisonGrids";
  _ ← (if decide (length comparisonGridNames = 0%nat)
       then raise (ValueError ("config section " +:+ sectionName +:+
                     " does not contain valid list of comparison grids"))
       else mret tt);
  remapClimatologySubtask ← new RemapMpas
    {| rm_mpasClimatologyTask := mpasClimatologyTask;
       rm_parentTask := sectionName;
       rm_climatologyName := fieldName;
       rm_variableList := [mpasFieldName_];
       rm_comparisonGridNames := comparisonGridNames;
       rm_seasons := seasons;
       rm_iselValues := None |};
  c ← choose_comparison cfg mpasRefClimatologyTask
        comparisonGridNames seasons;
  for_in comparisonGridNames (fun comparisonGridName =>
    for_in seasons (fun season =>
      subtask ← new Plot
        (make_plot remapClimatologySubtask c comparisonGridName season);
      add_subtask (Plot subtask))).
End Init.

(** *** Auxiliary notions used to state what the constructor does *)

(** The state after one pass through the body of the double loop. *)
Definition push (p : PlotClimatologyMapSubtask) (s : state) : state :=
  {| self := (fun a =>
                {| config := config a; taskName := taskName a;
                   componentName := componentName a; tags := tags a;
                   subtasks := subtasks a ++ [Plot p] |}) <$> self s;
     allocated := allocated s ++ [Plot p] |}.

Definition push_all (ps : list PlotClimatologyMapSubtask) (s : state)
    : state :=
  {| self := (fun a =>
                {| config := config a; taskName := taskName a;
                   componentName := componentName a; tags := tags a;
                   subtasks := subtasks a ++ (Plot <$> ps) |}) <$> self s;
     allocated := allocated s ++ (Plot <$> ps) |}.

(** The plot subtasks of a task with these grids and seasons, in the
    order of the double loop. *)
Definition plots_of (remap : RemapMpasClimatologySubtask)
    (c : comparison) (grids seasons : list string)
    : list PlotClimatologyMapSubtask :=
  grids ≫= (fun g => make_plot remap c g <$> seasons).

(** *** Sample inputs *)

Definition sample_config : MpasAnalysisConfigParser :=
  {| expr_options :=
       {[ (sectionName, "seasons") := ["JFM"; "JAS"; "ANN"];
          (sectionName, "comparisonGrids") := ["latlon"; "antarctic"] ]};
     str_options := {[ ("runs", "mainRunName") := "refRun" ]} |}.

Definition no_seasons_config : MpasAnalysisConfigParser :=
  {| expr_options :=
       {[ (sectionName, "seasons") := [];
          (sectionName, "comparisonGrids") := ["latlon"] ]};
     str_options := ∅ |}.

Definition sample_task : MpasClimatologyTask :=
  {| mct_config := sample_config |}.

Definition sample_path (cfg : MpasAnalysisConfigParser)
    (section option : string) : string :=
  "/data/" +:+ section +:+ "/" +:+ option.

(** *** The subtasks and the labels of the two modes of comparison *)

(** The three remap subtasks as the constructor makes them, and what it
    hands to the plot subtasks in either mode. *)
Definition primary_remap (task : MpasClimatologyTask)
    (grids seasons : list string) : RemapMpasClimatologySubtask :=
  {| rm_mpasClimatologyTask := task;
     rm_parentTask := "climatologyMapMLD";
     rm_climatologyName := "mld";
     rm_variableList := ["timeMonthly_avg_dThreshMLD"];
     rm_comparisonGridNames := grids;
     rm_seasons := seasons;
     rm_iselValues := None |}.

Definition observations_remap
    (build_config_full_path :
       MpasAnalysisConfigParser -> string -> string -> string)
    (cfg : MpasAnalysisConfigParser)
    (grids seasons : list string) : RemapObservedMLDClimatology :=
  {| ro_parentTask := "climatologyMapMLD";
     ro_seasons := seasons;
     ro_fileName :=
       build_config_full_path cfg "oceanObservations" "mldSubdirectory"
         +:+ "/holtetalley_mld_climatology.nc";
     ro_outFilePrefix := "mld";
     ro_comparisonGridNames := grids |}.

Definition reference_remap (refTask : MpasClimatologyTask)
    (grids seasons : list string) : RemapMpasReferenceClimatologySubtask :=
  {| rr_mpasClimatologyTask := refTask;
     rr_parentTask := "climatologyMapMLD";
     rr_climatologyName := "mld";
     rr_variableList := ["timeMonthly_avg_dThreshMLD"];
     rr_comparisonGridNames := grids;
     rr_seasons := seasons;
     rr_iselValues := None |}.

Definition observations_comparison
    (build_config_full_path :
       MpasAnalysisConfigParser -> string -> string -> string)
    (cfg : MpasAnalysisConfigParser)
    (grids seasons : list string) : comparison :=
  {| remapObservationsSubtask :=
       Some (observations_remap build_config_full_path cfg grids seasons);
     remapRefClimatologySubtask := None;
     c_galleryName := Some "Observations: Holte-Talley ARGO";
     c_refTitleLabel := "Observations (HolteTalley density threshold MLD)";
     c_diffTitleLabel := "Model - Observations";
     c_refFieldName := "mld";
     c_outFileLabel := "mldHolteTalleyARGO" |}.

Definition reference_comparison (refTask : MpasClimatologyTask)
    (refRunName : string) (grids seasons : list string) : comparison :=
  {| remapObservationsSubtask := None;
     remapRefClimatologySubtask :=
       Some (reference_remap refTask grids seasons);
     c_galleryName := None;
     c_refTitleLabel := "Ref: " +:+ refRunName;
     c_diffTitleLabel := "Main - Reference";
     c_refFieldName := "timeMonthly_avg_dThreshMLD";
     c_outFileLabel := "mld" |}.

(** The task once the constructor of the base class has run, with the
    subtasks registered since. *)
Definition constructed (cfg : MpasAnalysisConfigParser)
    (registered : list subtask) : AnalysisTask :=
  {| config := cfg; taskName := "climatologyMapMLD";
     componentName := "ocean";
     tags := ["climatology"; "horizontalMap"; "mld"];
     subtasks := registered |}.

(** A configuration with a season and an empty list of comparison
    grids. *)
Definition no_grids_config : MpasAnalysisConfigParser :=
  {| expr_options :=
       {[ (sectionName, "seasons") := ["ANN"];
          (sectionName, "comparisonGrids") := [] ]};
     str_options := ∅ |}.

End ClimatologyMapMLD.


(** ** [climatology_map_mld.py]: the observational data set *)

(** A model of the part of [xarray] and [numpy] that
    [build_observational_dataset] uses.  A data set holds its variables
    in insertion order, the names of those that are coordinates, and the
    size of each dimension; [float] cells are kept abstract. *)
Module ObservedMLD.

Section Cells.
(** Cells of dtype [float]: the type, [x + 1] and the conversion
    [int(x)]. *)
Variable F : Type.
Variable fadd1 : F -> F.
Variable ftrunc : F -> Z.

Inductive ndarray :=
| IntArray (l : list Z)
| FloatArray (l : list F).

Definition size (a : ndarray) : nat :=
  match a with IntArray l => length l | FloatArray l => length l end.

(** Arithmetic of dtype [int64] wraps around. *)
Definition int64 (z : Z) : Z := (z + 2 ^ 63) mod 2 ^ 64 - 2 ^ 63.

(** [a += 1] *)
Definition iadd1 (a : ndarray) : ndarray :=
  match a with
  | IntArray l => IntArray ((fun z => int64 (z + 1)) <$> l)
  | FloatArray l => FloatArray (fadd1 <$> l)
  end.

(** [np.array(a, int)] *)
Definition astype_int (a : ndarray) : ndarray :=
  match a with
  | IntArray l => IntArray l
  | FloatArray l => IntArray (ftrunc <$> l)
  end.

(** [np.ones(n, int)] *)
Definition ones (n : nat) : ndarray := IntArray (replicate n 1).

Record DataArray := { dims : list string; values : ndarray }.

Record Dataset := {
  variables : list (string * DataArray);
  coord_names : list string;
  ds_dims : list (string * nat)
}.

(** Lookup and update in a dictionary that keeps insertion order. *)
Fixpoint assoc {V} (k : string) (l : list (string * V)) : option V :=
  match l with
  | [] => None
  | (k', v) :: l' => if decide (k = k') then Some v else assoc k l'
  end.

Fixpoint assoc_set {V} (k : string) (v : V) (l : list (string * V))
    : list (string * V) :=
  match l with
  | [] => [(k, v)]
  | (k', v') :: l' =>
      if decide (k = k') then (k, v) :: l'
      else (k', v') :: assoc_set k v l'
  end.

Definition names {V} (l : list (string * V)) : list string := l.*1.

Definition data_vars (ds : Dataset) : list string :=
  filter (fun k => k ∉ coord_names ds) (names (variables ds)).

(** [ds.NAME.values += 1] *)
Definition values_iadd1 (name : string) : py Dataset unit :=
  ds ← get_state;
  match assoc name (variables ds) with
  | None => raise (AttributeError name)
  | Some v =>
      modify (fun ds =>
        {| variables :=
             assoc_set name
               {| dims := dims v; values := iadd1 (values v) |}
               (variables ds);
           coord_names := coord_names ds;
           ds_dims := ds_dims ds |})
  end.

(** [name_dict.get(k, k)] *)
Definition renamed (name_dict : list (string * string)) (k : string)
    : string :=
  default k (assoc k name_dict).

Definition rename_var (name_dict : list (string * string))
    (kv : string * DataArray) : string * DataArray :=
  (renamed name_dict kv.1,
   {| dims := renamed name_dict <$> dims kv.2; values := values kv.2 |}).

(** [ds.rename(name_dict, inplace=True)]: every key has to be a
    variable or a dimension and no new name may be taken; variables,
    their dimensions, coordinate names and dimensions are renamed. *)
Definition rename (name_dict : list (string * string))
    : py Dataset unit :=
  ds ← get_state;
  _ ← for_in name_dict (fun '(k, v) =>
        if decide ((k ∉ names (variables ds)) /\ (k ∉ names (ds_dims ds)))
        then raise (ValueError ("cannot rename " +:+ k +:+
               " because it is not a variable or dimension in this dataset"))
        else if decide ((v ∈ names (variables ds)) /\ k <> v)
        then raise (ValueError ("the new name " +:+ v +:+
                                " already exists"))
        else mret tt);
  modify (fun ds =>
    {| variables := rename_var name_dict <$> variables ds;
       coord_names := renamed name_dict <$> coord_names ds;
       ds_dims :=
         (fun '(k, n) => (renamed name_dict k, n)) <$> ds_dims ds |}).

(** [ds[name]] *)
Definition getitem (name : string) : py Dataset DataArray :=
  ds ← get_state;
  match assoc name (variables ds) with
  | Some v => mret v
  | None => raise (KeyError name)
  end.

(** [ds.dims[name]] *)
Definition dim_size (name : string) : py Dataset nat :=
  ds ← get_state;
  match assoc name (ds_dims ds) with
  | Some n => mret n
  | None => raise (KeyError name)
  end.

(** [ds.coords[name] = v]: the variable is added or replaced and
    becomes a coordinate. *)
Definition set_coord (name : string) (v : DataArray) : py Dataset unit :=
  modify (fun ds =>
    {| variables := assoc_set name v (variables ds);
       coord_names :=
         if decide (name ∈ coord_names ds) then coord_names ds
         else coord_names ds ++ [name];
       ds_dims := ds_dims ds |}).

(** Modelled from the spec: [mpas_xarray.subset_variables] is not
    part of the sources at hand.  It performs the "subsetting to just
    the variables needed": the variables that are listed are kept,
    and so are the coordinates; a listed name that the data set lacks
    is a [MissingVariableError]. *)
Definition subset_variables (ds : Dataset) (variableList : list string)
    : py Dataset Dataset :=
  match filter (fun k => k ∉ names (variables ds)) variableList with
  | k :: _ => raise (Exn "MissingVariableError" k)
  | [] =>
      mret {| variables :=
                filter (fun kv => (kv.1 ∈ variableList)
                                  \/ (kv.1 ∈ coord_names ds))
                       (variables ds);
              coord_names := coord_names ds;
              ds_dims := ds_dims ds |}
  end.

(** [RemapObservedMLDClimatology.build_observational_dataset]; the
    files that can be opened are given by [fs]. *)
Definition build_observational_dataset (fs : gmap string Dataset)
    (fileName : string) : outcome Dataset :=
  match fs !! fileName with
  | None => Raise (IOError fileName)
  | Some opened =>
      fst ((_ ← values_iadd1 "iMONTH";
            _ ← rename [("month", "calmonth"); ("lat", "latCoord");
                        ("lon", "lonCoord"); ("mld_dt_mean", "mld")];
            _ ← rename [("iMONTH", "Time"); ("iLAT", "lat");
                        ("iLON", "lon")];
            latCoord ← getitem "latCoord";
            _ ← set_coord "lat" latCoord;
            lonCoord ← getitem "lonCoord";
            _ ← set_coord "lon" lonCoord;
            calmonth ← getitem "calmonth";
            _ ← set_coord "Time" calmonth;
            calmonth ← getitem "calmonth";
            _ ← set_coord "month"
                  {| dims := ["Time"];
                     values := astype_int (values calmonth) |};
            n ← dim_size "Time";
            _ ← set_coord "year" {| dims := ["Time"]; values := ones n |};
            dsObs ← get_state;
            subset_variables dsObs ["mld"; "month"]) opened)
  end.

(** *** Raw files *)

(** The names that [build_observational_dataset] reads or writes. *)
Definition reserved : list string :=
  ["month"; "lat"; "lon"; "mld_dt_mean"; "iMONTH"; "iLAT"; "iLON";
   "calmonth"; "latCoord"; "lonCoord"; "mld"; "Time"; "year"].

(** A raw file: the month, latitude and longitude of each index, the
    field on the grid, the three index variables (the coordinates of
    the file) and further data variables [others]. *)
Definition raw_file (month lat lon mld_dt_mean iMONTH iLAT iLON : ndarray)
    (others : list (string * DataArray)) : Dataset :=
  {| variables :=
       ("iMONTH", {| dims := ["iMONTH"]; values := iMONTH |})
       :: ("iLAT", {| dims := ["iLAT"]; values := iLAT |})
       :: ("iLON", {| dims := ["iLON"]; values := iLON |})
       :: ("month", {| dims := ["iMONTH"]; values := month |})
       :: ("lat", {| dims := ["iLAT"]; values := lat |})
       :: ("lon", {| dims := ["iLON"]; values := lon |})
       :: ("mld_dt_mean",
           {| dims := ["iMONTH"; "iLAT"; "iLON"];
              values := mld_dt_mean |})
       :: others;
     coord_names := ["iMONTH"; "iLAT"; "iLON"];
     ds_dims := [("iMONTH", size month); ("iLAT", size lat);
                 ("iLON", size lon)] |}.
(** What [build_observational_dataset] makes of a raw file. *)
Definition normalized (month lat lon mld_dt_mean : ndarray) : Dataset :=
  {| variables :=
       [("Time", {| dims := ["Time"]; values := month |});
        ("lat", {| dims := ["lat"]; values := lat |});
        ("lon", {| dims := ["lon"]; values := lon |});
        ("mld",
         {| dims := ["Time"; "lat"; "lon"]; values := mld_dt_mean |});
        ("month",
         {| dims := ["Time"]; values := astype_int month |});
        ("year", {| dims := ["Time"]; values := ones (size month) |})];
     coord_names := ["Time"; "lat"; "lon"; "month"; "year"];
     ds_dims := [("Time", size month); ("lat", size lat);
                 ("lon", size lon)] |}.
End Cells.

Arguments IntArray {F} l.
Arguments FloatArray {F} l.
Arguments Build_DataArray {F} _ _.
Arguments dims {F} _.
Arguments values {F} _.
Arguments Build_Dataset {F} _ _ _.
Arguments variables {F} _.
Arguments coord_names {F} _.
Arguments ds_dims {F} _.
Arguments data_vars {F} _.
Arguments size {F} _.

(** *** [get_observation_descriptor] *)

Section Descriptor.
(** Cells as above; the descriptors of a grid and
    [LatLonGridDescriptor.read], which are not part of the sources at
    hand, are parameters. *)
Variable F : Type.
Variable fadd1 : F -> F.
Variable ftrunc : F -> Z.
Variable MeshDescriptor : Type.
Variable LatLonGridDescriptor_read :
  Dataset F -> string -> string -> outcome MeshDescriptor.

(** [RemapObservedMLDClimatology.get_observation_descriptor]; closing
    the data set leaves no trace in the model. *)
Definition get_observation_descriptor (fs : gmap string (Dataset F))
    (fileName : string) : outcome MeshDescriptor :=
  match build_observational_dataset F fadd1 ftrunc fs fileName with
  | Raise e => Raise e
  | Return dsObs =>
      match LatLonGridDescriptor_read dsObs "lat" "lon" with
      | Raise e => Raise e
      | Return obsDescriptor => Return obsDescriptor
      end
  end.

End Descriptor.

(** *** A sample file, with [float] cells taken as rationals *)

Definition Qtrunc (q : Q) : Z := Z.quot (Qnum q) (Z.pos (Qden q)).

Definition sample_file : Dataset Q :=
  raw_file Q
    (IntArray [1; 2; 3; 4; 5; 6; 7; 8; 9; 10; 11; 12])
    (FloatArray [(-45 # 1)%Q; (45 # 1)%Q])
    (FloatArray [(90 # 1)%Q])
    (FloatArray (replicate 24 (50 # 1)%Q))
    (IntArray [0; 1; 2; 3; 4; 5; 6; 7; 8; 9; 10; 11])
    (IntArray [0; 1]) (IntArray [0])
    [("mld_da_mean",
      {| dims := ["iMONTH"; "iLAT"; "iLON"];
         values := FloatArray (replicate 24 (60 # 1)%Q) |})].

Definition sample_fs : gmap string (Dataset Q) :=
  {[ "obs/holtetalley_mld_climatology.nc" := sample_file ]}.

(** A second file with the months, the grid and the field of
    [sample_file], other index values and no further variable; and a
    file without the field. *)
Definition shifted_file : Dataset Q :=
  raw_file Q
    (IntArray [1; 2; 3; 4; 5; 6; 7; 8; 9; 10; 11; 12])
    (FloatArray [(-45 # 1)%Q; (45 # 1)%Q])
    (FloatArray [(90 # 1)%Q])
    (FloatArray (replicate 24 (50 # 1)%Q))
    (IntArray [1; 2; 3; 4; 5; 6; 7; 8; 9; 10; 11; 12])
    (IntArray [1; 2]) (IntArray [1])
    [].

Definition shifted_fs : gmap string (Dataset Q) :=
  {[ "obs/shifted.nc" := shifted_file ]}.

Definition no_field_file : Dataset Q :=
  {| variables :=
       [("iMONTH", {| dims := ["iMONTH"]; values := IntArray [0; 1] |});
        ("month", {| dims := ["iMONTH"]; values := IntArray [1; 2] |});
        ("lat", {| dims := ["iLAT"]; values := FloatArray [(45 # 1)%Q] |});
        ("lon", {| dims := ["iLON"]; values := FloatArray [(90 # 1)%Q] |})];
     coord_names := ["iMONTH"];
     ds_dims := [("iMONTH", 2%nat); ("iLAT", 1%nat); ("iLON", 1%nat)] |}.

Definition no_field_fs : gmap string (Dataset Q) :=
  {[ "obs/no_field.nc" := no_field_file ]}.

(** A reader of descriptors: the values of the two coordinates. *)
Definition sample_read (ds : Dataset Q) (latVarName lonVarName : string)
    : outcome (ndarray Q * ndarray Q) :=
  match assoc latVarName (variables ds), assoc lonVarName (variables ds) with
  | Some lat, Some lon => Return (values lat, values lon)
  | _, _ => Raise (KeyError latVarName)
  end.

End ObservedMLD.


(** ** [image_xml.py]: the provenance record and the thumbnails *)

Module ImageXml.

(** *** The XML tree *)

(** The root element, given by its sub-elements in document order, each
    with its tag and its text ([None] for a text that is [None]). *)
Definition Element : Type := list (string * option string).

(** [etree.SubElement(root, tag).text = text] *)
Definition SubElement (tag : string) (text : option string)
    : py Element unit :=
  modify (fun root => root ++ [(tag, text)]).

(** *** Images, after [PIL] *)

(** An image is known by its pixel size and by the way it was made: read
    from a picture, or resized or cropped from another image. *)
Inductive Image :=
| Picture (width height : Z)
| Resized (source : Image) (width height : Z)
| Cropped (source : Image) (x0 y0 x1 y1 : Z).

(** [image.size] *)
Definition size (image : Image) : Z * Z :=
  match image with
  | Picture w h => (w, h)
  | Resized _ w h => (w, h)
  | Cropped _ x0 y0 x1 y1 => (x1 - x0, y1 - y0)
  end.

(** [image.resize(size, Image.ANTIALIAS)]: a target without pixels is
    refused. *)
Definition resize {S} (image : Image) (size : Z * Z) : py S Image :=
  if decide (size.1 < 1 \/ size.2 < 1)
  then raise (ValueError "height and width must be > 0")
  else mret (Resized image size.1 size.2).

(** [image.crop([left, upper, right, lower])] *)
Definition crop (image : Image) (x0 y0 x1 y1 : Z) : Image :=
  Cropped image x0 y0 x1 y1.

(** *** The file system *)

Inductive file :=
| ImageFile (image : Image)
| XmlFile (root : Element).

Record filesystem := {
  dirs : gset string;
  files : gmap string file
}.

(** The path up to its last ["/"], when it has one. *)
Fixpoint split_dir (path : string) : option string :=
  match path with
  | EmptyString => None
  | String c rest =>
      match split_dir rest with
      | Some dir => Some (String c dir)
      | None => if decide (c = "/"%char) then Some EmptyString else None
      end
  end.

(** The directory of a path; the empty path stands for the directory
    that relative paths start from. *)
Definition dirname (path : string) : string :=
  default EmptyString (split_dir path).

(** The path and the directories above it. *)
Fixpoint upwards (fuel : nat) (path : string) : list string :=
  match fuel with
  | O => []
  | S fuel' =>
      if decide (path = EmptyString) then []
      else path :: upwards fuel' (dirname path)
  end.

(** [os.makedirs(path)]: the directory and the missing ones above it are
    created; a path that exists is an [OSError]. *)
Definition makedirs (path : string) : py filesystem unit :=
  fs ← get_state;
  if decide (path ∈ dirs fs \/ is_Some (files fs !! path))
  then raise (OSError ("File exists: " +:+ path))
  else modify (fun fs =>
         {| dirs := dirs fs ∪ list_to_set (upwards (S (String.length path)) path);
            files := files fs |}).

Definition write_file (path : string) (f : file) : py filesystem unit :=
  fs ← get_state;
  if decide (dirname path ∈ dirs fs)
  then modify (fun fs =>
         {| dirs := dirs fs; files := <[path := f]> (files fs) |})
  else raise (IOError ("No such file or directory: " +:+ path)).

(** [shutil.copyfile(src, dst)] *)
Definition copyfile (src dst : string) : py filesystem unit :=
  fs ← get_state;
  match files fs !! src with
  | Some f => write_file dst f
  | None => raise (IOError ("No such file or directory: " +:+ src))
  end.

(** [Image.open(path)] *)
Definition Image_open (path : string) : py filesystem Image :=
  fs ← get_state;
  match files fs !! path with
  | Some (ImageFile image) => mret image
  | Some (XmlFile _) => raise (IOError ("cannot identify image file " +:+ path))
  | None => raise (IOError ("No such file or directory: " +:+ path))
  end.

(** [image.save(path)] *)
Definition save (image : Image) (path : string) : py filesystem unit :=
  write_file path (ImageFile image).

(** [tree.write(path, xml_declaration=True, pretty_print=True)] *)
Definition tree_write (root : Element) (path : string)
    : py filesystem unit :=
  write_file path (XmlFile root).

(** *** The process and its surroundings *)

(** What the process sees: its command line, working directory, user,
    the time (as [strftime] prints it), the host name, and how running
    [git describe --always --dirty] goes: the return code and the two
    outputs, or the exception of [subprocess.Popen] when the program
    cannot be started. *)
Record environ := {
  argv : list string;
  cwd : string;
  USER : option string;
  curtime : string;
  hostname : string;
  git_describe : outcome (Z * string * string)
}.

(** [subprocess.Popen(...)] followed by [p.communicate()] *)
Definition Popen_communicate {S} (env : environ) : py S (Z * string * string) :=
  match git_describe env with
  | Return r => mret r
  | Raise e => raise e
  end.

(** [s.strip('\n')] *)
Definition newline : Ascii.ascii := Ascii.ascii_of_nat 10.

Fixpoint lstrip (c : Ascii.ascii) (s : string) : string :=
  match s with
  | EmptyString => EmptyString
  | String a rest => if decide (a = c) then lstrip c rest else s
  end.

Definition strip (c : Ascii.ascii) (s : string) : string :=
  String.rev (lstrip c (String.rev (lstrip c s))).

(** *** [_provenance_command] *)

Definition _provenance_command (env : environ) (history : option string)
    : py Element unit :=
  let call := String.concat " " (argv env) in
  let history :=
    match history with
    | None => call
    | Some history => call +:+ "; " +:+ history
    end in
  _ ← SubElement "history" (Some history);
  _ ← SubElement "cwd" (Some (cwd env));
  _ ← SubElement "user" (USER env);
  _ ← SubElement "curtime" (Some (curtime env));
  _ ← SubElement "host" (Some (hostname env));
  p ← Popen_communicate env;
  let '(returncode, stdout, stderr) := p in
  let githash :=
    if decide (returncode = 0) then strip newline stdout
    else "git hash unavailable" in
  SubElement "githash" (Some githash).

(** *** [_generate_thumbnails] *)

(** [float(n)], and [int(x)], which rounds towards zero. *)
Definition float (n : Z) : Q := inject_Z n.

Definition int (x : Q) : Z :=
  if Qle_bool 0 x then Qfloor x else Qceiling x.

(** [a / b] on [float]. *)
Definition fdiv {S} (a b : Q) : py S Q :=
  if Qeq_bool b 0 then raise (ZeroDivisionError "float division by zero")
  else mret (a / b)%Q.

(** [[int(dim/factor + 0.5) for dim in image.size]] *)
Definition scaled {S} (size : Z * Z) (factor : Q) : py S (Z * Z) :=
  w ← fdiv (float size.1) factor;
  h ← fdiv (float size.2) factor;
  mret (int (w + (1 # 2))%Q, int (h + (1 # 2))%Q).

(** [min(a, b)] *)
Definition fmin (a b : Q) : Q := if Qle_bool a b then a else b.

Definition fixedWidth : Z := 480.
Definition fixedHeight : Z := 360.

Definition _generate_thumbnails (imageFileName directory : string)
    : py filesystem ((Z * Z) * string) :=
  image ← Image_open (directory +:+ "/" +:+ imageFileName);
  let thumbnailDir := directory +:+ "/thumbnails" in
  let imageSize := size image in
  let '(orientation, thumbnailHeight) :=
    if decide (imageSize.1 < imageSize.2) then ("vert", 480)
    else ("horiz", 180) in
  (* first, a thumbnail with the same aspect ratio *)
  factor ← fdiv (float (size image).2) (float thumbnailHeight);
  size_ ← scaled (size image) factor;
  thumbnail ← resize image size_;
  _ ← save thumbnail (thumbnailDir +:+ "/" +:+ imageFileName);
  (* second, a thumbnail with a fixed size *)
  widthFactor ← fdiv (float (size image).1) (float fixedWidth);
  heightFactor ← fdiv (float (size image).2) (float fixedHeight);
  let factor := fmin widthFactor heightFactor in
  size_ ← scaled (size image) factor;
  thumbnail ← resize image size_;
  let thumbnail :=
    if Qle_bool widthFactor heightFactor
    then (* crop out the top of the thumbnail *)
         crop thumbnail 0 0 fixedWidth fixedHeight
    else (* crop out the left side of the thumbnail *)
         crop thumbnail 0 0 fixedWidth fixedHeight in
  _ ← save thumbnail (thumbnailDir +:+ "/fixed_" +:+ imageFileName);
  mret (imageSize, orientation).

(** *** [write_image_xml] *)

(** The options that [write_image_xml] reads: [html.generate], and the
    full paths of the plots and of the HTML output, which
    [build_config_full_path] (not part of the sources at hand) computes
    from the section [output]. *)
Record config := {
  html_generate : bool;
  output_plotsSubdirectory : string;
  output_htmlSubdirectory : string
}.

(** A procedure on a local object, called from a procedure on the file
    system. *)
Definition on_local {S L A} (m : py L A) (l : L) : py S L := fun s =>
  match m l with
  | (Return _, l') => (Return l', s)
  | (Raise e, _) => (Raise e, s)
  end.

Definition write_image_xml (env : environ) (cfg : config)
    (filePrefix componentName componentSubdirectory galleryGroup
       groupLink : string)
    (groupSubtitle gallery : option string)
    (thumbnailDescription imageDescription imageCaption : string)
    (history : option string) (kwargs : list (string * string))
    : py filesystem unit :=
  let imageFileName := filePrefix +:+ ".png" in
  let plotsDirectory := output_plotsSubdirectory cfg in
  let xmlFileName := plotsDirectory +:+ "/" +:+ filePrefix +:+ ".xml" in
  let root : Element :=
    [("imageFileName", Some imageFileName);
     ("componentName", Some componentName);
     ("componentSubdirectory", Some componentSubdirectory);
     ("galleryGroup", Some galleryGroup)]
    ++ match groupSubtitle with
       | Some t => [("groupSubtitle", Some t)]
       | None => []
       end
    ++ [("groupLink", Some groupLink)]
    ++ match gallery with
       | Some t => [("gallery", Some t)]
       | None => []
       end
    ++ [("thumbnailDescription", Some thumbnailDescription);
        ("imageDescription", Some imageDescription);
        ("imageCaption", Some imageCaption)] in
  let generateHTML := html_generate cfg in
  root ← (if generateHTML then
            let htmlBaseDirectory := output_htmlSubdirectory cfg in
            let componentDirectory :=
              htmlBaseDirectory +:+ "/" +:+ componentSubdirectory in
            _ ← try_except (makedirs (componentDirectory +:+ "/thumbnails"))
                  "OSError" (mret tt);
            let plotsDirectory := output_plotsSubdirectory cfg in
            _ ← copyfile (plotsDirectory +:+ "/" +:+ imageFileName)
                  (componentDirectory +:+ "/" +:+ imageFileName);
            r ← _generate_thumbnails imageFileName componentDirectory;
            let '(imageSize, orientation) := r in
            mret (root ++
                  [("imageSize",
                    Some (pretty imageSize.1 +:+ "x" +:+ pretty imageSize.2));
                   ("orientation", Some orientation)])
          else mret root);
  root ← on_local (_provenance_command env history) root;
  let root := root ++ ((fun kv => (kv.1, Some kv.2)) <$> kwargs) in
  tree_write root xmlFileName.

(** *** What is kept of the rescaled image *)

(** The fixed thumbnail keeps the top of a rescaled image when the box
    spans its whole width from the upper edge, and the left of it when
    the box spans its whole height from the left edge. *)
Definition keeps_top (thumbnail : Image) : Prop :=
  exists source w h,
    thumbnail = Cropped (Resized source w h) 0 0 fixedWidth fixedHeight
    /\ w = fixedWidth /\ fixedHeight <= h.

Definition keeps_left (thumbnail : Image) : Prop :=
  exists source w h,
    thumbnail = Cropped (Resized source w h) 0 0 fixedWidth fixedHeight
    /\ h = fixedHeight /\ fixedWidth <= w.

(** Rounding [w / (a / c)] to the nearest integer, computed on
    integers. *)
Definition rounded (w a c : Z) : Z := (2 * w * c + a) / (2 * a).

(** The two thumbnails of an image of size [w] by [h]. *)
Definition aspect_thumbnail (image : Image) (w h : Z) : Image :=
  let thumbnailHeight := if decide (w < h) then 480 else 180 in
  Resized image (rounded w h thumbnailHeight) (rounded h h thumbnailHeight).

Definition fixed_thumbnail (image : Image) (w h : Z) : Image :=
  if w * 360 <=? h * 480
  then Cropped (Resized image (rounded w w 480) (rounded h w 480))
         0 0 fixedWidth fixedHeight
  else Cropped (Resized image (rounded w h 360) (rounded h h 360))
         0 0 fixedWidth fixedHeight.

(** The sub-elements that [_provenance_command] adds before [githash]. *)
Definition provenance_fields (env : environ) (history : option string)
    : Element :=
  [("history",
    Some match history with
         | None => String.concat " " (argv env)
         | Some history =>
             String.concat " " (argv env) +:+ "; " +:+ history
         end);
   ("cwd", Some (cwd env));
   ("user", USER env);
   ("curtime", Some (curtime env));
   ("host", Some (hostname env))].

(** *** Sample inputs *)

Definition sample_environ : environ :=
  {| argv := ["run_mpas_analysis"; "config.ini"];
     cwd := "/home/user";
     USER := Some "user";
     curtime := "11/03/17 12:00";
     hostname := "host";
     git_describe :=
       Return (128, "", "fatal: not a git repository") |}.

Definition no_git_environ : environ :=
  {| argv := ["run_mpas_analysis"; "config.ini"];
     cwd := "/home/user";
     USER := Some "user";
     curtime := "11/03/17 12:00";
     hostname := "host";
     git_describe := Raise (OSError "No such file or directory") |}.

Definition sample_config : config :=
  {| html_generate := true;
     output_plotsSubdirectory := "/out/plots";
     output_htmlSubdirectory := "/out/html" |}.

Definition sample_fs (image : Image) : filesystem :=
  {| dirs := {[ "/out"; "/out/plots"; "/out/html"; "/out/html/ocean";
                "/out/html/ocean/thumbnails" ]};
     files := {[ "/out/plots/mld.png" := ImageFile image ]} |}.

(** The HTML tree once the image has been copied into it. *)
Definition gallery_fs (image : Image) : filesystem :=
  {| dirs := {[ "/out"; "/out/plots"; "/out/html"; "/out/html/ocean";
                "/out/html/ocean/thumbnails" ]};
     files := {[ "/out/html/ocean/mld.png" := ImageFile image ]} |}.

(** *** What a procedure may change *)

(** [fs'] differs from [fs] at most by new directories among [D] and by
    the files at the paths [P]. *)
Definition differs_within (D P : string -> Prop) (fs fs' : filesystem)
    : Prop :=
  (forall d, d ∈ dirs fs -> d ∈ dirs fs')
  /\ (forall d, d ∈ dirs fs' -> d ∈ dirs fs \/ D d)
  /\ (forall p, ~ P p -> files fs' !! p = files fs !! p).

(** A procedure that, whatever its outcome, changes no more than that. *)
Definition writes_within (D P : string -> Prop) {A}
    (m : py filesystem A) : Prop :=
  forall fs, differs_within D P fs (m fs).2.

(** A process whose [git describe] succeeds. *)
Definition git_environ : environ :=
  {| argv := ["run_mpas_analysis"; "config.ini"];
     cwd := "/home/user";
     USER := None;
     curtime := "11/03/17 12:00";
     hostname := "host";
     git_describe :=
       Return (0, "v1.0-2-g1a2b3c4" +:+ String newline "", "") |}.

Definition no_html_config : config :=
  {| html_generate := false;
     output_plotsSubdirectory := "/out/plots";
     output_htmlSubdirectory := "/out/html" |}.

(** The plots directory before any plot is saved, and with one plot. *)
Definition bare_fs : filesystem :=
  {| dirs := {[ "/out"; "/out/plots" ]}; files := ∅ |}.

Definition plots_fs (image : Image) : filesystem :=
  {| dirs := {[ "/out"; "/out/plots" ]};
     files := {[ "/out/plots/mld.png" := ImageFile image ]} |}.

End ImageXml.


(** ** [oned.py]: the 1-D plot renderer *)

Module Oned.

(** Modelled from the spec: [limit_title] of [shared.plot.title] is not
    part of the sources at hand.  A string "longer than [maxTitleLength]
    is truncated and ends with an ellipsis; a string at or under the
    limit is unchanged". *)
Definition limit_title (title : string) (max_title_length : nat) : string :=
  if decide (max_title_length < String.length title)%nat
  then String.substring 0 max_title_length title +:+ "..."
  else title.

(** A font size is an integer when it is passed to [plot_1D] and a string
    when it is read with [config.get]. *)
Inductive fontsize :=
| SizeInt (n : Z)
| SizeStr (s : string).

(** The options of the section [plot] that [plot_1D] reads. *)
Record config := {
  plot_defaultFontSize : Z;
  plot_dpi : Z;
  plot_titleFontSize : string;
  plot_axisFontSize : string;
  plot_titleFontColor : string;
  plot_titleFontWeight : string
}.

(** [l[i]] *)
Definition index {S A} (l : list A) (i : nat) : py S A :=
  match l !! i with
  | Some a => mret a
  | None => raise (IndexError "list index out of range")
  end.

Section Arrays.
(** Arrays of [float], with [a + b] and [a - b]. *)
Variable array : Type.
Variable add sub : array -> array -> array.

(** The calls to [matplotlib] that change the current figure. *)
Inductive command :=
| rc_font (size : Z)
| figure (figsize : Q * Q) (dpi : Z)
| plot (x y : array) (color linestyle : string) (marker : option string)
       (linewidth : Q) (label : option string)
| fill_between (x y1 y2 : array) (facecolor : string) (alpha : Q)
| grid
| axhline (y : Q) (linestyle color : string)
| legend
| title_ (text : string) (size : fontsize) (color weight : string)
| xlabel_ (text : string) (size : fontsize)
| ylabel_ (text : string) (size : fontsize)
| invert_yaxis
| xlim (lim : list Q)
| ylim (lim : list Q)
| savefig (fileout : string)
| close.

Definition plt (c : command) : py (list command) unit :=
  modify (fun fig => fig ++ [c]).

(** The arguments of [plot_1D]. *)
Record arguments := {
  xArrays : list (option array);
  fieldArrays : list array;
  errArrays : list (option array);
  lineColors : option (list string);
  lineStyles : option (list string);
  markers : option (list (option string));
  lineWidths : option (list Q);
  legendText : option (list (option string));
  title : option string;
  xlabel : option string;
  ylabel : option string;
  fileout : option string;
  figsize : Q * Q;
  dpi : option Z;
  xLim : option (list Q);
  yLim : option (list Q);
  invertYAxis : bool;
  maxTitleLength : nat;
  titleFontSize : option Z;
  axisFontSize : option Z;
  defaultFontSize : option Z
}.

(** [l[i]] for an optional list, with the default of the source when the
    list is [None]. *)
Definition index_or {A} (l : option (list A)) (i : nat) (default : A)
    : py (list command) A :=
  match l with
  | None => mret default
  | Some l => index l i
  end.

(** The loop over the series, for the indices still to come;
    [plotLegend] is the local variable of that name. *)
Fixpoint series_loop (a : arguments) (indices : list nat)
    (plotLegend : bool) : py (list command) bool :=
  match indices with
  | [] => mret plotLegend
  | dsIndex :: rest =>
      xArray ← index (xArrays a) dsIndex;
      fieldArray ← index (fieldArrays a) dsIndex;
      errArray ← index (errArrays a) dsIndex;
      match xArray with
      | None => series_loop a rest plotLegend
      | Some xArray =>
          labelled ←
            match legendText a with
            | None => mret (None, plotLegend)
            | Some legendText =>
                label ← index legendText dsIndex;
                mret ((fun label => limit_title label (maxTitleLength a))
                        <$> label, true)
            end;
          let '(label, plotLegend) := labelled in
          color ← index_or (lineColors a) dsIndex "k";
          marker ← index_or (markers a) dsIndex None;
          linestyle ← index_or (lineStyles a) dsIndex "-";
          linewidth ← index_or (lineWidths a) dsIndex 1%Q;
          _ ← plt (plot xArray fieldArray color linestyle marker linewidth
                     label);
          _ ← match errArray with
              | Some errArray =>
                  _ ← plt (fill_between xArray fieldArray
                             (add fieldArray errArray) color (1 # 5));
                  plt (fill_between xArray fieldArray
                         (sub fieldArray errArray) color (1 # 5))
              | None => mret tt
              end;
          series_loop a rest plotLegend
      end
  end.

(** [if c: m] *)
Definition when (c : bool) (m : py (list command) unit)
    : py (list command) unit :=
  if c then m else mret tt.

(** The truth value of an optional list. *)
Definition truthy {A} (l : option (list A)) : bool :=
  match l with
  | Some (_ :: _) => true
  | _ => false
  end.

Definition plot_1D (cfg : config) (a : arguments) : py (list command) unit :=
  let defaultFontSize :=
    default (plot_defaultFontSize cfg) (defaultFontSize a) in
  _ ← plt (rc_font defaultFontSize);
  let dpi := default (plot_dpi cfg) (dpi a) in
  _ ← plt (figure (figsize a) dpi);
  plotLegend ← series_loop a (seq 0 (length (xArrays a))) false;
  _ ← plt grid;
  _ ← plt (axhline 0 "-" "k");
  _ ← when (plotLegend && bool_decide (1 < length (xArrays a))%nat)
        (plt legend);
  let titleFontSize :=
    from_option SizeInt (SizeStr (plot_titleFontSize cfg))
      (titleFontSize a) in
  let axisFontSize :=
    from_option SizeInt (SizeStr (plot_axisFontSize cfg))
      (axisFontSize a) in
  _ ← match title a with
      | Some title =>
          let title := limit_title title (maxTitleLength a) in
          plt (title_ title titleFontSize (plot_titleFontColor cfg)
                 (plot_titleFontWeight cfg))
      | None => mret tt
      end;
  _ ← match xlabel a with
      | Some xlabel => plt (xlabel_ xlabel axisFontSize)
      | None => mret tt
      end;
  _ ← match ylabel a with
      | Some ylabel => plt (ylabel_ ylabel axisFontSize)
      | None => mret tt
      end;
  _ ← when (invertYAxis a) (plt invert_yaxis);
  _ ← when (truthy (xLim a)) (plt (xlim (default [] (xLim a))));
  _ ← when (truthy (yLim a)) (plt (ylim (default [] (yLim a))));
  _ ← match fileout a with
      | Some fileout => plt (savefig fileout)
      | None => mret tt
      end;
  plt close.

(** *** The call with one series taken out of the parallel lists *)

(** The index in the lists of [a] of what [remove_series i a] has at
    index [k]. *)
Definition shift (i k : nat) : nat := if decide (k < i)%nat then k else S k.

Definition remove_series (i : nat) (a : arguments) : arguments :=
  {| xArrays := delete i (xArrays a);
     fieldArrays := delete i (fieldArrays a);
     errArrays := delete i (errArrays a);
     lineColors := delete i <$> lineColors a;
     lineStyles := delete i <$> lineStyles a;
     markers := delete i <$> markers a;
     lineWidths := delete i <$> lineWidths a;
     legendText := delete i <$> legendText a;
     title := title a;
     xlabel := xlabel a;
     ylabel := ylabel a;
     fileout := fileout a;
     figsize := figsize a;
     dpi := dpi a;
     xLim := xLim a;
     yLim := yLim a;
     invertYAxis := invertYAxis a;
     maxTitleLength := maxTitleLength a;
     titleFontSize := titleFontSize a;
     axisFontSize := axisFontSize a;
     defaultFontSize := defaultFontSize a |}.

(** The titles and the labels of the lines of a figure. *)
Definition titles (fig : list command) : list string :=
  omap (fun c => match c with title_ t _ _ _ => Some t | _ => None end) fig.

Definition line_labels (fig : list command) : list (array * option string) :=
  omap (fun c =>
          match c with
          | plot x _ _ _ _ _ label => Some (x, label)
          | _ => None
          end) fig.
(** *** Auxiliary notions used to state what [plot_1D] draws *)

(** A procedure on the figure only appends commands; [appends m Q] says
    that the outcome of [m] and the commands it appends satisfy [Q]. *)
Definition appends {A} (m : py (list command) A)
    (Q : outcome A -> list command -> Prop) : Prop :=
  forall fig, exists cmds, (m fig).2 = fig ++ cmds /\ Q (m fig).1 cmds.

Definition labelled_from (a : arguments) (ks : list nat) (x : array)
    (s : string) : Prop :=
  exists labels k l,
    k ∈ ks /\ legendText a = Some labels /\ labels !! k = Some (Some l)
    /\ xArrays a !! k = Some (Some x)
    /\ s = limit_title l (maxTitleLength a).

Definition loop_post (a : arguments) (ks : list nat) (plotLegend : bool)
    (o : outcome bool) (cmds : list command) : Prop :=
  titles cmds = []
  /\ (forall x s, (x, Some s) ∈ line_labels cmds -> labelled_from a ks x s)
  /\ (forall plotLegend', o = Return plotLegend' ->
        (legendText a = None -> plotLegend' = plotLegend)
        /\ forall x s, labelled_from a ks x s ->
             (x, Some s) ∈ line_labels cmds).

Definition emits (ts : list string) (ls : list (array * option string))
    (o : outcome unit) (c : list command) : Prop :=
  o = Return tt /\ titles c = ts /\ line_labels c = ls.

Definition plot_post (a : arguments) (o : outcome unit)
    (c : list command) : Prop :=
  (forall s, s ∈ titles c ->
     exists t, title a = Some t /\ s = limit_title t (maxTitleLength a))
  /\ (forall x s, (x, Some s) ∈ line_labels c ->
        labelled_from a (seq 0 (length (xArrays a))) x s)
  /\ (o = Return tt ->
        (forall t, title a = Some t ->
           titles c = [limit_title t (maxTitleLength a)])
        /\ forall x s, labelled_from a (seq 0 (length (xArrays a))) x s ->
             (x, Some s) ∈ line_labels c).

End Arrays.

Arguments rc_font {array} size.
Arguments figure {array} figsize dpi.
Arguments plot {array} x y color linestyle marker linewidth label.
Arguments fill_between {array} x y1 y2 facecolor alpha.
Arguments grid {array}.
Arguments axhline {array} y linestyle color.
Arguments legend {array}.
Arguments title_ {array} text size color weight.
Arguments xlabel_ {array} text size.
Arguments ylabel_ {array} text size.
Arguments invert_yaxis {array}.
Arguments xlim {array} lim.
Arguments ylim {array} lim.
Arguments savefig {array} fileout.
Arguments close {array}.
Arguments titles {array} fig.
Arguments line_labels {array} fig.
Arguments remove_series {array} i a.
Arguments xArrays {array} a.
Arguments fieldArrays {array} a.
Arguments errArrays {array} a.
Arguments legendText {array} a.
Arguments title {array} a.
Arguments maxTitleLength {array} a.
Arguments labelled_from {array} a ks x s.
Arguments loop_post {array} a ks plotLegend o cmds.
Arguments emits {array} ts ls o c.
Arguments plot_post {array} a o c.

(** *** What the call draws, series by series *)

Section Drawn.
Variable array : Type.
Variable add sub : array -> array -> array.

(** [l !! k] for an optional list, with a default when the list is
    [None]. *)
Definition lookup_or {A} (l : option (list A)) (k : nat) (d : A)
    : option A :=
  match l with
  | None => Some d
  | Some l => l !! k
  end.

(** What the series of index [k] adds to the figure: nothing without
    data, else its line and, with an error array, the band around it;
    [None] when one of the lists has no index [k]. *)
Definition series_commands (a : arguments array) (k : nat)
    : option (list (command array)) :=
  xArray ← xArrays a !! k;
  fieldArray ← fieldArrays a !! k;
  errArray ← errArrays a !! k;
  match xArray with
  | None => Some []
  | Some xArray =>
      label ← match legendText a with
              | None => Some None
              | Some legendText =>
                  fmap (fun label => limit_title label (maxTitleLength a))
                    <$> legendText !! k
              end;
      color ← lookup_or (lineColors array a) k "k";
      marker ← lookup_or (markers array a) k None;
      linestyle ← lookup_or (lineStyles array a) k "-";
      linewidth ← lookup_or (lineWidths array a) k 1%Q;
      Some (plot xArray fieldArray color linestyle marker linewidth label
            :: match errArray with
               | Some errArray =>
                   [fill_between xArray fieldArray
                      (add fieldArray errArray) color (1 # 5);
                    fill_between xArray fieldArray
                      (sub fieldArray errArray) color (1 # 5)]
               | None => []
               end)
  end.

(** Whether the series of index [k] has data, and the variable
    [plotLegend] once the series is through. *)
Definition has_data (a : arguments array) (k : nat) : bool :=
  match xArrays a !! k with
  | Some (Some _) => true
  | _ => false
  end.

Definition legend_after (a : arguments array) (k : nat) (plotLegend : bool)
    : bool :=
  if has_data a k
  then match legendText a with
       | Some _ => true
       | None => plotLegend
       end
  else plotLegend.

(** The commands that draw data: lines and error bands. *)
Definition drawing (c : command array) : bool :=
  match c with
  | plot _ _ _ _ _ _ _ | fill_between _ _ _ _ _ => true
  | _ => false
  end.

(** What [plot_1D] adds to the figure after the loop. *)
Definition decorations (cfg : config) (a : arguments array)
    (plotLegend : bool) : list (command array) :=
  [grid; axhline 0 "-" "k"]
  ++ (if plotLegend && bool_decide (1 < length (xArrays a))%nat
      then [legend] else [])
  ++ match title a with
     | Some title =>
         [title_ (limit_title title (maxTitleLength a))
            (from_option SizeInt (SizeStr (plot_titleFontSize cfg))
               (titleFontSize array a))
            (plot_titleFontColor cfg) (plot_titleFontWeight cfg)]
     | None => []
     end
  ++ match xlabel array a with
     | Some xlabel =>
         [xlabel_ xlabel
            (from_option SizeInt (SizeStr (plot_axisFontSize cfg))
               (axisFontSize array a))]
     | None => []
     end
  ++ match ylabel array a with
     | Some ylabel =>
         [ylabel_ ylabel
            (from_option SizeInt (SizeStr (plot_axisFontSize cfg))
               (axisFontSize array a))]
     | None => []
     end
  ++ (if invertYAxis array a then [invert_yaxis] else [])
  ++ (if truthy (xLim array a) then [xlim (default [] (xLim array a))]
      else [])
  ++ (if truthy (yLim array a) then [ylim (default [] (yLim array a))]
      else [])
  ++ match fileout array a with
     | Some fileout => [savefig fileout]
     | None => []
     end
  ++ [close].

End Drawn.

(** *** Sample inputs, with arrays of integers *)

Definition sample_config : config :=
  {| plot_defaultFontSize := 10;
     plot_dpi := 200;
     plot_titleFontSize := "16";
     plot_axisFontSize := "12";
     plot_titleFontColor := "black";
     plot_titleFontWeight := "normal" |}.

Definition zadd (a b : list Z) : list Z := zip_with Z.add a b.
Definition zsub (a b : list Z) : list Z := zip_with Z.sub a b.

(** Two series, the second without data, both with legend text. *)
Definition sample_arguments : arguments (list Z) :=
  {| xArrays := [Some [0; 1; 2]; None];
     fieldArrays := [[5; 6; 7]; []];
     errArrays := [Some [1; 1; 1]; None];
     lineColors := Some ["r"; "b"];
     lineStyles := None;
     markers := None;
     lineWidths := Some [2%Q; 1%Q];
     legendText := Some [Some "model"; Some "observations"];
     title := Some "Meridional heat transport";
     xlabel := Some "latitude";
     ylabel := None;
     fileout := Some "plot_1D.png";
     figsize := (10%Q, 4%Q);
     dpi := None;
     xLim := None;
     yLim := None;
     invertYAxis := false;
     maxTitleLength := 10;
     titleFontSize := None;
     axisFontSize := None;
     defaultFontSize := None |}.

(** Three series, the second without data, all with legend text. *)
Definition three_series : arguments (list Z) :=
  {| xArrays := [Some [0; 1; 2]; None; Some [0; 1; 2]];
     fieldArrays := [[5; 6; 7]; []; [1; 2; 3]];
     errArrays := [Some [1; 1; 1]; None; None];
     lineColors := Some ["r"; "b"; "k"];
     lineStyles := None;
     markers := None;
     lineWidths := None;
     legendText := Some [Some "model"; Some "observations"; None];
     title := Some "Meridional heat transport";
     xlabel := Some "latitude";
     ylabel := Some "PW";
     fileout := Some "plot_1D.png";
     figsize := (10%Q, 4%Q);
     dpi := Some 100;
     xLim := Some [(-90)%Q; 90%Q];
     yLim := None;
     invertYAxis := true;
     maxTitleLength := 80;
     titleFontSize := Some 16;
     axisFontSize := None;
     defaultFontSize := None |}.

End Oned.
(** * Properties *)

(** ** Running procedures *)

Lemma run_bind {S A B} (m : py S A) (f : A -> py S B) (s : S) :
  (m ≫= f) s =
  match m s with
  | (Return a, s') => f a s'
  | (Raise e, s') => (Raise e, s')
  end.
Proof. reflexivity. Qed.

Lemma run_ret {S A} (a : A) (s : S) : (mret a : py S A) s = (Return a, s).
Proof. reflexivity. Qed.

Lemma for_in_pure {S A} (step : A -> S -> S) (body : A -> py S unit)
    (l : list A) :
  (forall x s, body x s = (Return tt, step x s)) ->
  forall s, for_in l body s = (Return tt, foldl (fun s x => step x s) s l).
Proof.
  intros Hbody. induction l as [|x l IH]; intros s; simpl.
  - reflexivity.
  - rewrite run_bind, Hbody. apply IH.
Qed.

Lemma for_in_skip {S A} (body : A -> py S unit) (l : list A) (s : S) :
  Forall (fun x => body x s = (Return tt, s)) l ->
  for_in l body s = (Return tt, s).
Proof.
  induction 1 as [|x l Hx _ IH]; simpl; [reflexivity|].
  rewrite run_bind, Hx. exact IH.
Qed.

(** ** The analysis task *)

Section MLDProps.
Import ClimatologyMapMLD.

Lemma push_all_nil s : push_all [] s = s.
Proof.
  destruct s as [[[]|] al]; unfold push_all; simpl;
    rewrite ?app_nil_r; reflexivity.
Qed.

Lemma push_all_snoc ps p s : push p (push_all ps s) = push_all (ps ++ [p]) s.
Proof.
  destruct s as [[[]|] al]; unfold push, push_all; simpl;
    rewrite fmap_app, ?app_assoc; reflexivity.
Qed.

Lemma push_all_app ps qs s :
  push_all qs (push_all ps s) = push_all (ps ++ qs) s.
Proof.
  destruct s as [[[]|] al]; unfold push_all; simpl;
    rewrite fmap_app, ?app_assoc; reflexivity.
Qed.

Lemma foldl_push {A} (mk : A -> PlotClimatologyMapSubtask) (l : list A) :
  forall s, foldl (fun s x => push (mk x) s) s l = push_all (mk <$> l) s.
Proof.
  induction l as [|x l IH] using rev_ind; intros s.
  - simpl. symmetry. apply push_all_nil.
  - rewrite foldl_app. simpl. rewrite IH, push_all_snoc, fmap_app.
    reflexivity.
Qed.

Lemma foldl_push_all {A} (mk : A -> list PlotClimatologyMapSubtask)
    (l : list A) :
  forall s, foldl (fun s x => push_all (mk x) s) s l
            = push_all (l ≫= mk) s.
Proof.
  induction l as [|x l IH]; intros s; simpl.
  - symmetry. apply push_all_nil.
  - rewrite IH, push_all_app. reflexivity.
Qed.

Lemma loops_run remap c grids seasons s :
  for_in grids (fun comparisonGridName =>
    for_in seasons (fun season =>
      subtask ← new Plot (make_plot remap c comparisonGridName season);
      add_subtask (Plot subtask))) s
  = (Return tt, push_all (plots_of remap c grids seasons) s).
Proof.
  unfold plots_of.
  rewrite (for_in_pure
             (fun g s => push_all (make_plot remap c g <$> seasons) s)).
  - rewrite foldl_push_all. reflexivity.
  - intros g s'.
    rewrite (for_in_pure (fun x s => push (make_plot remap c g x) s)).
    + rewrite foldl_push. reflexivity.
    + intros x [sf al]. reflexivity.
Qed.

Lemma plots_of_length remap c grids seasons :
  length (plots_of remap c grids seasons)
  = (length grids * length seasons)%nat.
Proof.
  unfold plots_of. induction grids as [|g grids IH]; csimpl.
  - reflexivity.
  - rewrite length_app, length_fmap, IH. reflexivity.
Qed.

Lemma plots_of_pairs remap c grids seasons :
  (fun p => (pl_comparisonGridName p, pl_season p))
    <$> plots_of remap c grids seasons
  = list_prod grids seasons.
Proof.
  unfold plots_of. induction grids as [|g grids IH]; csimpl.
  - reflexivity.
  - rewrite fmap_app, IH. f_equal.
    rewrite <- list_fmap_compose. reflexivity.
Qed.

Lemma omap_as_plot_Plot (ps : list PlotClimatologyMapSubtask) :
  omap as_plot (Plot <$> ps) = ps.
Proof.
  induction ps as [|p ps IH]; csimpl; [reflexivity|].
  rewrite IH. reflexivity.
Qed.

Lemma filter_is_plot_Plot (ps : list PlotClimatologyMapSubtask) :
  filter is_plot (Plot <$> ps) = Plot <$> ps.
Proof.
  induction ps as [|p ps IH]; csimpl; [reflexivity|].
  rewrite filter_cons_True by exact I. rewrite IH. reflexivity.
Qed.

Variable bcfp : MpasAnalysisConfigParser -> string -> string -> string.

(** A configuration is valid for the task when both lists are present
    and non-empty and, with a reference run, the name of that run can
    be read. *)
Lemma init_run cfg task ref seasons grids s0 :
  expr_options cfg !! (sectionName, "seasons") = Some seasons ->
  expr_options cfg !! (sectionName, "comparisonGrids") = Some grids ->
  seasons <> [] -> grids <> [] ->
  (forall r, ref = Some r ->
     is_Some (str_options (mct_config r) !! ("runs", "mainRunName"))) ->
  exists remap c other registered,
    __init__ bcfp cfg task ref s0
    = (Return tt,
       {| self := Some
            {| config := cfg; taskName := "climatologyMapMLD";
               componentName := "ocean";
               tags := ["climatology"; "horizontalMap"; "mld"];
               subtasks :=
                 registered ++ (Plot <$> plots_of remap c grids seasons) |};
          allocated :=
            allocated s0 ++ RemapMpas remap :: other
              :: (Plot <$> plots_of remap c grids seasons) |})
    /\ rm_mpasClimatologyTask remap = task
    /\ match ref with
       | None =>
           exists obs, other = RemapObs obs /\ registered = [RemapObs obs]
             /\ remapObservationsSubtask c = Some obs
             /\ remapRefClimatologySubtask c = None
       | Some r =>
           exists rr, other = RemapRef rr /\ registered = []
             /\ rr_mpasClimatologyTask rr = r
             /\ remapObservationsSubtask c = None
             /\ remapRefClimatologySubtask c = Some rr
       end.
Proof.
  intros Hs Hg Hsne Hgne Href.
  unfold __init__, getExpression.
  rewrite run_bind. simpl. rewrite Hs.
  rewrite run_bind, run_ret, run_bind.
  destruct (decide (length seasons = 0%nat)) as [E|_];
    [apply length_zero_iff_nil in E; done|].
  rewrite run_ret, run_bind, Hg, run_ret, run_bind.
  destruct (decide (length grids = 0%nat)) as [E|_];
    [apply length_zero_iff_nil in E; done|].
  rewrite run_ret, run_bind. simpl.
  rewrite run_bind.
  destruct ref as [r|]; simpl.
  - destruct (Href r eq_refl) as [name Hname].
    unfold config_get. rewrite Hname. simpl.
    rewrite loops_run.
    eexists _, _, (RemapRef _), []. split.
    { unfold push_all. simpl. rewrite <- !app_assoc. reflexivity. }
    split; [reflexivity|]. eexists. repeat split; reflexivity.
  - rewrite loops_run.
    eexists _, _, (RemapObs _), [_]. split.
    { unfold push_all. simpl. rewrite <- !app_assoc. reflexivity. }
    split; [reflexivity|]. eexists. repeat split; reflexivity.
Qed.

Lemma plots_of_wiring remap c grids seasons :
  Forall (fun p =>
            pl_remapMpasClimatologySubtask p = remap
            /\ pl_remapObsClimatologySubtask p = remapObservationsSubtask c
            /\ pl_refClimatologySubtask p = remapRefClimatologySubtask c)
         (plots_of remap c grids seasons).
Proof.
  unfold plots_of. apply Forall_bind, Forall_forall. intros g _.
  apply Forall_fmap, Forall_forall. intros season _. simpl. auto.
Qed.

(** C1, as amended.  When [seasons] resolves to an empty list, or
    [seasons] resolves to a list and [comparisonGrids] resolves to an
    empty list, constructing the task raises a [ValueError]; no subtask
    object has been allocated by then and the task owns no subtask. *)
Theorem C1_empty_list_raises_ValueError cfg task ref s0 :
  expr_options cfg !! (sectionName, "seasons") = Some []
  \/ (exists seasons,
        expr_options cfg !! (sectionName, "seasons") = Some seasons
        /\ expr_options cfg !! (sectionName, "comparisonGrids") = Some []) ->
  exists msg s,
    __init__ bcfp cfg task ref s0 = (Raise (ValueError msg), s)
    /\ allocated s = allocated s0
    /\ subtasks <$> self s = Some [].
Proof.
  intros [Hs | (seasons & Hs & Hg)];
    unfold __init__, getExpression;
    rewrite run_bind; simpl; rewrite Hs, run_bind, run_ret, run_bind.
  - simpl. eexists _, _. repeat split.
  - destruct (decide (length seasons = 0%nat)) as [E|E].
    + eexists _, _. repeat split.
    + rewrite run_ret, run_bind, Hg, run_ret, run_bind. simpl.
      eexists _, _. repeat split.
Qed.

(** C2.  With N comparison grids and M seasons, both lists non-empty,
    construction succeeds and the task owns exactly N * M plot
    subtasks, one for each pair of the cross product of grids and
    seasons, in that order. *)
Theorem C2_one_plot_subtask_per_grid_and_season
    cfg task ref seasons grids s0 :
  expr_options cfg !! (sectionName, "seasons") = Some seasons ->
  expr_options cfg !! (sectionName, "comparisonGrids") = Some grids ->
  seasons <> [] -> grids <> [] ->
  (forall r, ref = Some r ->
     is_Some (str_options (mct_config r) !! ("runs", "mainRunName"))) ->
  exists s self_,
    __init__ bcfp cfg task ref s0 = (Return tt, s)
    /\ self s = Some self_
    /\ length (filter is_plot (subtasks self_))
       = (length grids * length seasons)%nat
    /\ (fun p => (pl_comparisonGridName p, pl_season p))
         <$> omap as_plot (subtasks self_)
       = list_prod grids seasons.
Proof.
  intros Hs Hg Hsne Hgne Href.
  destruct (init_run cfg task ref seasons grids s0 Hs Hg Hsne Hgne Href)
    as (remap & c & other & registered & Hrun & _ & Hmode).
  eexists _, _. split; [exact Hrun|]. split; [reflexivity|]. simpl.
  assert (Hreg : omap as_plot registered = []
                 /\ filter is_plot registered = []).
  { destruct ref; destruct Hmode as (? & _ & -> & _); split; reflexivity. }
  destruct Hreg as [Hreg1 Hreg2]. split.
  - rewrite filter_app, Hreg2. simpl.
    rewrite filter_is_plot_Plot, length_fmap. apply plots_of_length.
  - rewrite omap_app, Hreg1. simpl.
    rewrite omap_as_plot_Plot. apply plots_of_pairs.
Qed.

(** C3.  Every construction that goes through allocates the remap
    subtask of the primary run first and then exactly one comparison
    remap subtask, all later allocations being plot subtasks: without a
    reference task it is the observation remap subtask, and every plot
    subtask holds it and [None] for the reference; with a reference
    task it is the reference remap subtask, and every plot subtask
    holds it and [None] for the observations. *)
Theorem C3_one_comparison_remap_subtask
    cfg task ref seasons grids s0 :
  expr_options cfg !! (sectionName, "seasons") = Some seasons ->
  expr_options cfg !! (sectionName, "comparisonGrids") = Some grids ->
  seasons <> [] -> grids <> [] ->
  (forall r, ref = Some r ->
     is_Some (str_options (mct_config r) !! ("runs", "mainRunName"))) ->
  exists s remap (plots : list PlotClimatologyMapSubtask),
    __init__ bcfp cfg task ref s0 = (Return tt, s)
    /\ rm_mpasClimatologyTask remap = task
    /\ match ref with
       | None =>
           exists obs,
             allocated s
             = allocated s0 ++
                 RemapMpas remap :: RemapObs obs :: (Plot <$> plots)
             /\ Forall (fun p =>
                   pl_remapMpasClimatologySubtask p = remap
                   /\ pl_remapObsClimatologySubtask p = Some obs
                   /\ pl_refClimatologySubtask p = None) plots
       | Some r =>
           exists rr,
             allocated s
             = allocated s0 ++
                 RemapMpas remap :: RemapRef rr :: (Plot <$> plots)
             /\ rr_mpasClimatologyTask rr = r
             /\ Forall (fun p =>
                   pl_remapMpasClimatologySubtask p = remap
                   /\ pl_remapObsClimatologySubtask p = None
                   /\ pl_refClimatologySubtask p = Some rr) plots
       end.
Proof.
  intros Hs Hg Hsne Hgne Href.
  destruct (init_run cfg task ref seasons grids s0 Hs Hg Hsne Hgne Href)
    as (remap & c & other & registered & Hrun & Htask & Hmode).
  eexists _, remap, (plots_of remap c grids seasons).
  split; [exact Hrun|]. split; [exact Htask|].
  pose proof (plots_of_wiring remap c grids seasons) as Hw.
  destruct ref as [r|].
  - destruct Hmode as (rr & -> & -> & Hr & Ho & Hrr).
    exists rr. split; [reflexivity|]. split; [exact Hr|].
    rewrite Ho, Hrr in Hw. exact Hw.
  - destruct Hmode as (obs & -> & -> & Ho & Hrr).
    exists obs. split; [reflexivity|].
    rewrite Ho, Hrr in Hw. exact Hw.
Qed.

End MLDProps.

Section MLDExamples.
Import ClimatologyMapMLD.

(** The claim as first stated asks for an exception of class
    [ConfigurationError]; with an empty list of seasons the constructor
    raises none of that class. *)
Lemma C1_counterexample :
  expr_options no_seasons_config !! (sectionName, "seasons") = Some []
  /\ ~ exists msg s,
        __init__ sample_path no_seasons_config sample_task None initial
        = (Raise (Exn "ConfigurationError" msg), s).
Proof.
  split; [reflexivity|].
  intros (msg & s & H). vm_compute in H. discriminate H.
Qed.

Lemma C1_witness :
  exists msg s,
    __init__ sample_path no_seasons_config sample_task None initial
    = (Raise (ValueError msg), s)
    /\ allocated s = allocated initial
    /\ subtasks <$> self s = Some [].
Proof.
  apply (C1_empty_list_raises_ValueError sample_path no_seasons_config
           sample_task None initial).
  left. reflexivity.
Defined.

Lemma C2_witness :
  exists s self_,
    __init__ sample_path sample_config sample_task (Some sample_task)
      initial = (Return tt, s)
    /\ self s = Some self_
    /\ length (filter is_plot (subtasks self_))
       = (length ["latlon"; "antarctic"]
          * length ["JFM"; "JAS"; "ANN"])%nat
    /\ (fun p => (pl_comparisonGridName p, pl_season p))
         <$> omap as_plot (subtasks self_)
       = list_prod ["latlon"; "antarctic"] ["JFM"; "JAS"; "ANN"].
Proof.
  apply (C2_one_plot_subtask_per_grid_and_season sample_path
           sample_config sample_task (Some sample_task)).
  - reflexivity.
  - reflexivity.
  - discriminate.
  - discriminate.
  - intros r [= <-]. eexists. reflexivity.
Defined.

Lemma C3_witness :
  exists s remap (plots : list PlotClimatologyMapSubtask),
    __init__ sample_path sample_config sample_task None initial
    = (Return tt, s)
    /\ rm_mpasClimatologyTask remap = sample_task
    /\ exists obs,
         allocated s
         = allocated initial ++
             RemapMpas remap :: RemapObs obs :: (Plot <$> plots)
         /\ Forall (fun p =>
               pl_remapMpasClimatologySubtask p = remap
               /\ pl_remapObsClimatologySubtask p = Some obs
               /\ pl_refClimatologySubtask p = None) plots.
Proof.
  apply (C3_one_comparison_remap_subtask sample_path sample_config
           sample_task None ["JFM"; "JAS"; "ANN"] ["latlon"; "antarctic"]
           initial).
  - reflexivity.
  - reflexivity.
  - discriminate.
  - discriminate.
  - intros r [=].
Defined.
End MLDExamples.
(** ** The observational data set *)

Section ObsProps.
Import ObservedMLD.
Variable F : Type.
Variable fadd1 : F -> F.
Variable ftrunc : F -> Z.

Abbreviation Dataset := (Dataset F).
Abbreviation DataArray := (DataArray F).

Lemma assoc_set_fresh {V} (k : string) (v : V) (l : list (string * V)) :
  k ∉ names l -> assoc_set k v l = l ++ [(k, v)].
Proof.
  unfold names. induction l as [|[k' v'] l IH]; simpl; intros Hk.
  - reflexivity.
  - apply not_elem_of_cons in Hk as [Hne Hk].
    rewrite decide_False by exact Hne.
    rewrite IH by exact Hk. reflexivity.
Qed.

Lemma names_rename_var (d : list (string * string))
    (l : list (string * DataArray)) :
  Forall (fun k => k ∉ names d) (names l) ->
  names (rename_var F d <$> l) = names l.
Proof.
  unfold names. induction l as [|[k v] l IH]; intros H; csimpl.
  - reflexivity.
  - rewrite fmap_cons in H. apply Forall_cons in H as [Hk H].
    rewrite IH by exact H. f_equal. 
    unfold renamed. simpl in Hk.
    assert (assoc k d = None) as ->; [|reflexivity].
    clear -Hk. induction d as [|[k' v'] d IH]; simpl; [reflexivity|].
    apply not_elem_of_cons in Hk as [Hne Hk].
    rewrite decide_False by exact Hne. apply IH, Hk.
Qed.

Lemma names_rename_var' (d : list (string * string))
    (l : list (string * DataArray)) :
  Forall (fun k => k ∉ names d) (names l) ->
  names (list_fmap _ _ (rename_var F d) l) = names l.
Proof. apply names_rename_var. Qed.

Lemma filter_none {V} (P : string * V -> Prop)
    `{forall kv, Decision (P kv)} (l : list (string * V)) :
  (forall kv, kv.1 ∈ names l -> ~ P kv) ->
  filter P l = [].
Proof.
  unfold names. induction l as [|kv l IH]; intros Hl; [reflexivity|].
  rewrite filter_cons_False.
  - apply IH. intros kv' Hin. apply Hl. simpl.
    apply list_elem_of_further, Hin.
  - apply Hl. simpl. apply list_elem_of_here.
Qed.

Lemma fresh_others (others : list (string * DataArray)) k :
  Forall (fun k => k ∉ reserved) (names others) ->
  k ∈ reserved -> k ∉ names others.
Proof.
  intros H Hk Hin. rewrite Forall_forall in H. exact (H k Hin Hk).
Qed.

Lemma values_iadd1_run name ds v :
  assoc name (variables ds) = Some v ->
  values_iadd1 F fadd1 name ds
  = (Return tt,
     {| variables :=
          assoc_set name
            {| dims := dims v; values := iadd1 F fadd1 (values v) |}
            (variables ds);
        coord_names := coord_names ds;
        ds_dims := ds_dims ds |}).
Proof.
  intros H. unfold values_iadd1. rewrite run_bind. simpl. rewrite H.
  reflexivity.
Qed.

Lemma rename_run d ds :
  Forall (fun kv =>
            (kv.1 ∈ names (variables ds) \/ kv.1 ∈ names (ds_dims ds))
            /\ (kv.2 ∉ names (variables ds) \/ kv.1 = kv.2)) d ->
  rename F d ds
  = (Return tt,
     {| variables := rename_var F d <$> variables ds;
        coord_names := renamed d <$> coord_names ds;
        ds_dims := (fun '(k, n) => (renamed d k, n)) <$> ds_dims ds |}).
Proof.
  intros H. unfold rename. rewrite run_bind. simpl.
  rewrite run_bind, for_in_skip; [reflexivity|].
  eapply Forall_impl; [exact H|]. intros [k v] [Hk Hv]. simpl in *.
  rewrite decide_False by (intros [? ?]; destruct Hk; done).
  rewrite decide_False by (intros [? ?]; destruct Hv; done).
  reflexivity.
Qed.

Lemma getitem_run name (ds : Dataset) v :
  assoc name (variables ds) = Some v ->
  getitem F name ds = (Return v, ds).
Proof.
  intros H. unfold getitem. rewrite run_bind. simpl. rewrite H.
  reflexivity.
Qed.

Lemma dim_size_run name (ds : Dataset) n :
  assoc name (ds_dims ds) = Some n ->
  dim_size F name ds = (Return n, ds).
Proof.
  intros H. unfold dim_size. rewrite run_bind. simpl. rewrite H.
  reflexivity.
Qed.

Ltac others_unreserved :=
  rewrite ?names_rename_var, ?names_rename_var' by others_unreserved;
  match goal with
  | H : Forall _ (names ?l) |- Forall _ (names ?l) =>
      eapply Forall_impl; [exact H|];
      let k := fresh "k" in
      let Hk := fresh "Hk" in
      let Hin := fresh "Hin" in
      intros k Hk Hin; apply Hk; clear Hk;
      unfold names in Hin; simpl in Hin;
      repeat (apply elem_of_cons in Hin as [->|Hin];
              [unfold reserved; repeat constructor|]);
      inversion Hin
  end.

Ltac not_listed :=
  let H := fresh "H" in
  intros [H|H];
  repeat (apply elem_of_cons in H as [H|H]; [discriminate|]);
  inversion H.

Ltac fresh_name :=
  repeat (apply not_elem_of_cons; split; [discriminate|]);
  try apply not_elem_of_nil;
  try (change (list_fmap _ _ fst ?l) with (names l);
       rewrite ?names_rename_var, ?names_rename_var' by others_unreserved;
       match goal with
       | H : forall k, k ∈ reserved -> _ |- _ ∉ names _ =>
           apply H; unfold reserved; repeat constructor
       end).

Lemma set_coord_run name v (ds : Dataset) :
  set_coord F name v ds
  = (Return tt,
     {| variables := assoc_set name v (variables ds);
        coord_names :=
          if decide (name ∈ coord_names ds) then coord_names ds
          else coord_names ds ++ [name];
        ds_dims := ds_dims ds |}).
Proof. reflexivity. Qed.

Lemma build_raw_file fs fileName month lat lon mld iMONTH iLAT iLON others :
  fs !! fileName = Some (raw_file F month lat lon mld iMONTH iLAT iLON others) ->
  Forall (fun k => k ∉ reserved) (names others) ->
  build_observational_dataset F fadd1 ftrunc fs fileName
  = Return (normalized F ftrunc month lat lon mld).
Proof.
  intros Hfs Hothers.
  assert (Hfresh : forall k, k ∈ reserved -> k ∉ names others)
    by (intros k; apply fresh_others, Hothers).
  unfold build_observational_dataset. rewrite Hfs.
  rewrite run_bind. erewrite values_iadd1_run by reflexivity.
  rewrite run_bind, rename_run.
  2:{ repeat constructor; simpl; fresh_name. }
  rewrite run_bind, rename_run.
  2:{ repeat constructor; simpl; fresh_name. }
  simpl.
  set (tail := list_fmap _ _ (rename_var F _) (list_fmap _ _ _ others)).
  assert (Htail : forall k, k ∈ reserved -> k ∉ names tail).
  { intros k Hk. unfold tail.
    rewrite !names_rename_var' by others_unreserved. apply Hfresh, Hk. }
  clearbody tail. clear Hfs Hothers Hfresh others.
  unfold rename_var, renamed. simpl.
  rewrite run_bind. erewrite getitem_run by reflexivity.
  rewrite run_bind, set_coord_run. simpl.
  rewrite run_bind. erewrite getitem_run by reflexivity.
  rewrite run_bind, set_coord_run. simpl.
  rewrite run_bind. erewrite getitem_run by reflexivity.
  rewrite run_bind, set_coord_run. simpl.
  rewrite run_bind. erewrite getitem_run by reflexivity.
  rewrite run_bind, set_coord_run. simpl.
  rewrite assoc_set_fresh by (apply Htail; unfold reserved; repeat constructor).
  rewrite run_bind. erewrite dim_size_run by reflexivity.
  rewrite run_bind, set_coord_run. simpl.
  assert (Hnames : forall (l : list (string * DataArray)),
            names (tail ++ l) = names tail ++ names l)
    by (intros l; unfold names; apply fmap_app).
  rewrite assoc_set_fresh.
  2:{ rewrite Hnames. apply not_elem_of_app. split.
      - apply Htail. unfold reserved. repeat constructor.
      - unfold names. simpl. fresh_name. }
  rewrite <- app_assoc. simpl.
  rewrite run_bind. simpl. unfold subset_variables. simpl.
  rewrite filter_cons_False.
  2:{ intros H. apply H. repeat constructor. }
  rewrite filter_cons_False.
  2:{ intros H. apply H. unfold names. simpl.
      do 7 apply list_elem_of_further. rewrite fmap_app.
      apply elem_of_app. right. repeat constructor. }
  rewrite filter_nil. simpl.
  unfold normalized. do 2 f_equal.
  do 3 (rewrite filter_cons_True by (simpl; right; repeat constructor)).
  do 3 (rewrite filter_cons_False by (simpl; not_listed)).
  rewrite filter_cons_True by (simpl; left; repeat constructor).
  rewrite filter_app.
  match goal with
  | |- _ :: _ :: _ :: _ :: filter ?P tail ++ _ = _ =>
      assert (filter P tail = []) as ->
  end.
  { apply filter_none. intros [k v] Hk H. simpl in *.
    apply (Htail k); [|exact Hk]. clear Hk.
    destruct H as [H|H];
      repeat (apply elem_of_cons in H as [->|H];
              [unfold reserved; repeat constructor|]);
      inversion H. }
  simpl.
  do 2 (rewrite filter_cons_True by (simpl; right; repeat constructor)).
  reflexivity.
Qed.

Lemma size_astype_int (a : ndarray F) :
  size (astype_int F ftrunc a) = size a.
Proof. destruct a; simpl; [reflexivity|]. apply length_fmap. Qed.

End ObsProps.

Section ObsExamples.
Import ObservedMLD.


End ObsExamples.
(** ** Thumbnails and provenance *)

Section ImageProps.
Import ImageXml.

#[local] Instance int_comp : Proper (Qeq ==> eq) int.
Proof.
  intros x y Hxy. unfold int.
  rewrite (Qleb_comp 0%Q 0%Q (Qeq_refl 0%Q) x y Hxy), (Qfloor_comp x y Hxy),
    (Qceiling_comp x y Hxy).
  reflexivity.
Qed.

Lemma int_fraction n d : 0 <= n -> 0 < d -> int (inject_Z n / inject_Z d) = n / d.
Proof.
  intros Hn Hd. destruct d as [|p|p]; try lia.
  change (inject_Z n / inject_Z (Z.pos p))%Q with (n * 1 # p)%Q.
  unfold int, Qle_bool, Qfloor. cbn [Qnum Qden]. rewrite !Z.mul_1_r.
  change (0 * Z.pos p) with 0.
  destruct (0 <=? n) eqn:E; [reflexivity|]. apply Z.leb_gt in E. lia.
Qed.

Lemma int_rounded w a c :
  0 <= w -> 0 < a -> 0 < c ->
  int (float w / (float a / float c) + (1 # 2)) = rounded w a c.
Proof.
  intros Hw Ha Hc. unfold rounded, float.
  rewrite <- int_fraction by nia.
  apply int_comp.
  rewrite inject_Z_plus, !inject_Z_mult.
  assert (~ inject_Z a == 0)%Q by (intros E; apply (inject_Z_injective a 0) in E; lia).
  assert (~ inject_Z c == 0)%Q by (intros E; apply (inject_Z_injective c 0) in E; lia).
  change (inject_Z 2) with (2 # 1)%Q.
  field. auto.
Qed.

Lemma fdiv_run {S} a b (s : S) :
  ~ (b == 0)%Q -> fdiv a b s = (Return (a / b)%Q, s).
Proof.
  intros Hb. unfold fdiv. destruct (Qeq_bool b 0) eqn:E.
  - apply Qeq_bool_iff in E. contradiction.
  - reflexivity.
Qed.

Lemma fraction_nonzero a c : 0 < a -> 0 < c -> ~ (float a / float c == 0)%Q.
Proof.
  intros Ha Hc E. unfold float in E.
  destruct a as [|p|p]; try lia. destruct c as [|q|q]; try lia.
  unfold Qeq in E. simpl in E. lia.
Qed.

Lemma scaled_run {S} w h a c (s : S) :
  0 <= w -> 0 <= h -> 0 < a -> 0 < c ->
  scaled (w, h) (float a / float c)%Q s
  = (Return (rounded w a c, rounded h a c), s).
Proof.
  intros Hw Hh Ha Hc. unfold scaled. simpl.
  rewrite run_bind, fdiv_run by (apply fraction_nonzero; assumption).
  rewrite run_bind, fdiv_run by (apply fraction_nonzero; assumption).
  rewrite run_ret, !int_rounded by assumption. reflexivity.
Qed.

Lemma rounded_same a c : 0 < a -> rounded a a c = c.
Proof.
  intros Ha. unfold rounded. symmetry.
  apply (Z.div_unique _ _ c a); lia.
Qed.

Lemma Qle_bool_fraction w h :
  Qle_bool (float w / float fixedWidth) (float h / float fixedHeight)
  = (w * 360 <=? h * 480).
Proof.
  unfold Qle_bool, float, fixedWidth, fixedHeight. simpl.
  rewrite !Z.mul_1_r. reflexivity.
Qed.

Lemma split_dir_join (dir name : string) :
  split_dir name = None -> split_dir (dir +:+ "/" +:+ name) = Some dir.
Proof.
  intros Hname. induction dir as [|c dir IH]; simpl.
  - change ("" +:+ name) with name. rewrite Hname. reflexivity.
  - rewrite IH. reflexivity.
Qed.

Lemma dirname_join (dir name : string) :
  split_dir name = None -> dirname (dir +:+ "/" +:+ name) = dir.
Proof. intros H. unfold dirname. rewrite split_dir_join by exact H. reflexivity. Qed.

Lemma split_dir_app (a b : string) :
  split_dir a = None -> split_dir b = None -> split_dir (a +:+ b) = None.
Proof.
  intros Ha Hb. induction a as [|c a IH]; simpl in *; [exact Hb|].
  destruct (split_dir a) eqn:E; [discriminate|].
  rewrite IH by reflexivity. exact Ha.
Qed.

Lemma length_append (a b : string) :
  String.length (a +:+ b) = (String.length a + String.length b)%nat.
Proof. induction a as [|c a IH]; simpl; [reflexivity|]. rewrite IH. reflexivity. Qed.

Lemma write_file_run path f fs :
  dirname path ∈ dirs fs ->
  write_file path f fs
  = (Return tt, {| dirs := dirs fs; files := <[path := f]> (files fs) |}).
Proof.
  intros H. unfold write_file. rewrite run_bind. simpl.
  rewrite decide_True by exact H. reflexivity.
Qed.

Lemma Image_open_run path image fs :
  files fs !! path = Some (ImageFile image) ->
  Image_open path fs = (Return image, fs).
Proof.
  intros H. unfold Image_open. rewrite run_bind. simpl. rewrite H.
  reflexivity.
Qed.

Lemma resize_run {S} image w h (s : S) :
  1 <= w -> 1 <= h -> resize image (w, h) s = (Return (Resized image w h), s).
Proof.
  intros Hw Hh. unfold resize. simpl.
  rewrite decide_False by lia. reflexivity.
Qed.

Lemma rounded_ge w a c m :
  0 < a -> (2 * m - 1) * a <= 2 * w * c -> m <= rounded w a c.
Proof.
  intros Ha H. unfold rounded. apply Z.div_le_lower_bound; lia.
Qed.

Lemma rescale_run {S A} image w h a c (k : Image -> py S A) (s : S) :
  0 < w -> 0 < h -> 0 < a -> 0 < c ->
  a <= 2 * w * c -> a <= 2 * h * c ->
  (scaled (w, h) (float a / float c)%Q
   ≫= λ size_, resize image size_ ≫= k) s
  = k (Resized image (rounded w a c) (rounded h a c)) s.
Proof.
  intros Hw Hh Ha Hc Hwa Hha.
  rewrite run_bind, scaled_run by lia.
  rewrite run_bind, resize_run; [reflexivity| |]; apply rounded_ge; lia.
Qed.

Lemma float_nonzero c : 0 < c -> ~ (float c == 0)%Q.
Proof.
  intros Hc E. apply (inject_Z_injective c 0) in E. lia.
Qed.

Lemma generate_thumbnails_run imageFileName directory fs image w h :
  files fs !! (directory +:+ "/" +:+ imageFileName) = Some (ImageFile image) ->
  size image = (w, h) ->
  0 < w -> 0 < h -> h <= 960 * w ->
  split_dir imageFileName = None ->
  (directory +:+ "/thumbnails") ∈ dirs fs ->
  _generate_thumbnails imageFileName directory fs
  = (Return ((w, h), if decide (w < h) then "vert" else "horiz"),
     {| dirs := dirs fs;
        files :=
          <[(directory +:+ "/thumbnails") +:+ "/fixed_" +:+ imageFileName
            := ImageFile (fixed_thumbnail image w h)]>
            (<[(directory +:+ "/thumbnails") +:+ "/" +:+ imageFileName
               := ImageFile (aspect_thumbnail image w h)]> (files fs)) |}).
Proof.
  intros Hfile Hsize Hw Hh Hwide Hname Hdir.
  unfold _generate_thumbnails.
  rewrite run_bind, (Image_open_run _ _ _ Hfile). rewrite Hsize.
  cbn [fst snd].
  assert (Hsave1 : dirname ((directory +:+ "/thumbnails") +:+ "/" +:+ imageFileName)
                   ∈ dirs fs)
    by (rewrite dirname_join by exact Hname; exact Hdir).
  assert (Hfixed : split_dir ("fixed_" +:+ imageFileName) = None)
    by (apply split_dir_app; [reflexivity|exact Hname]).
  assert (Hsave2 : dirname ((directory +:+ "/thumbnails") +:+ "/fixed_" +:+ imageFileName)
                   ∈ dirs fs)
    by (rewrite (dirname_join _ ("fixed_" +:+ imageFileName)) by exact Hfixed;
        exact Hdir).
  unfold aspect_thumbnail, fixed_thumbnail.
  destruct (decide (w < h)) as [Hvert|Hhoriz];
    (rewrite run_bind, fdiv_run by (apply float_nonzero; lia);
     rewrite rescale_run by lia;
     rewrite run_bind; unfold save at 1;
     rewrite write_file_run by exact Hsave1;
     rewrite run_bind, fdiv_run by (apply float_nonzero; reflexivity);
     rewrite run_bind, fdiv_run by (apply float_nonzero; reflexivity);
     unfold fmin; rewrite Qle_bool_fraction;
     destruct (w * 360 <=? h * 480) eqn:E;
       [apply Z.leb_le in E | apply Z.leb_gt in E];
       (rewrite rescale_run by (unfold fixedWidth, fixedHeight; lia);
        rewrite run_bind; unfold save;
        rewrite write_file_run by exact Hsave2;
        reflexivity)).
Qed.

Lemma thumbnail_paths_differ (dir name : string) :
  dir +:+ "/" +:+ name <> dir +:+ "/fixed_" +:+ name.
Proof.
  intros E. apply (String.app_inj dir) in E. injection E as E.
  apply (f_equal String.length) in E.
  rewrite !length_append in E. simpl in E. lia.
Qed.

Lemma Qle_fraction w h :
  (float w / float fixedWidth <= float h / float fixedHeight)%Q
  <-> 3 * w <= 4 * h.
Proof.
  rewrite <- Qle_bool_iff, Qle_bool_fraction, Z.leb_le. lia.
Qed.

(** C5, as amended.  The fixed thumbnail has 480 by 360 pixels.  When the
    width factor is at most the height factor, which is when the image
    is at least as tall as the fixed aspect ([3 w <= 4 h]), it is the
    top of the rescaled image, whose width is 480; otherwise, when the
    image is wider than the fixed aspect, it is the left of the rescaled
    image, whose height is 360. *)
Theorem C5_fixed_thumbnail_crop imageFileName directory fs image w h :
  files fs !! (directory +:+ "/" +:+ imageFileName) = Some (ImageFile image) ->
  size image = (w, h) ->
  0 < w -> 0 < h -> h <= 960 * w ->
  split_dir imageFileName = None ->
  (directory +:+ "/thumbnails") ∈ dirs fs ->
  exists r fs' thumbnail,
    _generate_thumbnails imageFileName directory fs = (Return r, fs')
    /\ files fs' !! ((directory +:+ "/thumbnails") +:+ "/fixed_"
                      +:+ imageFileName)
       = Some (ImageFile thumbnail)
    /\ size thumbnail = (480, 360)
    /\ ((float w / float fixedWidth <= float h / float fixedHeight)%Q
        <-> 3 * w <= 4 * h)
    /\ ((float w / float fixedWidth <= float h / float fixedHeight)%Q ->
        keeps_top thumbnail)
    /\ (~ (float w / float fixedWidth <= float h / float fixedHeight)%Q ->
        keeps_left thumbnail).
Proof.
  intros Hfile Hsize Hw Hh Hwide Hname Hdir.
  eexists _, _, (fixed_thumbnail image w h).
  split; [apply (generate_thumbnails_run _ _ _ image w h); assumption|].
  split; [apply lookup_insert_eq|].
  unfold fixed_thumbnail.
  split; [destruct (w * 360 <=? h * 480); reflexivity|].
  split; [apply Qle_fraction|].
  rewrite Qle_fraction.
  destruct (w * 360 <=? h * 480) eqn:E;
    [apply Z.leb_le in E | apply Z.leb_gt in E];
    (split; [intros Hle | intros Hgt]; try lia).
  - eexists _, _, _. split; [reflexivity|]. split.
    + apply rounded_same. lia.
    + apply rounded_ge; unfold fixedHeight; lia.
  - eexists _, _, _. split; [reflexivity|]. split.
    + apply rounded_same. lia.
    + apply rounded_ge; unfold fixedWidth; lia.
Qed.

(** C10.  The orientation returned is ["vert"] exactly when the width is
    less than the height, and ["horiz"] otherwise, a square image
    included; the thumbnail of the same aspect ratio is 480 pixels high
    for ["vert"] and 180 pixels high for ["horiz"]. *)
Theorem C10_orientation_and_thumbnail_height
    imageFileName directory fs image w h :
  files fs !! (directory +:+ "/" +:+ imageFileName) = Some (ImageFile image) ->
  size image = (w, h) ->
  0 < w -> 0 < h -> h <= 960 * w ->
  split_dir imageFileName = None ->
  (directory +:+ "/thumbnails") ∈ dirs fs ->
  exists orientation fs' thumbnail,
    _generate_thumbnails imageFileName directory fs
    = (Return ((w, h), orientation), fs')
    /\ (orientation = "vert" <-> w < h)
    /\ (orientation = "horiz" <-> h <= w)
    /\ files fs' !! ((directory +:+ "/thumbnails") +:+ "/" +:+ imageFileName)
       = Some (ImageFile thumbnail)
    /\ (orientation = "vert" -> (size thumbnail).2 = 480)
    /\ (orientation = "horiz" -> (size thumbnail).2 = 180).
Proof.
  intros Hfile Hsize Hw Hh Hwide Hname Hdir.
  eexists _, _, (aspect_thumbnail image w h).
  split; [apply (generate_thumbnails_run _ _ _ image w h); assumption|].
  assert (Hlookup :
    (<[(directory +:+ "/thumbnails") +:+ "/fixed_" +:+ imageFileName
       := ImageFile (fixed_thumbnail image w h)]>
       (<[(directory +:+ "/thumbnails") +:+ "/" +:+ imageFileName
          := ImageFile (aspect_thumbnail image w h)]> (files fs)))
    !! ((directory +:+ "/thumbnails") +:+ "/" +:+ imageFileName)
    = Some (ImageFile (aspect_thumbnail image w h))).
  { rewrite lookup_insert_ne
      by (intros E; symmetry in E; exact (thumbnail_paths_differ _ _ E)).
    apply lookup_insert_eq. }
  unfold aspect_thumbnail in *.
  destruct (decide (w < h)) as [Hvert|Hhoriz]; simpl.
  - repeat split; try (intros; lia); try discriminate; try assumption.
    intros _. apply rounded_same. lia.
  - repeat split; try (intros; lia); try discriminate; try assumption.
    intros _. apply rounded_same. lia.
Qed.

Lemma provenance_run env history root returncode stdout stderr :
  git_describe env = Return (returncode, stdout, stderr) ->
  _provenance_command env history root
  = (Return tt,
     root ++ provenance_fields env history
          ++ [("githash",
               Some (if decide (returncode = 0) then strip newline stdout
                     else "git hash unavailable"))]).
Proof.
  intros Hgit. unfold _provenance_command, SubElement, Popen_communicate.
  rewrite Hgit. unfold provenance_fields.
  repeat (rewrite run_bind; unfold modify at 1).
  rewrite run_ret. unfold modify.
  rewrite <- !app_assoc. destruct history; reflexivity.
Qed.

(** C6, as amended.  When [git describe] runs and exits with a return
    code other than 0, [_provenance_command] returns without an
    exception and the [githash] it appends, after the other fields of
    the record, is the placeholder. *)
Theorem C6_nonzero_return_code_gives_placeholder
    env history root returncode stdout stderr :
  git_describe env = Return (returncode, stdout, stderr) ->
  returncode <> 0 ->
  exists fields,
    _provenance_command env history root
    = (Return tt,
       root ++ fields ++ [("githash", Some "git hash unavailable")])
    /\ Forall (fun kv => kv.1 <> "githash") fields.
Proof.
  intros Hgit Hcode. exists (provenance_fields env history). split.
  - rewrite (provenance_run _ _ _ _ _ _ Hgit).
    rewrite decide_False by exact Hcode. reflexivity.
  - unfold provenance_fields. repeat constructor; discriminate.
Qed.

Lemma makedirs_exists path fs :
  path ∈ dirs fs ->
  makedirs path fs = (Raise (OSError ("File exists: " +:+ path)), fs).
Proof.
  intros H. unfold makedirs. rewrite run_bind. simpl.
  rewrite decide_True by (left; exact H). reflexivity.
Qed.

Lemma copyfile_run src dst f fs :
  files fs !! src = Some f ->
  dirname dst ∈ dirs fs ->
  copyfile src dst fs
  = (Return tt, {| dirs := dirs fs; files := <[dst := f]> (files fs) |}).
Proof.
  intros Hsrc Hdst. unfold copyfile. rewrite run_bind. simpl. rewrite Hsrc.
  apply write_file_run, Hdst.
Qed.

(** Paths that cannot coincide: the XML file and an image. *)
Lemma rev_app_append (s t a : string) :
  String.rev_app (s +:+ t) a = String.rev_app t (String.rev_app s a).
Proof.
  revert a. induction s as [|c s IH]; intros a.
  - reflexivity.
  - change (String.rev_app (s +:+ t) (String c a)
            = String.rev_app t (String.rev_app s (String c a))).
    apply IH.
Qed.

Lemma append_assoc (a b c : string) : (a +:+ b) +:+ c = a +:+ b +:+ c.
Proof.
  induction a as [|x a IH]; [reflexivity|].
  change (String x ((a +:+ b) +:+ c) = String x (a +:+ b +:+ c)).
  now rewrite IH.
Qed.

Lemma suffix_differs (a b : string) : a +:+ ".xml" <> b +:+ ".png".
Proof.
  intros H. apply (f_equal String.rev) in H. unfold String.rev in H.
  rewrite !rev_app_append in H. discriminate H.
Qed.

Lemma xml_differs (dir prefix p : string) :
  dir +:+ "/" +:+ prefix +:+ ".xml" <> p +:+ prefix +:+ ".png".
Proof.
  rewrite <- !append_assoc. apply suffix_differs.
Qed.


End ImageProps.

Section ImageExamples.
Import ImageXml.

(** The claim as first stated has every image that is taller than the
    fixed aspect cropped from the left; an image of 300 by 400 pixels is
    rescaled to 480 by 640 and keeps its top, not its left. *)
Lemma C5_counterexample :
  exists r fs' thumbnail,
    3 * 300 < 4 * 400
    /\ _generate_thumbnails "mld.png" "/out/html/ocean"
         (gallery_fs (Picture 300 400)) = (Return r, fs')
    /\ files fs' !! "/out/html/ocean/thumbnails/fixed_mld.png"
       = Some (ImageFile thumbnail)
    /\ thumbnail = Cropped (Resized (Picture 300 400) 480 640) 0 0 480 360
    /\ ~ keeps_left thumbnail.
Proof.
  eexists _, _, _. split; [lia|].
  split; [vm_compute; reflexivity|].
  split; [vm_compute; reflexivity|].
  split; [reflexivity|].
  intros (source & w & h & E & Hh & _).
  injection E as _ _ E. unfold fixedHeight in Hh. lia.
Qed.

Lemma C5_witness :
  exists r fs' thumbnail,
    _generate_thumbnails "mld.png" "/out/html/ocean"
      (gallery_fs (Picture 800 300)) = (Return r, fs')
    /\ files fs' !! (("/out/html/ocean" +:+ "/thumbnails") +:+ "/fixed_"
                      +:+ "mld.png")
       = Some (ImageFile thumbnail)
    /\ size thumbnail = (480, 360)
    /\ ((float 800 / float fixedWidth <= float 300 / float fixedHeight)%Q
        <-> 3 * 800 <= 4 * 300)
    /\ ((float 800 / float fixedWidth <= float 300 / float fixedHeight)%Q ->
        keeps_top thumbnail)
    /\ (~ (float 800 / float fixedWidth <= float 300 / float fixedHeight)%Q ->
        keeps_left thumbnail).
Proof.
  apply (C5_fixed_thumbnail_crop "mld.png" "/out/html/ocean"
           (gallery_fs (Picture 800 300)) (Picture 800 300) 800 300).
  - vm_compute. reflexivity.
  - reflexivity.
  - lia.
  - lia.
  - lia.
  - reflexivity.
  - vm_compute. reflexivity.
Defined.

Lemma C10_witness :
  exists orientation fs' thumbnail,
    _generate_thumbnails "mld.png" "/out/html/ocean"
      (gallery_fs (Picture 400 400))
    = (Return ((400, 400), orientation), fs')
    /\ (orientation = "vert" <-> 400 < 400)
    /\ (orientation = "horiz" <-> 400 <= 400)
    /\ files fs' !! (("/out/html/ocean" +:+ "/thumbnails") +:+ "/"
                      +:+ "mld.png")
       = Some (ImageFile thumbnail)
    /\ (orientation = "vert" -> (size thumbnail).2 = 480)
    /\ (orientation = "horiz" -> (size thumbnail).2 = 180).
Proof.
  apply (C10_orientation_and_thumbnail_height "mld.png" "/out/html/ocean"
           (gallery_fs (Picture 400 400)) (Picture 400 400) 400 400).
  - vm_compute. reflexivity.
  - reflexivity.
  - lia.
  - lia.
  - lia.
  - reflexivity.
  - vm_compute. reflexivity.
Defined.

(** The claim as first stated covers a lookup that cannot run at all:
    when [git] cannot be started, [subprocess.Popen] raises an
    [OSError], which reaches the caller, and no [githash] is recorded. *)
Lemma C6_counterexample :
  git_describe no_git_environ = Raise (OSError "No such file or directory")
  /\ exists e root',
       _provenance_command no_git_environ None [] = (Raise e, root')
       /\ exn_class e = "OSError"
       /\ Forall (fun kv => kv.1 <> "githash") root'.
Proof.
  split; [reflexivity|]. eexists _, _.
  split; [vm_compute; reflexivity|]. split; [reflexivity|].
  repeat constructor; discriminate.
Qed.

Lemma C6_witness :
  exists fields,
    _provenance_command sample_environ (Some "ncclimo") []
    = (Return tt, [] ++ fields ++ [("githash", Some "git hash unavailable")])
    /\ Forall (fun kv => kv.1 <> "githash") fields.
Proof.
  apply (C6_nonzero_return_code_gives_placeholder sample_environ
           (Some "ncclimo") [] 128 "" "fatal: not a git repository").
  - reflexivity.
  - lia.
Defined.

End ImageExamples.
(** ** The 1-D plot renderer *)

Section OnedProps.
Import Oned.
Variable array : Type.
Variable add sub : array -> array -> array.

Abbreviation arguments := (arguments array).
Abbreviation series_loop := (series_loop array add sub).
Abbreviation plot_1D := (plot_1D array add sub).
Abbreviation appends := (appends array).

Lemma lookup_delete_shift {A} (l : list A) (i k : nat) :
  delete i l !! k = l !! shift i k.
Proof.
  unfold shift. destruct (decide (k < i)%nat).
  - apply list_lookup_delete_lt. assumption.
  - apply list_lookup_delete_ge. lia.
Qed.

Lemma index_delete {S A} (l : list A) (i k : nat) :
  @index S A (delete i l) k = index l (shift i k).
Proof. unfold index. rewrite lookup_delete_shift. reflexivity. Qed.

Lemma index_or_delete {A} (l : option (list A)) (i k : nat) (d : A) :
  index_or array (delete i <$> l) k d = index_or array l (shift i k) d.
Proof. destruct l; simpl; [apply index_delete|reflexivity]. Qed.

Lemma series_loop_remove (a : arguments) (i : nat) (ks : list nat) :
  series_loop (remove_series i a) ks = series_loop a (shift i <$> ks).
Proof.
  induction ks as [|k ks IH]; [reflexivity|].
  cbn [Oned.series_loop fmap list_fmap].
  rewrite IH.
  cbn [remove_series xArrays fieldArrays errArrays legendText lineColors
       markers lineStyles lineWidths maxTitleLength].
  rewrite !index_delete, !index_or_delete.
  destruct (legendText a); simpl; rewrite ?index_delete; reflexivity.
Qed.

Lemma series_loop_skip (a : arguments) (i : nat) (l1 l2 : list nat) f e :
  xArrays a !! i = Some None ->
  fieldArrays a !! i = Some f ->
  errArrays a !! i = Some e ->
  series_loop a (l1 ++ i :: l2) = series_loop a (l1 ++ l2).
Proof.
  intros Hx Hf He. induction l1 as [|k l1 IH].
  - cbn [app Oned.series_loop]. unfold index. rewrite Hx, Hf, He.
    reflexivity.
  - cbn [app Oned.series_loop]. rewrite IH. reflexivity.
Qed.

Lemma shift_seq (i n : nat) :
  (i < n)%nat ->
  shift i <$> seq 0 (n - 1) = seq 0 i ++ seq (S i) (n - S i).
Proof.
  intros Hi. replace (n - 1)%nat with (i + (n - S i))%nat by lia.
  rewrite seq_app, fmap_app. f_equal.
  - apply list_eq. intros j. rewrite list_lookup_fmap.
    destruct (seq 0 i !! j) as [k|] eqn:E; [|reflexivity].
    apply lookup_seq in E as [-> Hj]. simpl. unfold shift.
    rewrite decide_True by lia. reflexivity.
  - rewrite <- fmap_S_seq. apply list_fmap_ext. intros j k Hk.
    apply lookup_seq in Hk as [-> Hj]. unfold shift.
    rewrite decide_False by lia. reflexivity.
Qed.

Lemma seq_split (i n : nat) :
  (i < n)%nat -> seq 0 n = seq 0 i ++ i :: seq (S i) (n - S i).
Proof.
  intros Hi. replace n with (i + S (n - S i))%nat at 1 by lia.
  rewrite seq_app. reflexivity.
Qed.

Lemma series_loop_removed (a : arguments) (i : nat) f e :
  xArrays a !! i = Some None ->
  fieldArrays a !! i = Some f ->
  errArrays a !! i = Some e ->
  series_loop (remove_series i a)
    (seq 0 (length (xArrays (remove_series i a))))
  = series_loop a (seq 0 (length (xArrays a))).
Proof.
  intros Hx Hf He.
  assert (Hi : (i < length (xArrays a))%nat)
    by (apply lookup_lt_is_Some; eauto).
  rewrite series_loop_remove. cbn [remove_series xArrays].
  rewrite length_delete by eauto.
  rewrite shift_seq by exact Hi.
  rewrite (seq_split i (length (xArrays a))) by exact Hi.
  symmetry. eapply series_loop_skip; eassumption.
Qed.

Lemma appends_ret {A} (a : A) Q : Q (Return a) [] -> appends (mret a) Q.
Proof. intros H fig. exists []. split; [symmetry; apply app_nil_r|exact H]. Qed.

Lemma appends_raise {A} e (Q : outcome A -> _ -> Prop) :
  Q (Raise e) [] -> appends (raise e) Q.
Proof. intros H fig. exists []. split; [symmetry; apply app_nil_r|exact H]. Qed.

Lemma appends_plt c Q : Q (Return tt) [c] -> appends (plt array c) Q.
Proof. intros H fig. exists [c]. split; [reflexivity|exact H]. Qed.

Lemma appends_bind {A B} (m : py _ A) (f : A -> py _ B) Q :
  appends m (fun o c1 =>
    match o with
    | Return a => appends (f a) (fun o2 c2 => Q o2 (c1 ++ c2))
    | Raise e => Q (Raise e) c1
    end) ->
  appends (m ≫= f) Q.
Proof.
  intros H fig. destruct (H fig) as (c1 & Hfig & Hm).
  rewrite run_bind. destruct (m fig) as [[a|e] fig1]; simpl in *; subst fig1.
  - destruct (Hm (fig ++ c1)) as (c2 & Hfig2 & HQ).
    exists (c1 ++ c2). rewrite app_assoc. split; assumption.
  - exists c1. split; [reflexivity|exact Hm].
Qed.

Lemma appends_index {A} (l : list A) k Q :
  (forall x, l !! k = Some x -> Q (Return x) []) ->
  (forall e, l !! k = None -> Q (Raise e) []) ->
  appends (index l k) Q.
Proof.
  intros Hsome Hnone. unfold index. destruct (l !! k) as [x|].
  - apply appends_ret. auto.
  - apply appends_raise. auto.
Qed.

Lemma appends_index_or {A} (l : option (list A)) k (d : A) Q :
  (forall x, Q (Return x) []) ->
  (forall e, Q (Raise e) []) ->
  appends (index_or array l k d) Q.
Proof.
  intros Hsome Hnone. destruct l as [l|]; simpl.
  - apply appends_index; auto.
  - apply appends_ret. auto.
Qed.

Lemma appends_impl {A} (m : py _ A) (Q Q' : outcome A -> _ -> Prop) :
  appends m Q -> (forall o c, Q o c -> Q' o c) -> appends m Q'.
Proof.
  intros H HQ fig. destruct (H fig) as (c & ? & ?). exists c. auto.
Qed.

Lemma labelled_from_nil (a : arguments) x s : ~ labelled_from a [] x s.
Proof. intros (? & k & ? & Hk & _). inversion Hk. Qed.

Lemma labelled_from_cons (a : arguments) k ks x s :
  labelled_from a (k :: ks) x s
  <-> (exists labels l,
         legendText a = Some labels /\ labels !! k = Some (Some l)
         /\ xArrays a !! k = Some (Some x)
         /\ s = limit_title l (maxTitleLength a))
      \/ labelled_from a ks x s.
Proof.
  split.
  - intros (labels & k' & l & Hk & H1 & H2 & H3 & H4).
    apply elem_of_cons in Hk as [->|Hk].
    + left. eauto 10.
    + right. exists labels, k', l. auto.
  - intros [(labels & l & H1 & H2 & H3 & H4)|(labels & k' & l & Hk & H)].
    + exists labels, k, l. repeat split; auto. apply list_elem_of_here.
    + exists labels, k', l. split; [apply list_elem_of_further, Hk|exact H].
Qed.

Lemma loop_post_raise (a : arguments) ks pl e : loop_post a ks pl (Raise e) [].
Proof.
  split; [reflexivity|]. split; [intros x s H; inversion H|].
  intros pl' [=].
Qed.

(** The step of the loop behind the label: the line, its error band and
    the rest of the loop. *)
Lemma line_then_loop (a : arguments) k ks x f oe label pl
    (Q : outcome bool -> list (command array) -> Prop) :
  (forall e, Q (Raise e) []) ->
  (forall line o c,
     titles line = [] -> line_labels line = [(x, label)] ->
     loop_post a ks pl o c -> Q o (line ++ c)) ->
  (forall pl, appends (series_loop a ks pl) (loop_post a ks pl)) ->
  appends
    (index_or array (lineColors array a) k "k"
     ≫= λ color,
          index_or array (markers array a) k None
          ≫= λ marker,
               index_or array (lineStyles array a) k "-"
               ≫= λ linestyle,
                    index_or array (lineWidths array a) k 1%Q
                    ≫= λ linewidth,
                         plt array
                           (plot x f color linestyle marker linewidth label)
                         ≫= λ _,
                              match oe with
                              | Some errArray =>
                                  plt array
                                    (fill_between x f (add f errArray) color
                                       (1 # 5))
                                  ≫= λ _,
                                       plt array
                                         (fill_between x f
                                            (sub f errArray) color (1 # 5))
                              | None => mret ()
                              end
                              ≫= λ _, series_loop a ks pl)
    Q.
Proof.
  intros Hraise Hline IH.
  apply appends_bind, appends_index_or; [|intros; apply Hraise]. intros color.
  apply appends_bind, appends_index_or; [|intros; apply Hraise]. intros marker.
  apply appends_bind, appends_index_or; [|intros; apply Hraise].
  intros linestyle.
  apply appends_bind, appends_index_or; [|intros; apply Hraise].
  intros linewidth.
  apply appends_bind, appends_plt. apply appends_bind.
  destruct oe as [errArray|].
  - apply appends_bind, appends_plt. apply appends_plt.
    eapply appends_impl; [apply IH|]. intros o c Hpost. simpl.
    apply (Hline [_; _; _]); auto.
  - apply appends_ret.
    eapply appends_impl; [apply IH|]. intros o c Hpost. simpl.
    apply (Hline [_]); auto.
Qed.

Lemma loop_post_line (a : arguments) k ks x label pl pl2 line o c :
  xArrays a !! k = Some (Some x) ->
  titles line = [] -> line_labels line = [(x, label)] ->
  (forall s, label = Some s ->
     exists labels l, legendText a = Some labels
       /\ labels !! k = Some (Some l)
       /\ s = limit_title l (maxTitleLength a)) ->
  (forall labels l, legendText a = Some labels ->
     labels !! k = Some (Some l) ->
     label = Some (limit_title l (maxTitleLength a))) ->
  (legendText a = None -> pl2 = pl) ->
  loop_post a ks pl2 o c ->
  loop_post a (k :: ks) pl o (line ++ c).
Proof.
  intros Hx Htitles Hlabels Hsound Hcomplete Hpl (Ht & Hs & Hret).
  unfold loop_post, titles, line_labels in *.
  rewrite !omap_app, Htitles, Ht, Hlabels.
  split; [reflexivity|]. split.
  - intros x' s Hin. apply labelled_from_cons.
    apply elem_of_app in Hin as [Hin|Hin].
    + apply list_elem_of_singleton in Hin. injection Hin as -> Hlabel.
      left. destruct (Hsound s) as (labels & l & ? & ? & ?); [congruence|].
      exists labels, l. auto.
    + right. apply Hs, Hin.
  - intros pl' ->. destruct (Hret pl' eq_refl) as [Hpl' Hc].
    split; [intros Hnone; rewrite Hpl' by exact Hnone; auto|].
    intros x' s Hl. apply elem_of_app.
    apply labelled_from_cons in Hl
      as [(labels & l & Hlt & Hlk & Hx' & ->)|Hl].
    + left. assert (x' = x) as -> by congruence.
      rewrite (Hcomplete labels l Hlt Hlk). apply list_elem_of_here.
    + right. apply Hc, Hl.
Qed.

Lemma series_loop_post (a : arguments) (ks : list nat) :
  forall pl, appends (series_loop a ks pl) (loop_post a ks pl).
Proof.
  induction ks as [|k ks IH]; intros pl.
  - apply appends_ret. split; [reflexivity|].
    split; [intros x s H; inversion H|].
    intros pl' [= <-]. split; [reflexivity|].
    intros x s H. destruct (labelled_from_nil _ _ _ H).
  - cbn [Oned.series_loop].
    apply appends_bind, appends_index; [|intros; apply loop_post_raise].
    intros ox Hx.
    apply appends_bind, appends_index; [|intros; apply loop_post_raise].
    intros f Hf.
    apply appends_bind, appends_index; [|intros; apply loop_post_raise].
    intros oe He.
    destruct ox as [x|].
    2:{ eapply appends_impl; [apply IH|]. simpl.
        intros o c (Ht & Hsound & Hret). split; [exact Ht|]. split.
        - intros x s Hin. apply labelled_from_cons. right. auto.
        - intros pl' ->. destruct (Hret pl' eq_refl) as [Hpl Hcomplete].
          split; [exact Hpl|]. intros x s Hl.
          apply labelled_from_cons in Hl as [(labels & l & _ & _ & Hx' & _)|Hl];
            [congruence|auto]. }
    apply appends_bind. destruct (legendText a) as [labels|] eqn:Hlegend.
    + apply appends_bind, appends_index; [|intros; apply loop_post_raise].
      intros label Hlabel. apply appends_ret. simpl.
      apply line_then_loop; [intros; apply loop_post_raise| |exact IH].
      intros line o c Htitles Hlabels Hpost.
      eapply loop_post_line; try eassumption.
      * intros s Hs. destruct label as [l|]; [|discriminate].
        injection Hs as <-. exists labels, l. auto.
      * intros labels' l Hlt Hl. rewrite Hlegend in Hlt.
        injection Hlt as <-. rewrite Hl in Hlabel.
        injection Hlabel as <-. reflexivity.
      * rewrite Hlegend. discriminate.
    + apply appends_ret. simpl.
      apply line_then_loop; [intros; apply loop_post_raise| |exact IH].
      intros line o c Htitles Hlabels Hpost.
      eapply loop_post_line; try eassumption.
      * discriminate.
      * rewrite Hlegend. discriminate.
      * reflexivity.
Qed.

Lemma emits_plt c : appends (plt array c) (emits (titles [c]) (line_labels [c])).
Proof. apply appends_plt. repeat split. Qed.

Lemma emits_ret : appends (mret tt) (emits [] []).
Proof. apply appends_ret. repeat split. Qed.

Lemma emits_bind (m : py _ unit) (f : unit -> py _ unit) t1 l1 t2 l2 :
  appends m (emits t1 l1) -> appends (f tt) (emits t2 l2) ->
  appends (m ≫= f) (emits (t1 ++ t2) (l1 ++ l2)).
Proof.
  intros Hm Hf. apply appends_bind.
  eapply appends_impl; [exact Hm|]. intros o c (-> & Ht & Hl).
  eapply appends_impl; [exact Hf|]. intros o2 c2 (-> & Ht2 & Hl2).
  unfold emits, titles, line_labels in *. rewrite !omap_app.
  repeat split; congruence.
Qed.

Lemma emits_bind_silent (m : py _ unit) (f : unit -> py _ unit) ts ls :
  appends m (emits ts ls) -> appends (f tt) (emits [] []) ->
  appends (m ≫= f) (emits ts ls).
Proof.
  intros Hm Hf. rewrite <- (app_nil_r ts), <- (app_nil_r ls).
  apply emits_bind; assumption.
Qed.

Lemma emits_when c m :
  appends m (emits [] []) -> appends (when array c m) (emits [] []).
Proof. intros H. destruct c; [exact H|apply emits_ret]. Qed.

(** What follows the loop draws no line and at most one title, the
    limited one. *)
Lemma after_loop_emits cfg (a : arguments) (plotLegend : bool) :
  appends
    (plt array grid
     ≫= λ _, plt array (axhline 0 "-" "k")
     ≫= λ _, when array
               (plotLegend && bool_decide (1 < length (xArrays a))%nat)
               (plt array legend)
     ≫= λ _, match title a with
             | Some title =>
                 plt array
                   (title_ (limit_title title (maxTitleLength a))
                      (from_option SizeInt (SizeStr (plot_titleFontSize cfg))
                         (titleFontSize array a))
                      (plot_titleFontColor cfg) (plot_titleFontWeight cfg))
             | None => mret tt
             end
     ≫= λ _, match xlabel array a with
             | Some xlabel =>
                 plt array
                   (xlabel_ xlabel
                      (from_option SizeInt (SizeStr (plot_axisFontSize cfg))
                         (axisFontSize array a)))
             | None => mret tt
             end
     ≫= λ _, match ylabel array a with
             | Some ylabel =>
                 plt array
                   (ylabel_ ylabel
                      (from_option SizeInt (SizeStr (plot_axisFontSize cfg))
                         (axisFontSize array a)))
             | None => mret tt
             end
     ≫= λ _, when array (invertYAxis array a) (plt array invert_yaxis)
     ≫= λ _, when array (truthy (xLim array a))
               (plt array (xlim (default [] (xLim array a))))
     ≫= λ _, when array (truthy (yLim array a))
               (plt array (ylim (default [] (yLim array a))))
     ≫= λ _, match fileout array a with
             | Some fileout => plt array (savefig fileout)
             | None => mret tt
             end
     ≫= λ _, plt array close)
    (emits (option_list
              ((fun t => limit_title t (maxTitleLength a)) <$> title a))
           []).
Proof.
  apply (emits_bind _ _ [] [] _ []); [apply emits_plt|].
  apply (emits_bind _ _ [] [] _ []); [apply emits_plt|].
  apply (emits_bind _ _ [] [] _ []); [apply emits_when, emits_plt|].
  apply emits_bind_silent.
  { destruct (title a); [apply emits_plt|apply emits_ret]. }
  apply (emits_bind _ _ [] [] [] []).
  { destruct (xlabel array a); [apply emits_plt|apply emits_ret]. }
  apply (emits_bind _ _ [] [] [] []).
  { destruct (ylabel array a); [apply emits_plt|apply emits_ret]. }
  apply (emits_bind _ _ [] [] [] []); [apply emits_when, emits_plt|].
  apply (emits_bind _ _ [] [] [] []); [apply emits_when, emits_plt|].
  apply (emits_bind _ _ [] [] [] []); [apply emits_when, emits_plt|].
  apply (emits_bind _ _ [] [] [] []).
  { destruct (fileout array a); [apply emits_plt|apply emits_ret]. }
  apply emits_plt.
Qed.

Lemma plot_1D_post cfg (a : arguments) :
  appends (plot_1D cfg a) (plot_post a).
Proof.
  unfold Oned.plot_1D.
  apply appends_bind, appends_plt. apply appends_bind, appends_plt.
  apply appends_bind.
  eapply appends_impl; [apply series_loop_post|].
  intros o c (Ht & Hs & Hret). destruct o as [pl|e].
  - destruct (Hret pl eq_refl) as [_ Hcomplete].
    eapply appends_impl; [apply after_loop_emits|].
    intros o2 c2 (-> & Ht2 & Hl2).
    unfold plot_post, titles, line_labels in *. simpl.
    rewrite !omap_app, Ht, Ht2, Hl2, app_nil_r. simpl.
    split; [|split; [exact Hs|]].
    + intros s Hin. destruct (title a) as [t|]; simpl in Hin.
      * apply list_elem_of_singleton in Hin. eauto.
      * inversion Hin.
    + intros _. split; [|exact Hcomplete].
      intros t ->. reflexivity.
  - unfold plot_post, titles, line_labels in *. csimpl.
    rewrite Ht. split; [intros s Hin; inversion Hin|].
    split; [exact Hs|]. discriminate.
Qed.

Lemma length_substring (n : nat) (t : string) :
  (n <= String.length t)%nat -> String.length (String.substring 0 n t) = n.
Proof.
  revert t. induction n as [|n IH]; intros t Hn.
  - destruct t; reflexivity.
  - destruct t as [|c t]; simpl in *; [lia|]. rewrite IH by lia. reflexivity.
Qed.

(** C7.  Whatever [plot_1D] draws, every title in the figure is the
    title passed, limited to [maxTitleLength], and every label of a line
    is the legend text of its series, limited likewise; when the call
    returns, the title passed is drawn and so is the label of every
    series that has data and legend text.  Limiting leaves a string of
    at most [maxTitleLength] characters unchanged and cuts a longer one
    to its first [maxTitleLength] characters followed by an ellipsis. *)
Theorem C7_titles_and_labels_are_limited cfg (a : arguments) fig :
  exists cmds,
    (plot_1D cfg a fig).2 = fig ++ cmds
    /\ (forall s, s ∈ titles cmds ->
          exists t, title a = Some t
                    /\ s = limit_title t (maxTitleLength a))
    /\ (forall x s, (x, Some s) ∈ line_labels cmds ->
          exists labels k l,
            legendText a = Some labels /\ labels !! k = Some (Some l)
            /\ xArrays a !! k = Some (Some x)
            /\ s = limit_title l (maxTitleLength a))
    /\ ((plot_1D cfg a fig).1 = Return tt ->
          (forall t, title a = Some t ->
             titles cmds = [limit_title t (maxTitleLength a)])
          /\ forall labels k l x,
               legendText a = Some labels -> labels !! k = Some (Some l) ->
               xArrays a !! k = Some (Some x) ->
               (x, Some (limit_title l (maxTitleLength a)))
               ∈ line_labels cmds)
    /\ (forall t n, (String.length t <= n)%nat -> limit_title t n = t)
    /\ (forall t n, (n < String.length t)%nat ->
          limit_title t n = String.substring 0 n t +:+ "..."
          /\ String.length (String.substring 0 n t) = n).
Proof.
  destruct (plot_1D_post cfg a fig) as (cmds & Hfig & Ht & Hs & Hret).
  exists cmds. split; [exact Hfig|]. split; [exact Ht|]. split.
  { intros x s Hin. destruct (Hs x s Hin) as (labels & k & l & _ & H).
    exists labels, k, l. exact H. }
  split.
  { intros Hreturn. destruct (Hret Hreturn) as [Htitle Hcomplete].
    split; [exact Htitle|]. intros labels k l x Hlegend Hl Hx.
    apply Hcomplete. exists labels, k, l. repeat split; try assumption.
    apply elem_of_seq. split; [lia|]. simpl.
    apply lookup_lt_is_Some. eauto. }
  split.
  - intros t n Hle. unfold limit_title. rewrite decide_False by lia.
    reflexivity.
  - intros t n Hlt. unfold limit_title. rewrite decide_True by lia.
    split; [reflexivity|]. apply length_substring. lia.
Qed.

Lemma run_plt c (f : unit -> py (list (command array)) unit) fig :
  (plt array c ≫= f) fig = f tt (fig ++ [c]).
Proof. reflexivity. Qed.

(** C9, as amended.  A series whose entry in [xArrays] is [None] (and
    which has its entries in [fieldArrays] and [errArrays]) draws no
    line, no error band and no label: the call does what the call
    without that series does, figure and outcome, provided the call does
    not have exactly two series or has no legend text.  The legend is
    drawn when more than one series is passed, counted with the series
    without data. *)
Theorem C9_series_without_x_contributes_nothing cfg (a : arguments) i f e fig :
  xArrays a !! i = Some None ->
  fieldArrays a !! i = Some f ->
  errArrays a !! i = Some e ->
  length (xArrays a) <> 2%nat \/ legendText a = None ->
  plot_1D cfg a fig = plot_1D cfg (remove_series i a) fig.
Proof.
  intros Hx Hf He Hlegend.
  assert (Hi : (i < length (xArrays a))%nat)
    by (apply lookup_lt_is_Some; eauto).
  unfold Oned.plot_1D.
  rewrite (series_loop_removed a i f e Hx Hf He).
  cbn [remove_series title xlabel ylabel fileout figsize dpi xLim yLim
       invertYAxis maxTitleLength titleFontSize axisFontSize
       defaultFontSize xArrays].
  rewrite !run_plt, !run_bind.
  pose proof (series_loop_post a (seq 0 (length (xArrays a))) false
                (fig ++ [rc_font (default (plot_defaultFontSize cfg)
                                    (defaultFontSize array a))]
                     ++ [figure (figsize array a)
                           (default (plot_dpi cfg) (dpi array a))]))
    as (c & _ & _ & _ & Hret).
  rewrite <- app_assoc.
  destruct (series_loop _ _ _ _) as [[pl|err] fig'] eqn:E; [|reflexivity].
  destruct (Hret pl eq_refl) as [Hpl _].
  replace (pl && bool_decide (1 < length (delete i (xArrays a)))%nat)
    with (pl && bool_decide (1 < length (xArrays a))%nat); [reflexivity|].
  destruct Hlegend as [Hlen|Hnone].
  - f_equal. apply bool_decide_ext. rewrite length_delete by eauto. lia.
  - rewrite (Hpl Hnone). reflexivity.
Qed.
End OnedProps.

Section OnedExamples.
Import Oned.

(** The claim as first stated has the output unchanged when the series
    without data is removed; with two series and legend text the call
    draws the legend, and the call with the one remaining series does
    not. *)
Lemma C9_counterexample :
  xArrays sample_arguments !! 1%nat = Some None
  /\ plot_1D (list Z) zadd zsub sample_config sample_arguments []
     <> plot_1D (list Z) zadd zsub sample_config
          (remove_series 1 sample_arguments) []
  /\ legend ∈ (plot_1D (list Z) zadd zsub sample_config
                 sample_arguments []).2
  /\ legend ∉ (plot_1D (list Z) zadd zsub sample_config
                 (remove_series 1 sample_arguments) []).2.
Proof.
  split; [reflexivity|]. split; [vm_compute; discriminate|].
  split.
  - vm_compute. do 7 apply list_elem_of_further. apply list_elem_of_here.
  - vm_compute. intros H.
    repeat (apply elem_of_cons in H as [H|H]; [discriminate|]).
    inversion H.
Qed.

Lemma C7_witness :
  exists cmds,
    (plot_1D (list Z) zadd zsub sample_config sample_arguments []).2
    = [] ++ cmds
    /\ titles cmds = ["Meridional..."]
    /\ line_labels cmds = [([0; 1; 2], Some "model")].
Proof.
  destruct (C7_titles_and_labels_are_limited (list Z) zadd zsub
              sample_config sample_arguments [])
    as (cmds & Hfig & _).
  exists cmds. split; [exact Hfig|].
  vm_compute in Hfig. subst cmds. split; reflexivity.
Defined.

Lemma C9_witness :
  plot_1D (list Z) zadd zsub sample_config three_series []
  = plot_1D (list Z) zadd zsub sample_config
      (remove_series 1 three_series) [].
Proof.
  apply (C9_series_without_x_contributes_nothing (list Z) zadd zsub
           sample_config three_series 1 [] None []).
  - reflexivity.
  - reflexivity.
  - reflexivity.
  - left. vm_compute. lia.
Defined.
End OnedExamples.


(** * Further properties *)

(** ** The analysis task: what is constructed *)

Section MLDMore.
Import ClimatologyMapMLD.
Variable bcfp : MpasAnalysisConfigParser -> string -> string -> string.

Lemma checks_run cfg task ref seasons grids s0 :
  expr_options cfg !! (sectionName, "seasons") = Some seasons ->
  expr_options cfg !! (sectionName, "comparisonGrids") = Some grids ->
  seasons <> [] -> grids <> [] ->
  __init__ bcfp cfg task ref s0
  = (c ← choose_comparison bcfp cfg ref grids seasons;
     for_in grids (fun comparisonGridName =>
       for_in seasons (fun season =>
         subtask ← new Plot
           (make_plot (primary_remap task grids seasons) c
              comparisonGridName season);
         add_subtask (Plot subtask))))
      {| self := Some (constructed cfg []);
         allocated :=
           allocated s0 ++ [RemapMpas (primary_remap task grids seasons)] |}.
Proof.
  intros Hs Hg Hsne Hgne.
  unfold __init__, getExpression.
  rewrite run_bind. simpl. rewrite Hs.
  rewrite run_bind, run_ret, run_bind.
  destruct (decide (length seasons = 0%nat)) as [E|_];
    [apply length_zero_iff_nil in E; done|].
  rewrite run_ret, run_bind, Hg, run_ret, run_bind.
  destruct (decide (length grids = 0%nat)) as [E|_];
    [apply length_zero_iff_nil in E; done|].
  rewrite run_ret, run_bind. reflexivity.
Qed.

Lemma init_observations cfg task seasons grids s0 :
  expr_options cfg !! (sectionName, "seasons") = Some seasons ->
  expr_options cfg !! (sectionName, "comparisonGrids") = Some grids ->
  seasons <> [] -> grids <> [] ->
  __init__ bcfp cfg task None s0
  = (Return tt,
     {| self := Some (constructed cfg
          (RemapObs (observations_remap bcfp cfg grids seasons)
           :: (Plot <$> plots_of (primary_remap task grids seasons)
                          (observations_comparison bcfp cfg grids seasons)
                          grids seasons)));
        allocated :=
          allocated s0
          ++ RemapMpas (primary_remap task grids seasons)
          :: RemapObs (observations_remap bcfp cfg grids seasons)
          :: (Plot <$> plots_of (primary_remap task grids seasons)
                         (observations_comparison bcfp cfg grids seasons)
                         grids seasons) |}).
Proof.
  intros Hs Hg Hsne Hgne.
  rewrite (checks_run _ _ _ _ _ _ Hs Hg Hsne Hgne).
  rewrite run_bind. simpl. rewrite loops_run.
  unfold push_all, constructed. simpl. rewrite <- !app_assoc. reflexivity.
Qed.

Lemma init_reference cfg task refTask refRunName seasons grids s0 :
  expr_options cfg !! (sectionName, "seasons") = Some seasons ->
  expr_options cfg !! (sectionName, "comparisonGrids") = Some grids ->
  seasons <> [] -> grids <> [] ->
  str_options (mct_config refTask) !! ("runs", "mainRunName")
  = Some refRunName ->
  __init__ bcfp cfg task (Some refTask) s0
  = (Return tt,
     {| self := Some (constructed cfg
          (Plot <$> plots_of (primary_remap task grids seasons)
                      (reference_comparison refTask refRunName grids seasons)
                      grids seasons));
        allocated :=
          allocated s0
          ++ RemapMpas (primary_remap task grids seasons)
          :: RemapRef (reference_remap refTask grids seasons)
          :: (Plot <$> plots_of (primary_remap task grids seasons)
                         (reference_comparison refTask refRunName
                            grids seasons)
                         grids seasons) |}).
Proof.
  intros Hs Hg Hsne Hgne Hname.
  rewrite (checks_run _ _ _ _ _ _ Hs Hg Hsne Hgne).
  rewrite run_bind. simpl. unfold config_get. rewrite Hname. simpl.
  rewrite loops_run.
  unfold push_all, constructed. simpl. rewrite <- !app_assoc. reflexivity.
Qed.

Lemma plots_of_info remap c grids seasons :
  Forall (fun p => pl_info p = Some (mld_plot_info c))
         (plots_of remap c grids seasons).
Proof.
  unfold plots_of. apply Forall_bind, Forall_forall. intros g _.
  apply Forall_fmap, Forall_forall. intros season _. reflexivity.
Qed.

(** X1.  The labels of the plots.  Every plot subtask of a constructed
    task carries the plot information of the mixed-layer depth; against
    observations the gallery is the one of the Holte-Talley ARGO
    climatology, the reference field is [mld] and the file label
    [mldHolteTalleyARGO]; against a reference run there is no gallery
    name, the reference title is ["Ref: "] followed by the name of that
    run, and the reference field is the model field. *)
Theorem X1_plot_information_by_mode cfg task ref seasons grids s0 :
  expr_options cfg !! (sectionName, "seasons") = Some seasons ->
  expr_options cfg !! (sectionName, "comparisonGrids") = Some grids ->
  seasons <> [] -> grids <> [] ->
  (forall r, ref = Some r ->
     is_Some (str_options (mct_config r) !! ("runs", "mainRunName"))) ->
  exists s self_,
    __init__ bcfp cfg task ref s0 = (Return tt, s)
    /\ self s = Some self_
    /\ Forall (fun p =>
          exists i,
            pl_info p = Some i
            /\ fieldNameInTitle i = "MLD"
            /\ mpasFieldName i = "timeMonthly_avg_dThreshMLD"
            /\ unitsLabel i = "m"
            /\ imageCaption i = "Mean Mixed-Layer Depth"
            /\ galleryGroup i = "Mixed-Layer Depth"
            /\ groupSubtitle i = None
            /\ groupLink i = "mld"
            /\ match ref with
               | None =>
                   galleryName i = Some "Observations: Holte-Talley ARGO"
                   /\ refTitleLabel i
                      = "Observations (HolteTalley density threshold MLD)"
                   /\ diffTitleLabel i = "Model - Observations"
                   /\ refFieldName i = "mld"
                   /\ outFileLabel i = "mldHolteTalleyARGO"
               | Some r =>
                   galleryName i = None
                   /\ (exists refRunName,
                         str_options (mct_config r) !! ("runs", "mainRunName")
                         = Some refRunName
                         /\ refTitleLabel i = "Ref: " +:+ refRunName)
                   /\ diffTitleLabel i = "Main - Reference"
                   /\ refFieldName i = "timeMonthly_avg_dThreshMLD"
                   /\ outFileLabel i = "mld"
               end)
         (omap as_plot (subtasks self_)).
Proof.
  intros Hs Hg Hsne Hgne Href. destruct ref as [r|].
  - destruct (Href r eq_refl) as [name Hname].
    eexists _, _. split; [apply init_reference; eassumption|].
    split; [reflexivity|]. simpl. rewrite omap_as_plot_Plot.
    eapply Forall_impl; [apply plots_of_info|]. intros p Hp.
    eexists. split; [exact Hp|]. simpl. repeat split; eauto.
  - eexists _, _. split; [apply init_observations; eassumption|].
    split; [reflexivity|]. simpl. rewrite omap_as_plot_Plot.
    eapply Forall_impl; [apply plots_of_info|]. intros p Hp.
    eexists. split; [exact Hp|]. simpl. repeat split.
Qed.

(** X2.  What the remap subtasks are given.  The remap subtask of the
    primary run and the comparison remap subtask are constructed with
    the seasons and the comparison grids of the configuration; the
    model subtasks remap the one variable [timeMonthly_avg_dThreshMLD]
    under the climatology name [mld] with no index selection, and the
    observations are read from [holtetalley_mld_climatology.nc] in the
    directory that option [mldSubdirectory] of section
    [oceanObservations] gives. *)
Theorem X2_remap_subtask_arguments cfg task ref seasons grids s0 :
  expr_options cfg !! (sectionName, "seasons") = Some seasons ->
  expr_options cfg !! (sectionName, "comparisonGrids") = Some grids ->
  seasons <> [] -> grids <> [] ->
  (forall r, ref = Some r ->
     is_Some (str_options (mct_config r) !! ("runs", "mainRunName"))) ->
  exists s remap other (plots : list PlotClimatologyMapSubtask),
    __init__ bcfp cfg task ref s0 = (Return tt, s)
    /\ allocated s
       = allocated s0 ++ RemapMpas remap :: other :: (Plot <$> plots)
    /\ rm_mpasClimatologyTask remap = task
    /\ rm_climatologyName remap = "mld"
    /\ rm_variableList remap = ["timeMonthly_avg_dThreshMLD"]
    /\ rm_seasons remap = seasons
    /\ rm_comparisonGridNames remap = grids
    /\ rm_iselValues remap = None
    /\ match ref with
       | None =>
           exists obs,
             other = RemapObs obs
             /\ ro_fileName obs
                = bcfp cfg "oceanObservations" "mldSubdirectory"
                    +:+ "/holtetalley_mld_climatology.nc"
             /\ ro_outFilePrefix obs = "mld"
             /\ ro_seasons obs = seasons
             /\ ro_comparisonGridNames obs = grids
       | Some r =>
           exists rr,
             other = RemapRef rr
             /\ rr_mpasClimatologyTask rr = r
             /\ rr_climatologyName rr = "mld"
             /\ rr_variableList rr = ["timeMonthly_avg_dThreshMLD"]
             /\ rr_seasons rr = seasons
             /\ rr_comparisonGridNames rr = grids
             /\ rr_iselValues rr = None
       end.
Proof.
  intros Hs Hg Hsne Hgne Href. destruct ref as [r|].
  - destruct (Href r eq_refl) as [name Hname].
    eexists _, _, _, _. split; [apply init_reference; eassumption|].
    split; [reflexivity|]. repeat split. eexists. repeat split.
  - eexists _, _, _, _. split; [apply init_observations; eassumption|].
    split; [reflexivity|]. repeat split. eexists. repeat split.
Qed.

(** X3.  A reference run without a name.  When the configuration of the
    reference run has no option [mainRunName] in section [runs], the
    constructor raises the [NoOptionError] of [config.get]; the two
    remap subtasks have been constructed by then, the second one for
    the reference run, and no plot subtask has. *)
Theorem X3_reference_run_without_name cfg task refTask seasons grids s0 :
  expr_options cfg !! (sectionName, "seasons") = Some seasons ->
  expr_options cfg !! (sectionName, "comparisonGrids") = Some grids ->
  seasons <> [] -> grids <> [] ->
  str_options (mct_config refTask) !! ("runs", "mainRunName") = None ->
  exists s remap rr,
    __init__ bcfp cfg task (Some refTask) s0
    = (Raise (NoOptionError "mainRunName"), s)
    /\ allocated s = allocated s0 ++ [RemapMpas remap; RemapRef rr]
    /\ rr_mpasClimatologyTask rr = refTask.
Proof.
  intros Hs Hg Hsne Hgne Hname.
  rewrite (checks_run _ _ _ _ _ _ Hs Hg Hsne Hgne).
  rewrite run_bind. simpl. unfold config_get. rewrite Hname. simpl.
  eexists _, _, _. split; [reflexivity|]. split.
  - rewrite <- app_assoc. reflexivity.
  - reflexivity.
Qed.

(** X4.  The message of the [ValueError] names the list that is empty,
    and the seasons are checked first: with an empty list of seasons the
    message names the seasons whatever the comparison grids are, and
    only with seasons given and an empty list of grids does it name the
    comparison grids. *)
Theorem X4_message_names_the_empty_list cfg task ref seasons s0 :
  expr_options cfg !! (sectionName, "seasons") = Some seasons ->
  seasons = []
  \/ expr_options cfg !! (sectionName, "comparisonGrids") = Some [] ->
  (__init__ bcfp cfg task ref s0).1
  = Raise (ValueError
      ("config section climatologyMapMLD does not contain valid list of "
       +:+ (if decide (seasons = []) then "seasons"
            else "comparison grids"))).
Proof.
  intros Hs H. unfold __init__, getExpression.
  rewrite run_bind. simpl. rewrite Hs.
  destruct (decide (seasons = [])) as [->|Hne]; [reflexivity|].
  destruct H as [H|Hg]; [done|].
  rewrite run_bind, run_ret, run_bind.
  destruct (decide (length seasons = 0%nat)) as [E|_];
    [apply length_zero_iff_nil in E; done|].
  rewrite run_ret, run_bind, Hg. reflexivity.
Qed.

(** X5.  The observations are a child of the task.  Without a reference
    run, the observation remap subtask that the plot subtasks hold is
    registered with the task, and only plot subtasks are registered
    after it. *)
Theorem X5_observation_remap_is_registered cfg task seasons grids s0 :
  expr_options cfg !! (sectionName, "seasons") = Some seasons ->
  expr_options cfg !! (sectionName, "comparisonGrids") = Some grids ->
  seasons <> [] -> grids <> [] ->
  exists s self_ obs before (plots : list PlotClimatologyMapSubtask),
    __init__ bcfp cfg task None s0 = (Return tt, s)
    /\ self s = Some self_
    /\ subtasks self_ = before ++ RemapObs obs :: (Plot <$> plots)
    /\ plots <> []
    /\ Forall (fun p => pl_remapObsClimatologySubtask p = Some obs) plots.
Proof.
  intros Hs Hg Hsne Hgne.
  eexists _, _, _, [], _. split; [apply init_observations; eassumption|].
  split; [reflexivity|]. split; [reflexivity|]. split.
  - intros E. apply (f_equal length) in E.
    rewrite plots_of_length in E. simpl in E.
    destruct grids; [done|]. destruct seasons; [done|]. simpl in E. lia.
  - eapply Forall_impl; [apply plots_of_wiring|]. intros p (_ & H & _).
    exact H.
Qed.
End MLDMore.

Section MLDMoreExamples.
Import ClimatologyMapMLD.

Lemma X3_witness :
  exists s remap rr,
    __init__ sample_path sample_config sample_task
      (Some {| mct_config := no_seasons_config |}) initial
    = (Raise (NoOptionError "mainRunName"), s)
    /\ allocated s = allocated initial ++ [RemapMpas remap; RemapRef rr]
    /\ rr_mpasClimatologyTask rr = {| mct_config := no_seasons_config |}.
Proof.
  apply (X3_reference_run_without_name sample_path sample_config sample_task
           {| mct_config := no_seasons_config |}
           ["JFM"; "JAS"; "ANN"] ["latlon"; "antarctic"] initial).
  - reflexivity.
  - reflexivity.
  - discriminate.
  - discriminate.
  - reflexivity.
Defined.

Lemma X1_witness :
  exists s self_,
    __init__ sample_path sample_config sample_task (Some sample_task) initial
    = (Return tt, s)
    /\ self s = Some self_
    /\ Forall (fun p =>
          exists i,
            pl_info p = Some i
            /\ fieldNameInTitle i = "MLD"
            /\ mpasFieldName i = "timeMonthly_avg_dThreshMLD"
            /\ unitsLabel i = "m"
            /\ imageCaption i = "Mean Mixed-Layer Depth"
            /\ galleryGroup i = "Mixed-Layer Depth"
            /\ groupSubtitle i = None
            /\ groupLink i = "mld"
            /\ galleryName i = None
            /\ (exists refRunName,
                  str_options (mct_config sample_task)
                    !! ("runs", "mainRunName") = Some refRunName
                  /\ refTitleLabel i = "Ref: " +:+ refRunName)
            /\ diffTitleLabel i = "Main - Reference"
            /\ refFieldName i = "timeMonthly_avg_dThreshMLD"
            /\ outFileLabel i = "mld")
         (omap as_plot (subtasks self_)).
Proof.
  apply (X1_plot_information_by_mode sample_path sample_config sample_task
           (Some sample_task) ["JFM"; "JAS"; "ANN"] ["latlon"; "antarctic"]
           initial).
  - reflexivity.
  - reflexivity.
  - discriminate.
  - discriminate.
  - intros r [= <-]. eexists. reflexivity.
Defined.

Lemma X2_witness :
  exists s remap other (plots : list PlotClimatologyMapSubtask),
    __init__ sample_path sample_config sample_task None initial
    = (Return tt, s)
    /\ allocated s
       = allocated initial ++ RemapMpas remap :: other :: (Plot <$> plots)
    /\ rm_mpasClimatologyTask remap = sample_task
    /\ rm_climatologyName remap = "mld"
    /\ rm_variableList remap = ["timeMonthly_avg_dThreshMLD"]
    /\ rm_seasons remap = ["JFM"; "JAS"; "ANN"]
    /\ rm_comparisonGridNames remap = ["latlon"; "antarctic"]
    /\ rm_iselValues remap = None
    /\ exists obs,
         other = RemapObs obs
         /\ ro_fileName obs
            = sample_path sample_config "oceanObservations" "mldSubdirectory"
                +:+ "/holtetalley_mld_climatology.nc"
         /\ ro_outFilePrefix obs = "mld"
         /\ ro_seasons obs = ["JFM"; "JAS"; "ANN"]
         /\ ro_comparisonGridNames obs = ["latlon"; "antarctic"].
Proof.
  apply (X2_remap_subtask_arguments sample_path sample_config sample_task
           None ["JFM"; "JAS"; "ANN"] ["latlon"; "antarctic"] initial).
  - reflexivity.
  - reflexivity.
  - discriminate.
  - discriminate.
  - intros r [=].
Defined.

Lemma X4_witness :
  (__init__ sample_path no_grids_config sample_task None initial).1
  = Raise (ValueError
      ("config section climatologyMapMLD does not contain valid list of "
       +:+ (if decide (["ANN"] = []) then "seasons"
            else "comparison grids"))).
Proof.
  apply (X4_message_names_the_empty_list sample_path no_grids_config
           sample_task None ["ANN"] initial).
  - reflexivity.
  - right. reflexivity.
Defined.

Lemma X5_witness :
  exists s self_ obs before (plots : list PlotClimatologyMapSubtask),
    __init__ sample_path sample_config sample_task None initial
    = (Return tt, s)
    /\ self s = Some self_
    /\ subtasks self_ = before ++ RemapObs obs :: (Plot <$> plots)
    /\ plots <> []
    /\ Forall (fun p => pl_remapObsClimatologySubtask p = Some obs) plots.
Proof.
  apply (X5_observation_remap_is_registered sample_path sample_config
           sample_task ["JFM"; "JAS"; "ANN"] ["latlon"; "antarctic"]
           initial).
  - reflexivity.
  - reflexivity.
  - discriminate.
  - discriminate.
Defined.
End MLDMoreExamples.



(** ** The provenance record and the thumbnails: further properties *)

Section ImageMore.
Import ImageXml.


Lemma rev_app_rev_app (s a b : string) :
  String.rev_app (String.rev_app s a) b = String.rev_app a (s +:+ b).
Proof.
  revert a b. induction s as [|c s IH]; intros a b.
  - reflexivity.
  - change (String.rev_app (String.rev_app s (String c a)) b
            = String.rev_app a (String c (s +:+ b))).
    rewrite IH. reflexivity.
Qed.

Lemma append_empty (s : string) : s +:+ "" = s.
Proof.
  induction s as [|c s IH]; [reflexivity|].
  change (String c s +:+ "") with (String c (s +:+ "")). now rewrite IH.
Qed.

Lemma rev_app_free c (s a : string) :
  ~ In c (list_ascii_of_string s) -> ~ In c (list_ascii_of_string a) ->
  ~ In c (list_ascii_of_string (String.rev_app s a)).
Proof.
  revert a. induction s as [|d s IH]; intros a Hs Ha; simpl in *.
  - exact Ha.
  - apply IH; [tauto|]. simpl. tauto.
Qed.

Lemma lstrip_free c (s : string) :
  ~ In c (list_ascii_of_string s) -> lstrip c s = s.
Proof.
  destruct s as [|d s]; simpl; [reflexivity|].
  intros H. destruct (decide (d = c)) as [->|_]; [tauto|reflexivity].
Qed.

Lemma strip_line c (h : string) :
  ~ In c (list_ascii_of_string h) ->
  strip c h = h /\ strip c (h +:+ String c "") = h.
Proof.
  intros H. unfold strip. split.
  - rewrite (lstrip_free c h H).
    rewrite lstrip_free by (apply rev_app_free; [exact H|simpl; tauto]).
    unfold String.rev. rewrite rev_app_rev_app. apply append_empty.
  - destruct h as [|d h].
    + simpl. destruct (decide (c = c)); [reflexivity|done].
    + assert (Hd : d <> c) by (simpl in H; tauto).
      change (lstrip c (String d h +:+ String c ""))
        with (if decide (d = c) then lstrip c (h +:+ String c "")
              else String d h +:+ String c "").
      destruct (decide (d = c)) as [|_]; [done|].
      unfold String.rev at 2. rewrite rev_app_append.
      change (String.rev_app (String c "") (String.rev_app (String d h) ""))
        with (String c (String.rev_app (String d h) "")).
      change (lstrip c (String c (String.rev_app (String d h) "")))
        with (if decide (c = c) then lstrip c (String.rev_app (String d h) "")
              else String c (String.rev_app (String d h) "")).
      destruct (decide (c = c)) as [_|]; [|done].
      rewrite lstrip_free by (apply rev_app_free; [exact H|simpl; tauto]).
      unfold String.rev. rewrite rev_app_rev_app. apply append_empty.
Qed.


(** X6.  The description that git prints is recorded without its line
    end.  When [git describe] returns 0 and prints one line, with or
    without a final newline, the [githash] element holds that line. *)
Theorem X6_githash_is_the_line_git_prints
    env history root (h stdout stderr : string) :
  git_describe env = Return (0, stdout, stderr) ->
  ~ In newline (list_ascii_of_string h) ->
  stdout = h \/ stdout = h +:+ String newline "" ->
  exists root',
    _provenance_command env history root = (Return tt, root')
    /\ last root' = Some ("githash", Some h).
Proof.
  intros Hgit Hfree Hout.
  rewrite (provenance_run env history root 0 stdout stderr Hgit).
  eexists. split; [reflexivity|].
  rewrite !app_assoc, last_snoc. simpl.
  destruct (strip_line newline h Hfree) as [H1 H2].
  destruct Hout as [-> | ->]; [rewrite H1|rewrite H2]; reflexivity.
Qed.

(** X7.  When git cannot be started, the exception of
    [subprocess.Popen] leaves the function, after the root has been
    given its five other elements: the root is changed although the
    call fails, and it has no [githash]. *)
Theorem X7_git_that_cannot_start env history root e :
  git_describe env = Raise e ->
  exists fields,
    _provenance_command env history root = (Raise e, root ++ fields)
    /\ fields.*1 = ["history"; "cwd"; "user"; "curtime"; "host"].
Proof.
  intros Hgit. exists (provenance_fields env history).
  split; [|reflexivity].
  unfold _provenance_command, SubElement, Popen_communicate.
  rewrite Hgit. unfold modify, raise.
  repeat (rewrite run_bind; simpl).
  rewrite <- !app_assoc. reflexivity.
Qed.

(** *** What the procedures change *)

Lemma differs_refl D P fs : differs_within D P fs fs.
Proof. repeat split; auto. Qed.

Lemma differs_trans D P fs1 fs2 fs3 :
  differs_within D P fs1 fs2 -> differs_within D P fs2 fs3 ->
  differs_within D P fs1 fs3.
Proof.
  intros (A1 & B1 & C1) (A2 & B2 & C2). split; [|split].
  - auto.
  - intros d Hd. destruct (B2 d Hd) as [H|H]; auto.
  - intros p Hp. rewrite C2, C1; auto.
Qed.

Lemma writes_stateless D P {A} (m : py filesystem A) :
  (forall fs, (m fs).2 = fs) -> writes_within D P m.
Proof. intros H fs. rewrite H. apply differs_refl. Qed.

Lemma writes_bind D P {A B} (m : py filesystem A) (k : A -> py filesystem B) :
  writes_within D P m -> (forall a, writes_within D P (k a)) ->
  writes_within D P (m ≫= k).
Proof.
  intros Hm Hk fs. rewrite run_bind. specialize (Hm fs).
  destruct (m fs) as [[a|e] fs1]; simpl in *.
  - eapply differs_trans; [exact Hm|apply Hk].
  - exact Hm.
Qed.

Lemma writes_try D P {A} (body handler : py filesystem A) cls :
  writes_within D P body -> writes_within D P handler ->
  writes_within D P (try_except body cls handler).
Proof.
  intros Hb Hh fs. unfold try_except. specialize (Hb fs).
  destruct (body fs) as [[a|e] fs1]; simpl in *; [exact Hb|].
  destruct (decide (exn_class e = cls)); [|exact Hb].
  eapply differs_trans; [exact Hb|apply Hh].
Qed.

Lemma writes_write_file (D P : string -> Prop) path f :
  P path -> writes_within D P (write_file path f).
Proof.
  intros HP fs. unfold write_file. rewrite run_bind. simpl.
  destruct (decide (dirname path ∈ dirs fs)); simpl; [|apply differs_refl].
  split; [|split]; simpl; auto.
  intros p Hp. apply lookup_insert_ne. intros ->. exact (Hp HP).
Qed.

Lemma writes_makedirs (D P : string -> Prop) path :
  (forall d, d ∈ upwards (S (String.length path)) path -> D d) ->
  writes_within D P (makedirs path).
Proof.
  intros HD fs. unfold makedirs. rewrite run_bind.
  cbn [get_state].
  destruct (decide (path ∈ dirs fs \/ is_Some (files fs !! path)));
    [apply differs_refl|].
  split; [|split]; cbn [modify snd dirs files].
  - intros d Hd. apply elem_of_union. left. exact Hd.
  - intros d Hd. apply elem_of_union in Hd as [Hd|Hd]; [left; exact Hd|].
    right. apply HD. apply elem_of_list_to_set in Hd. exact Hd.
  - reflexivity.
Qed.

Lemma writes_copyfile (D P : string -> Prop) src dst :
  P dst -> writes_within D P (copyfile src dst).
Proof.
  intros HP fs. unfold copyfile. rewrite run_bind. cbn [get_state].
  destruct (files fs !! src); [|apply differs_refl].
  apply writes_write_file. exact HP.
Qed.

Lemma Image_open_state path fs : (Image_open path fs).2 = fs.
Proof.
  unfold Image_open. rewrite run_bind. cbn [get_state].
  destruct (files fs !! path) as [[|]|]; reflexivity.
Qed.

Lemma fdiv_state {S} a b (s : S) : (fdiv a b s).2 = s.
Proof. unfold fdiv. destruct (Qeq_bool b 0); reflexivity. Qed.

Lemma scaled_state {S} sz f (s : S) : (scaled sz f s).2 = s.
Proof.
  unfold scaled, fdiv. rewrite run_bind.
  destruct (Qeq_bool f 0); reflexivity.
Qed.

Lemma resize_state {S} image sz (s : S) : (resize image sz s).2 = s.
Proof.
  unfold resize. destruct (decide (sz.1 < 1 \/ sz.2 < 1)); reflexivity.
Qed.

Lemma writes_generate_thumbnails imageFileName directory :
  writes_within (fun _ => False)
    (fun p => p = (directory +:+ "/thumbnails") +:+ "/" +:+ imageFileName
              \/ p = (directory +:+ "/thumbnails") +:+ "/fixed_"
                       +:+ imageFileName)
    (_generate_thumbnails imageFileName directory).
Proof.
  unfold _generate_thumbnails.
  apply writes_bind; [apply writes_stateless, Image_open_state|].
  intros image.
  destruct (decide ((size image).1 < (size image).2));
    (apply writes_bind; [apply writes_stateless; intros; apply fdiv_state|];
     intros factor;
     apply writes_bind; [apply writes_stateless; intros; apply scaled_state|];
     intros size1;
     apply writes_bind; [apply writes_stateless; intros; apply resize_state|];
     intros thumb1;
     apply writes_bind; [apply writes_write_file; left; reflexivity|];
     intros _;
     apply writes_bind; [apply writes_stateless; intros; apply fdiv_state|];
     intros widthFactor;
     apply writes_bind; [apply writes_stateless; intros; apply fdiv_state|];
     intros heightFactor;
     apply writes_bind; [apply writes_stateless; intros; apply scaled_state|];
     intros size2;
     apply writes_bind; [apply writes_stateless; intros; apply resize_state|];
     intros thumb2;
     apply writes_bind; [apply writes_write_file; right; reflexivity|];
     intros _; apply writes_stateless; reflexivity).
Qed.

Lemma longer_differs (a b c : string) :
  (0 < String.length b)%nat -> a +:+ c <> a +:+ b +:+ c.
Proof.
  intros Hb H. apply (f_equal String.length) in H.
  rewrite !length_append in H. lia.
Qed.

(** X8.  What making the thumbnails can change.  Whatever the outcome,
    no directory is created or removed, every file other than the two
    thumbnails is what it was, and the image that the thumbnails are made
    from is one of these files. *)
Theorem X8_thumbnails_change_nothing_else imageFileName directory fs :
  let fs' := (_generate_thumbnails imageFileName directory fs).2 in
  dirs fs' = dirs fs
  /\ (forall p,
        p <> (directory +:+ "/thumbnails") +:+ "/" +:+ imageFileName ->
        p <> (directory +:+ "/thumbnails") +:+ "/fixed_" +:+ imageFileName ->
        files fs' !! p = files fs !! p)
  /\ files fs' !! (directory +:+ "/" +:+ imageFileName)
     = files fs !! (directory +:+ "/" +:+ imageFileName).
Proof.
  destruct (writes_generate_thumbnails imageFileName directory fs)
    as (Hsub & Hsup & Hfiles).
  cbv zeta. split; [|split].
  - apply set_eq. intros d. split; [|apply Hsub].
    intros Hd. destruct (Hsup d Hd) as [H|[]]. exact H.
  - intros p H1 H2. apply Hfiles. tauto.
  - apply Hfiles.
    intros [H|H]; apply (f_equal String.length) in H;
      rewrite !length_append in H; simpl in H; lia.
Qed.


Lemma rounded_near w a c :
  0 < a -> Z.abs (2 * (rounded w a c * a - w * c)) <= a.
Proof.
  intros Ha. unfold rounded.
  pose proof (Z.div_mod (2 * w * c + a) (2 * a) ltac:(lia)) as Hdm.
  pose proof (Z.mod_pos_bound (2 * w * c + a) (2 * a) ltac:(lia)) as Hb.
  set (q := (2 * w * c + a) / (2 * a)) in *.
  set (r := (2 * w * c + a) mod (2 * a)) in *.
  apply Z.abs_le. nia.
Qed.

(** X9.  The first thumbnail keeps the aspect ratio of the image.  It
    is the image itself, resized to the height 480 (taller than wide) or
    180 (otherwise) and to the width that is nearest to the same
    proportion: it is off by at most half a pixel. *)
Theorem X9_first_thumbnail_keeps_the_aspect_ratio
    imageFileName directory fs image w h :
  files fs !! (directory +:+ "/" +:+ imageFileName) = Some (ImageFile image) ->
  size image = (w, h) ->
  0 < w -> 0 < h -> h <= 960 * w ->
  split_dir imageFileName = None ->
  (directory +:+ "/thumbnails") ∈ dirs fs ->
  exists r fs' tw th,
    _generate_thumbnails imageFileName directory fs = (Return r, fs')
    /\ files fs' !! ((directory +:+ "/thumbnails") +:+ "/" +:+ imageFileName)
       = Some (ImageFile (Resized image tw th))
    /\ th = (if decide (w < h) then 480 else 180)
    /\ Z.abs (2 * (tw * h - w * th)) <= h.
Proof.
  intros Hfile Hsize Hw Hh Hwide Hname Hdir.
  rewrite (generate_thumbnails_run _ _ _ image w h) by assumption.
  eexists _, _, _, _. split; [reflexivity|]. cbn [files].
  rewrite lookup_insert_ne
    by (intros E; symmetry in E; revert E; apply thumbnail_paths_differ).
  rewrite lookup_insert_eq. unfold aspect_thumbnail.
  split; [reflexivity|]. split.
  - apply rounded_same. exact Hh.
  - rewrite (rounded_same h) by exact Hh. apply rounded_near. exact Hh.
Qed.

(** *** [write_image_xml] *)


Lemma on_local_state {L A} (m : py L A) (l : L) (fs : filesystem) :
  (on_local m l fs).2 = fs.
Proof. unfold on_local. destruct (m l) as [[|] ?]; reflexivity. Qed.

(** X10.  Without the HTML pages only the XML file is written, and the
    image is not looked at.  When [html.generate] is false, git can be
    started and the directory of the plots exists, the call returns,
    whether or not there is an image; the one change is the XML file
    beside the plots, whose elements are the ten descriptions (the
    subtitle and the gallery only when given), the provenance and the
    keyword arguments, without [imageSize] and [orientation]. *)
Theorem X10_without_html_only_the_xml_file_is_written
    env cfg filePrefix componentName componentSubdirectory galleryGroup
    groupLink groupSubtitle gallery thumbnailDescription imageDescription
    imageCaption history kwargs fs result :
  html_generate cfg = false ->
  git_describe env = Return result ->
  output_plotsSubdirectory cfg ∈ dirs fs ->
  split_dir filePrefix = None ->
  exists root,
    write_image_xml env cfg filePrefix componentName
      componentSubdirectory galleryGroup groupLink groupSubtitle gallery
      thumbnailDescription imageDescription imageCaption history kwargs fs
    = (Return tt,
       {| dirs := dirs fs;
          files :=
            <[output_plotsSubdirectory cfg +:+ "/" +:+ filePrefix +:+ ".xml"
              := XmlFile root]> (files fs) |})
    /\ root.*1
       = ["imageFileName"; "componentName"; "componentSubdirectory";
          "galleryGroup"]
         ++ match groupSubtitle with
            | Some _ => ["groupSubtitle"]
            | None => []
            end
         ++ ["groupLink"]
         ++ match gallery with
            | Some _ => ["gallery"]
            | None => []
            end
         ++ ["thumbnailDescription"; "imageDescription"; "imageCaption";
             "history"; "cwd"; "user"; "curtime"; "host"; "githash"]
         ++ kwargs.*1.
Proof.
  intros Hgen Hgit Hplots Hprefix.
  destruct result as [[returncode stdout] stderr].
  assert (Hxml : split_dir (filePrefix +:+ ".xml") = None)
    by (apply split_dir_app; [exact Hprefix|reflexivity]).
  unfold write_image_xml. rewrite Hgen.
  rewrite run_bind, run_ret, run_bind. unfold on_local.
  rewrite (provenance_run _ _ _ _ _ _ Hgit).
  unfold tree_write. rewrite write_file_run.
  - eexists. split; [reflexivity|].
    rewrite !fmap_app, <- list_fmap_compose.
    destruct groupSubtitle, gallery; reflexivity.
  - change (dirname (output_plotsSubdirectory cfg +:+ "/" +:+ filePrefix
                     +:+ ".xml") ∈ dirs fs).
    rewrite dirname_join by exact Hxml. exact Hplots.
Qed.

Lemma tree_write_outcome root path fs :
  (tree_write root path fs).1 <> Return tt ->
  (tree_write root path fs).2 = fs.
Proof.
  unfold tree_write, write_file. rewrite run_bind. cbn [get_state].
  destruct (decide (dirname path ∈ dirs fs)); [|reflexivity].
  intros H. exfalso. apply H. reflexivity.
Qed.

Lemma writes_html_part (cfg : config) (filePrefix componentSubdirectory : string)
    (root : Element) :
  let imageFileName := filePrefix +:+ ".png" in
  let componentDirectory :=
    output_htmlSubdirectory cfg +:+ "/" +:+ componentSubdirectory in
  writes_within (fun _ => True)
    (fun p => p = componentDirectory +:+ "/" +:+ imageFileName
              \/ p = (componentDirectory +:+ "/thumbnails") +:+ "/"
                       +:+ imageFileName
              \/ p = (componentDirectory +:+ "/thumbnails") +:+ "/fixed_"
                       +:+ imageFileName)
    (_ ← try_except (makedirs (componentDirectory +:+ "/thumbnails"))
           "OSError" (mret tt);
     _ ← copyfile (output_plotsSubdirectory cfg +:+ "/" +:+ imageFileName)
           (componentDirectory +:+ "/" +:+ imageFileName);
     r ← _generate_thumbnails imageFileName componentDirectory;
     let '(imageSize, orientation) := r in
     mret (root ++
           [("imageSize",
             Some (pretty imageSize.1 +:+ "x" +:+ pretty imageSize.2));
            ("orientation", Some orientation)])).
Proof.
  intros imageFileName componentDirectory.
  apply writes_bind.
  { apply writes_try; [apply writes_makedirs; auto|].
    apply writes_stateless. reflexivity. }
  intros _. apply writes_bind; [apply writes_copyfile; auto|].
  intros _. apply writes_bind.
  { intros fs.
    destruct (writes_generate_thumbnails imageFileName componentDirectory fs)
      as (A & B & C).
    split; [exact A|]. split; [auto|].
    intros p Hp. apply C. tauto. }
  intros [imageSize orientation]. apply writes_stateless. reflexivity.
Qed.

(** X11.  The XML file is written last.  A call that does not return
    has not touched the XML file, whatever else it has done: no record
    is left of a plot whose copy, thumbnails or provenance failed. *)
Theorem X11_failed_call_leaves_no_xml_file
    env cfg filePrefix componentName componentSubdirectory galleryGroup
    groupLink groupSubtitle gallery thumbnailDescription imageDescription
    imageCaption history kwargs fs :
  let r :=
    write_image_xml env cfg filePrefix componentName
      componentSubdirectory galleryGroup groupLink groupSubtitle gallery
      thumbnailDescription imageDescription imageCaption history kwargs fs in
  r.1 <> Return tt ->
  files r.2 !! (output_plotsSubdirectory cfg +:+ "/" +:+ filePrefix +:+ ".xml")
  = files fs !! (output_plotsSubdirectory cfg +:+ "/" +:+ filePrefix +:+ ".xml").
Proof.
  cbv zeta. unfold write_image_xml.
  set (xml := output_plotsSubdirectory cfg +:+ "/" +:+ filePrefix +:+ ".xml").
  set (base := _ ++ _ ++ _ ++ _ ++ _).
  rewrite run_bind.
  match goal with
  | |- context [match ?m fs with _ => _ end] => set (html := m)
  end.
  assert (Hhtml : files (html fs).2 !! xml = files fs !! xml).
  { subst html. destruct (html_generate cfg); [|reflexivity].
    destruct (writes_html_part cfg filePrefix componentSubdirectory base fs)
      as (_ & _ & C).
    apply C. subst xml.
    intros [H|[H|H]]; revert H.
    - rewrite <- (append_assoc _ "/" (filePrefix +:+ ".png")).
      apply xml_differs.
    - rewrite <- (append_assoc _ "/" (filePrefix +:+ ".png")).
      apply xml_differs.
    - rewrite <- (append_assoc _ "/fixed_" (filePrefix +:+ ".png")).
      apply xml_differs. }
  destruct (html fs) as [[root|e] fs1]; cbn [fst snd] in *; [|auto].
  rewrite run_bind.
  pose proof (on_local_state (_provenance_command env history) root fs1)
    as Hloc.
  destruct (on_local (_provenance_command env history) root fs1)
    as [[root'|e] fs2]; cbn [fst snd] in *; subst fs2; [|auto].
  intros H. rewrite (tree_write_outcome _ _ _ H). exact Hhtml.
Qed.


Lemma makedirs_run path fs :
  path ∉ dirs fs -> files fs !! path = None ->
  makedirs path fs
  = (Return tt,
     {| dirs := dirs fs ∪ list_to_set (upwards (S (String.length path)) path);
        files := files fs |}).
Proof.
  intros Hd Hf. unfold makedirs. rewrite run_bind. cbn [get_state].
  rewrite decide_False; [reflexivity|].
  intros [H|H]; [exact (Hd H)|]. rewrite Hf in H. destruct H. discriminate.
Qed.

Lemma upwards_two (dir name : string) :
  split_dir name = None -> dir <> "" ->
  let path := dir +:+ "/" +:+ name in
  path ∈ upwards (S (String.length path)) path
  /\ dir ∈ upwards (S (String.length path)) path.
Proof.
  intros Hname Hdir path.
  assert (Hlen : exists n, String.length path = S (S n)).
  { subst path. rewrite !length_append.
    destruct dir as [|c dir]; [done|]. simpl.
    exists (String.length dir + String.length name)%nat. lia. }
  destruct Hlen as [n Hn]. rewrite Hn.
  assert (Hpath : path <> "").
  { intros E. rewrite E in Hn. discriminate Hn. }
  assert (Hd : dirname path = dir) by (apply dirname_join; exact Hname).
  clearbody path.
  change (upwards (S (S (S n))) path)
    with (if decide (path = "") then []
          else path :: upwards (S (S n)) (dirname path)).
  destruct (decide (path = "")) as [|_]; [done|]. rewrite Hd.
  change (upwards (S (S n)) dir)
    with (if decide (dir = "") then []
          else dir :: upwards (S n) (dirname dir)).
  destruct (decide (dir = "")) as [|_]; [done|].
  split; [apply list_elem_of_here|].
  apply list_elem_of_further, list_elem_of_here.
Qed.


(** X13.  A plot that was not saved.  With the HTML pages on and no
    image at the place of the plot, the call raises the [IOError] of
    [shutil.copyfile] and no file is written or changed; the
    thumbnails directory may have been created by then. *)
Theorem X13_missing_image_is_an_IOError
    env cfg filePrefix componentName componentSubdirectory galleryGroup
    groupLink groupSubtitle gallery thumbnailDescription imageDescription
    imageCaption history kwargs fs :
  html_generate cfg = true ->
  files fs !! (output_plotsSubdirectory cfg +:+ "/" +:+ filePrefix +:+ ".png")
  = None ->
  exists fs',
    write_image_xml env cfg filePrefix componentName
      componentSubdirectory galleryGroup groupLink groupSubtitle gallery
      thumbnailDescription imageDescription imageCaption history kwargs fs
    = (Raise (IOError ("No such file or directory: "
                       +:+ output_plotsSubdirectory cfg +:+ "/"
                       +:+ filePrefix +:+ ".png")), fs')
    /\ files fs' = files fs
    /\ (forall d, d ∈ dirs fs -> d ∈ dirs fs').
Proof.
  intros Hgen Hfile.
  unfold write_image_xml. rewrite Hgen.
  rewrite run_bind, run_bind.
  unfold try_except, makedirs at 1. rewrite run_bind. cbn [get_state].
  match goal with
  | |- context [decide ?P] => destruct (decide P)
  end.
  - cbn [raise exn_class OSError]. rewrite decide_True by reflexivity.
    rewrite run_ret, run_bind. unfold copyfile. rewrite run_bind.
    cbn [get_state]. rewrite Hfile.
    eexists. split; [reflexivity|]. split; [reflexivity|]. auto.
  - cbn [modify]. rewrite run_bind. unfold copyfile. rewrite run_bind.
    cbn [get_state files]. rewrite Hfile.
    eexists. split; [reflexivity|]. split; [reflexivity|].
    intros d Hd. cbn [dirs]. apply elem_of_union. left. exact Hd.
Qed.



End ImageMore.

Section ImageMoreExamples.
Import ImageXml.

Lemma X6_witness :
  exists root',
    _provenance_command git_environ None [] = (Return tt, root')
    /\ last root' = Some ("githash", Some "v1.0-2-g1a2b3c4").
Proof.
  apply (X6_githash_is_the_line_git_prints git_environ None []
           "v1.0-2-g1a2b3c4" ("v1.0-2-g1a2b3c4" +:+ String newline "") "").
  - reflexivity.
  - vm_compute. intuition discriminate.
  - right. reflexivity.
Defined.

Lemma X7_witness :
  exists fields,
    _provenance_command no_git_environ (Some "ncclimo") []
    = (Raise (OSError "No such file or directory"), [] ++ fields)
    /\ fields.*1 = ["history"; "cwd"; "user"; "curtime"; "host"].
Proof.
  apply (X7_git_that_cannot_start no_git_environ (Some "ncclimo") []
           (OSError "No such file or directory")).
  reflexivity.
Defined.

Lemma X9_witness :
  exists r fs' tw th,
    _generate_thumbnails "mld.png" "/out/html/ocean"
      (gallery_fs (Picture 800 300)) = (Return r, fs')
    /\ files fs' !! (("/out/html/ocean" +:+ "/thumbnails") +:+ "/"
                      +:+ "mld.png")
       = Some (ImageFile (Resized (Picture 800 300) tw th))
    /\ th = (if decide (800 < 300) then 480 else 180)
    /\ Z.abs (2 * (tw * 300 - 800 * th)) <= 300.
Proof.
  apply (X9_first_thumbnail_keeps_the_aspect_ratio "mld.png"
           "/out/html/ocean" (gallery_fs (Picture 800 300))
           (Picture 800 300) 800 300).
  - vm_compute. reflexivity.
  - reflexivity.
  - lia.
  - lia.
  - lia.
  - reflexivity.
  - vm_compute. reflexivity.
Defined.

Lemma X10_witness :
  exists root,
    write_image_xml sample_environ no_html_config "mld" "Ocean" "ocean"
      "Mixed-Layer Depth" "mld" None (Some "ANN") "ANN" "MLD" "Mean MLD"
      None [("season", "ANN")] bare_fs
    = (Return tt,
       {| dirs := dirs bare_fs;
          files :=
            <[output_plotsSubdirectory no_html_config +:+ "/" +:+ "mld"
                +:+ ".xml"
              := XmlFile root]> (files bare_fs) |})
    /\ root.*1
       = ["imageFileName"; "componentName"; "componentSubdirectory";
          "galleryGroup"]
         ++ []
         ++ ["groupLink"]
         ++ ["gallery"]
         ++ ["thumbnailDescription"; "imageDescription"; "imageCaption";
             "history"; "cwd"; "user"; "curtime"; "host"; "githash"]
         ++ [("season", "ANN")].*1.
Proof.
  apply (X10_without_html_only_the_xml_file_is_written sample_environ
           no_html_config "mld" "Ocean" "ocean" "Mixed-Layer Depth" "mld"
           None (Some "ANN") "ANN" "MLD" "Mean MLD" None [("season", "ANN")]
           bare_fs (128, "", "fatal: not a git repository")).
  - reflexivity.
  - reflexivity.
  - vm_compute. reflexivity.
  - reflexivity.
Defined.

Lemma X11_witness :
  files
    (write_image_xml no_git_environ no_html_config "mld" "Ocean" "ocean"
       "Mixed-Layer Depth" "mld" None (Some "ANN") "ANN" "MLD" "Mean MLD"
       None [] bare_fs).2
    !! (output_plotsSubdirectory no_html_config +:+ "/" +:+ "mld" +:+ ".xml")
  = files bare_fs
      !! (output_plotsSubdirectory no_html_config +:+ "/" +:+ "mld"
          +:+ ".xml").
Proof.
  apply (X11_failed_call_leaves_no_xml_file no_git_environ no_html_config
           "mld" "Ocean" "ocean" "Mixed-Layer Depth" "mld" None (Some "ANN")
           "ANN" "MLD" "Mean MLD" None [] bare_fs).
  vm_compute. discriminate.
Defined.


Lemma X13_witness :
  exists fs',
    write_image_xml sample_environ sample_config "mld" "Ocean" "ocean"
      "Mixed-Layer Depth" "mld" None (Some "ANN") "ANN" "MLD" "Mean MLD"
      None [] bare_fs
    = (Raise (IOError ("No such file or directory: "
                       +:+ output_plotsSubdirectory sample_config +:+ "/"
                       +:+ "mld" +:+ ".png")), fs')
    /\ files fs' = files bare_fs
    /\ (forall d, d ∈ dirs bare_fs -> d ∈ dirs fs').
Proof.
  apply (X13_missing_image_is_an_IOError sample_environ sample_config
           "mld" "Ocean" "ocean" "Mixed-Layer Depth" "mld" None (Some "ANN")
           "ANN" "MLD" "Mean MLD" None [] bare_fs).
  - reflexivity.
  - vm_compute. reflexivity.
Defined.


End ImageMoreExamples.


(** ** The 1-D plot renderer: further properties *)

Section OnedMore.
Import Oned.
Variable array : Type.
Variable add sub : array -> array -> array.

Abbreviation arguments := (arguments array).
Abbreviation command := (command array).
Abbreviation series_loop := (series_loop array add sub).
Abbreviation plot_1D := (plot_1D array add sub).
Abbreviation series_commands := (series_commands array add sub).
Abbreviation has_data := (has_data array).
Abbreviation legend_after := (legend_after array).
Abbreviation decorations := (decorations array).
Abbreviation drawing := (drawing array).
Abbreviation drawn a :=
  (fun k cs => Oned.series_commands array add sub a k = Some cs).
Abbreviation flag a pl ks :=
  (foldl (fun b k => Oned.legend_after array a k b) pl ks).

Lemma index_or_run {A} (l : option (list A)) k (d : A) (fig : list command) :
  index_or array l k d fig
  = match lookup_or l k d with
    | Some v => (Return v, fig)
    | None => (Raise (IndexError "list index out of range"), fig)
    end.
Proof.
  destruct l as [l|]; [|reflexivity]. simpl. unfold index.
  destruct (l !! k); reflexivity.
Qed.

Lemma series_loop_step (a : arguments) k ks pl (fig : list command) :
  series_loop a (k :: ks) pl fig
  = match series_commands a k with
    | Some cs => series_loop a ks (legend_after a k pl) (fig ++ cs)
    | None => (Raise (IndexError "list index out of range"), fig)
    end.
Proof.
  cbn [Oned.series_loop].
  unfold Oned.series_commands, Oned.legend_after, Oned.has_data, index.
  rewrite run_bind.
  destruct (xArrays a !! k) as [ox|]; [|reflexivity].
  rewrite run_ret, run_bind.
  destruct (fieldArrays a !! k) as [f|]; [|reflexivity].
  rewrite run_ret, run_bind.
  destruct (errArrays a !! k) as [oe|]; [|reflexivity].
  rewrite run_ret.
  destruct ox as [x|]; [|cbn; rewrite app_nil_r; reflexivity].
  cbn [mbind option_bind].
  rewrite run_bind.
  assert (Hrest : forall label pl',
    (index_or array (lineColors array a) k "k"
     ≫= λ color,
          index_or array (markers array a) k None
          ≫= λ marker,
               index_or array (lineStyles array a) k "-"
               ≫= λ linestyle,
                    index_or array (lineWidths array a) k 1%Q
                    ≫= λ linewidth,
                         plt array
                           (plot x f color linestyle marker linewidth label)
                         ≫= λ _,
                              match oe with
                              | Some errArray =>
                                  plt array
                                    (fill_between x f (add f errArray) color
                                       (1 # 5))
                                  ≫= λ _,
                                       plt array
                                         (fill_between x f
                                            (sub f errArray) color (1 # 5))
                              | None => mret ()
                              end
                              ≫= λ _, series_loop a ks pl') fig
    = match
        lookup_or (lineColors array a) k "k"
        ≫= λ color,
             lookup_or (markers array a) k None
             ≫= λ marker,
                  lookup_or (lineStyles array a) k "-"
                  ≫= λ linestyle,
                       lookup_or (lineWidths array a) k 1%Q
                       ≫= λ linewidth,
                            Some
                              (plot x f color linestyle marker linewidth
                                 label
                               :: match oe with
                                  | Some errArray =>
                                      [fill_between x f (add f errArray)
                                         color (1 # 5);
                                       fill_between x f (sub f errArray)
                                         color (1 # 5)]
                                  | None => []
                                  end)
      with
      | Some cs => series_loop a ks pl' (fig ++ cs)
      | None => (Raise (IndexError "list index out of range"), fig)
      end).
  { intros label pl'.
    rewrite run_bind, index_or_run.
    destruct (lookup_or (lineColors array a) k "k") as [color|];
      [|reflexivity].
    rewrite run_bind, index_or_run.
    destruct (lookup_or (markers array a) k None) as [marker|];
      [|reflexivity].
    rewrite run_bind, index_or_run.
    destruct (lookup_or (lineStyles array a) k "-") as [linestyle|];
      [|reflexivity].
    rewrite run_bind, index_or_run.
    destruct (lookup_or (lineWidths array a) k 1%Q) as [linewidth|];
      [|reflexivity].
    cbn [mbind option_bind]. rewrite run_bind. cbn [plt modify].
    rewrite run_bind.
    destruct oe as [errArray|].
    - rewrite run_bind. cbn [plt modify]. rewrite <- !app_assoc.
      reflexivity.
    - rewrite run_ret. reflexivity. }
  destruct (legendText a) as [labels|].
  - rewrite run_bind. destruct (labels !! k) as [label|]; [|reflexivity].
    rewrite run_ret, run_ret. apply Hrest.
  - rewrite run_ret. apply Hrest.
Qed.


Lemma series_loop_returns (a : arguments) ks css :
  Forall2 (drawn a) ks css ->
  forall pl (fig : list command),
    series_loop a ks pl fig = (Return (flag a pl ks), fig ++ concat css).
Proof.
  induction 1 as [|k cs ks css Hk _ IH]; intros pl fig.
  - simpl. rewrite app_nil_r. reflexivity.
  - rewrite series_loop_step, Hk, IH. simpl. rewrite app_assoc. reflexivity.
Qed.

Lemma series_loop_raises (a : arguments) ks :
  Exists (fun k => series_commands a k = None) ks ->
  forall pl (fig : list command),
    exists ks1 css,
      series_loop a ks pl fig
      = (Raise (IndexError "list index out of range"), fig ++ concat css)
      /\ Forall2 (drawn a) ks1 css /\ ks1 `prefix_of` ks.
Proof.
  induction ks as [|k ks IH]; intros HE pl fig; [inversion HE|].
  rewrite series_loop_step.
  destruct (series_commands a k) as [cs|] eqn:Hk.
  - apply Exists_cons in HE as [HE|HE]; [congruence|].
    destruct (IH HE (legend_after a k pl) (fig ++ cs))
      as (ks1 & css & Hrun & Hdrawn & Hprefix).
    exists (k :: ks1), (cs :: css). split; [|split].
    + rewrite Hrun. simpl. rewrite app_assoc. reflexivity.
    + constructor; assumption.
    + apply prefix_cons. exact Hprefix.
  - exists [], []. split; [|split].
    + simpl. rewrite app_nil_r. reflexivity.
    + constructor.
    + apply prefix_nil.
Qed.

Lemma series_dichotomy (a : arguments) ks :
  (exists css, Forall2 (drawn a) ks css)
  \/ Exists (fun k => series_commands a k = None) ks.
Proof.
  induction ks as [|k ks [[css IH]|IH]].
  - left. exists []. constructor.
  - destruct (series_commands a k) as [cs|] eqn:Hk.
    + left. exists (cs :: css). constructor; assumption.
    + right. apply Exists_cons_hd. exact Hk.
  - right. apply Exists_cons_tl. exact IH.
Qed.

Lemma bind_emits {B} (m : py (list command) unit) cs
    (k : unit -> py (list command) B) (fig : list command) :
  m fig = (Return tt, fig ++ cs) -> (m ≫= k) fig = k tt (fig ++ cs).
Proof. intros H. rewrite run_bind, H. reflexivity. Qed.

Lemma when_emits c x (fig : list command) :
  when array c (plt array x) fig
  = (Return tt, fig ++ (if c then [x] else [])).
Proof. destruct c; simpl; [reflexivity|]. rewrite app_nil_r. reflexivity. Qed.

Lemma option_emits {A} (o : option A) (f : A -> command) (fig : list command) :
  match o with
  | Some x => plt array (f x)
  | None => mret tt
  end fig
  = (Return tt, fig ++ match o with Some x => [f x] | None => [] end).
Proof. destruct o; simpl; [reflexivity|]. rewrite app_nil_r. reflexivity. Qed.

Lemma decorations_run cfg (a : arguments) plotLegend (fig : list command) :
  (plt array grid
   ≫= λ _, plt array (axhline 0 "-" "k")
   ≫= λ _, when array
             (plotLegend && bool_decide (1 < length (xArrays a))%nat)
             (plt array legend)
   ≫= λ _, match title a with
           | Some title =>
               plt array
                 (title_ (limit_title title (maxTitleLength a))
                    (from_option SizeInt (SizeStr (plot_titleFontSize cfg))
                       (titleFontSize array a))
                    (plot_titleFontColor cfg) (plot_titleFontWeight cfg))
           | None => mret tt
           end
   ≫= λ _, match xlabel array a with
           | Some xlabel =>
               plt array
                 (xlabel_ xlabel
                    (from_option SizeInt (SizeStr (plot_axisFontSize cfg))
                       (axisFontSize array a)))
           | None => mret tt
           end
   ≫= λ _, match ylabel array a with
           | Some ylabel =>
               plt array
                 (ylabel_ ylabel
                    (from_option SizeInt (SizeStr (plot_axisFontSize cfg))
                       (axisFontSize array a)))
           | None => mret tt
           end
   ≫= λ _, when array (invertYAxis array a) (plt array invert_yaxis)
   ≫= λ _, when array (truthy (xLim array a))
             (plt array (xlim (default [] (xLim array a))))
   ≫= λ _, when array (truthy (yLim array a))
             (plt array (ylim (default [] (yLim array a))))
   ≫= λ _, match fileout array a with
           | Some fileout => plt array (savefig fileout)
           | None => mret tt
           end
   ≫= λ _, plt array close) fig
  = (Return tt, fig ++ decorations cfg a plotLegend).
Proof.
  unfold Oned.decorations.
  rewrite (bind_emits _ [grid]) by reflexivity.
  rewrite (bind_emits _ [axhline 0 "-" "k"]) by reflexivity.
  rewrite (bind_emits _ _ _ _ (when_emits _ _ _)).
  rewrite (bind_emits _ _ _ _
             (option_emits (title a)
                (fun t => title_ (limit_title t (maxTitleLength a)) _ _ _) _)).
  rewrite (bind_emits _ _ _ _
             (option_emits (xlabel array a) (fun t => xlabel_ t _) _)).
  rewrite (bind_emits _ _ _ _
             (option_emits (ylabel array a) (fun t => ylabel_ t _) _)).
  rewrite (bind_emits _ _ _ _ (when_emits _ _ _)).
  rewrite (bind_emits _ _ _ _ (when_emits _ _ _)).
  rewrite (bind_emits _ _ _ _ (when_emits _ _ _)).
  rewrite (bind_emits _ _ _ _
             (option_emits (fileout array a) (fun f => savefig f) _)).
  unfold plt, modify. rewrite <- !app_assoc. reflexivity.
Qed.

Lemma plot_1D_run cfg (a : arguments) (fig : list command) :
  let ks := seq 0 (length (xArrays a)) in
  let head :=
    [rc_font (default (plot_defaultFontSize cfg) (defaultFontSize array a));
     figure (figsize array a) (default (plot_dpi cfg) (dpi array a))] in
  (exists css,
     Forall2 (drawn a) ks css
     /\ plot_1D cfg a fig
        = (Return tt,
           fig ++ head ++ concat css
               ++ decorations cfg a (flag a false ks)))
  \/ (exists ks1 css,
        plot_1D cfg a fig
        = (Raise (IndexError "list index out of range"),
           fig ++ head ++ concat css)
        /\ Forall2 (drawn a) ks1 css
        /\ ks1 `prefix_of` ks
        /\ Exists (fun k => series_commands a k = None) ks).
Proof.
  intros ks head. unfold Oned.plot_1D.
  rewrite (bind_emits _ [rc_font _]) by reflexivity.
  rewrite (bind_emits _ [figure _ _]) by reflexivity.
  rewrite run_bind. fold ks.
  destruct (series_dichotomy a ks) as [[css Hcss]|HE].
  - left. exists css. split; [exact Hcss|].
    rewrite (series_loop_returns a ks css Hcss).
    rewrite decorations_run. rewrite <- !app_assoc. reflexivity.
  - right.
    match goal with
    | |- context [series_loop a ks false ?f] =>
        destruct (series_loop_raises a ks HE false f)
          as (ks1 & css & Hrun & Hdrawn & Hprefix)
    end.
    exists ks1, css. rewrite Hrun. rewrite <- !app_assoc.
    split; [reflexivity|]. auto.
Qed.


(** What a series draws, read back from [series_commands]. *)
Lemma series_commands_inv (a : arguments) k cs :
  series_commands a k = Some cs ->
  exists ox f oe,
    xArrays a !! k = Some ox /\ fieldArrays a !! k = Some f
    /\ errArrays a !! k = Some oe
    /\ match ox with
       | None => cs = []
       | Some x =>
           exists label c m ls lw,
             match legendText a with
             | Some l =>
                 exists t, l !! k = Some t
                   /\ label
                      = (fun t => limit_title t (maxTitleLength a)) <$> t
             | None => label = None
             end
             /\ lookup_or (lineColors array a) k "k" = Some c
             /\ lookup_or (markers array a) k None = Some m
             /\ lookup_or (lineStyles array a) k "-" = Some ls
             /\ lookup_or (lineWidths array a) k 1%Q = Some lw
             /\ cs = plot x f c ls m lw label
                     :: match oe with
                        | Some e =>
                            [fill_between x f (add f e) c (1 # 5);
                             fill_between x f (sub f e) c (1 # 5)]
                        | None => []
                        end
       end.
Proof.
  unfold Oned.series_commands. intros H.
  destruct (xArrays a !! k) as [ox|]; [|discriminate].
  destruct (fieldArrays a !! k) as [f|]; [|discriminate].
  destruct (errArrays a !! k) as [oe|]; [|discriminate].
  cbn [mbind option_bind] in H.
  exists ox, f, oe. repeat (split; [reflexivity|]).
  destruct ox as [x|]; [|congruence].
  destruct (lookup_or (lineColors array a) k "k") as [c|] eqn:Hc.
  2:{ destruct (legendText a) as [l|]; [destruct (l !! k)|]; discriminate. }
  destruct (lookup_or (markers array a) k None) as [m|] eqn:Hm.
  2:{ destruct (legendText a) as [l|]; [destruct (l !! k)|]; discriminate. }
  destruct (lookup_or (lineStyles array a) k "-") as [ls|] eqn:Hls.
  2:{ destruct (legendText a) as [l|]; [destruct (l !! k)|]; discriminate. }
  destruct (lookup_or (lineWidths array a) k 1%Q) as [lw|] eqn:Hlw.
  2:{ destruct (legendText a) as [l|]; [destruct (l !! k)|]; discriminate. }
  destruct (legendText a) as [l|].
  - destruct (l !! k) as [t|]; [|discriminate].
    cbn in H. injection H as <-.
    eexists _, c, m, ls, lw. split; [exists t; split; reflexivity|].
    repeat (split; [reflexivity|]). reflexivity.
  - cbn in H. injection H as <-.
    eexists _, c, m, ls, lw. repeat (split; [reflexivity|]). reflexivity.
Qed.

Lemma lookup_or_is_Some {A} (l : option (list A)) k (d : A) :
  is_Some (lookup_or l k d)
  <-> forall l', l = Some l' -> (k < length l')%nat.
Proof.
  destruct l as [l|]; simpl.
  - rewrite lookup_lt_is_Some. split; [intros H l' [= <-]; exact H|auto].
  - split; [discriminate|eauto].
Qed.

(** A series can be drawn when the three lists of arrays reach its
    index and, if it has data, the lists of labels and styles that are
    given reach it too. *)
Lemma series_commands_is_Some (a : arguments) k :
  is_Some (series_commands a k)
  <-> (k < length (xArrays a))%nat
      /\ (k < length (fieldArrays a))%nat
      /\ (k < length (errArrays a))%nat
      /\ ((exists x, xArrays a !! k = Some (Some x)) ->
          (forall l, legendText a = Some l -> (k < length l)%nat)
          /\ (forall l, lineColors array a = Some l -> (k < length l)%nat)
          /\ (forall l, markers array a = Some l -> (k < length l)%nat)
          /\ (forall l, lineStyles array a = Some l -> (k < length l)%nat)
          /\ (forall l, lineWidths array a = Some l -> (k < length l)%nat)).
Proof.
  rewrite <- !lookup_lt_is_Some.
  rewrite <- (lookup_or_is_Some (legendText a) k None).
  rewrite <- (lookup_or_is_Some (lineColors array a) k "k").
  rewrite <- (lookup_or_is_Some (markers array a) k None).
  rewrite <- (lookup_or_is_Some (lineStyles array a) k "-").
  rewrite <- (lookup_or_is_Some (lineWidths array a) k 1%Q).
  unfold Oned.series_commands.
  destruct (xArrays a !! k) as [ox|].
  2:{ split; [intros [? [=]]|intros ([? [=]] & _)]. }
  destruct (fieldArrays a !! k) as [f|].
  2:{ split; [intros [? [=]]|intros (_ & [? [=]] & _)]. }
  destruct (errArrays a !! k) as [oe|].
  2:{ split; [intros [? [=]]|intros (_ & _ & [? [=]] & _)]. }
  cbn [mbind option_bind].
  destruct ox as [x|].
  2:{ split; [|eauto]. intros _. do 3 (split; [eauto|]).
      intros [? [=]]. }
  destruct (legendText a) as [l|]; cbn [Oned.lookup_or];
    [destruct (l !! k) as [t|]|];
    cbn [fmap option_fmap option_map mbind option_bind];
    destruct (lookup_or (lineColors array a) k "k") as [c|];
    destruct (lookup_or (markers array a) k None) as [m|];
    destruct (lookup_or (lineStyles array a) k "-") as [ls|];
    destruct (lookup_or (lineWidths array a) k 1%Q) as [lw|];
    cbn [mbind option_bind];
    (split;
     [ intros [? H]; try discriminate H;
       do 3 (split; [eauto|]); intros _; repeat split; eauto
     | intros (_ & _ & _ & H); destruct H as (H1 & H2 & H3 & H4 & H5);
       [eauto|];
       first [ solve [eauto]
             | match goal with
               | H : is_Some None |- _ => destruct H as [? [=]]
               end ] ]).
Qed.

Lemma Forall2_drawn_lookup (a : arguments) ks css k :
  Forall2 (drawn a) ks css -> k ∈ ks -> is_Some (series_commands a k).
Proof.
  intros H Hk. induction H as [|k' cs ks css Hk' _ IH]; [inversion Hk|].
  apply elem_of_cons in Hk as [->|Hk]; [eauto|auto].
Qed.

(** X15.  What a call that returns was given.  When [plot_1D]
    returns, [fieldArrays] and [errArrays] reach every index of
    [xArrays], also where the entry of [xArrays] is [None], and at the
    index of every series with data so does each list of labels,
    colours, markers, styles and widths that is given: with a shorter
    list the call does not return. *)
Theorem X15_returns_only_if_the_lists_are_long_enough
    cfg (a : arguments) (fig : list command) :
  (plot_1D cfg a fig).1 = Return tt ->
  forall k, (k < length (xArrays a))%nat ->
    (k < length (fieldArrays a))%nat
    /\ (k < length (errArrays a))%nat
    /\ ((exists x, xArrays a !! k = Some (Some x)) ->
        (forall l, legendText a = Some l -> (k < length l)%nat)
        /\ (forall l, lineColors array a = Some l -> (k < length l)%nat)
        /\ (forall l, markers array a = Some l -> (k < length l)%nat)
        /\ (forall l, lineStyles array a = Some l -> (k < length l)%nat)
        /\ (forall l, lineWidths array a = Some l -> (k < length l)%nat)).
Proof.
  destruct (plot_1D_run cfg a fig)
    as [(css & Hcss & Hrun)|(ks1 & css & Hrun & _)];
    rewrite Hrun; cbn [fst]; [|discriminate].
  intros _ k Hk.
  assert (Hin : k ∈ seq 0 (length (xArrays a)))
    by (apply elem_of_seq; lia).
  apply (Forall2_drawn_lookup _ _ _ _ Hcss) in Hin.
  apply series_commands_is_Some in Hin. tauto.
Qed.


Lemma elem_of_concat {A} (x : A) (ls : list (list A)) :
  x ∈ concat ls <-> exists l, l ∈ ls /\ x ∈ l.
Proof.
  induction ls as [|l ls IH]; simpl.
  - split; [intros H; inversion H|intros (l & H & _); inversion H].
  - rewrite elem_of_app, IH. split.
    + intros [H|(l' & H1 & H2)].
      * exists l. split; [apply list_elem_of_here|exact H].
      * exists l'. split; [apply list_elem_of_further, H1|exact H2].
    + intros (l' & H1 & H2). apply elem_of_cons in H1 as [->|H1]; eauto.
Qed.

Lemma drawn_elem (a : arguments) ks css c :
  Forall2 (drawn a) ks css -> c ∈ concat css ->
  exists k cs, k ∈ ks /\ series_commands a k = Some cs /\ c ∈ cs.
Proof.
  intros H Hc. apply elem_of_concat in Hc as (cs & Hcs & Hc).
  induction H as [|k cs' ks css Hk _ IH]; [inversion Hcs|].
  apply elem_of_cons in Hcs as [->|Hcs].
  - exists k, cs'. split; [apply list_elem_of_here|auto].
  - destruct (IH Hcs) as (k' & cs'' & ? & ? & ?).
    exists k', cs''. split; [apply list_elem_of_further; assumption|auto].
Qed.

Lemma drawn_complete (a : arguments) ks css k cs c :
  Forall2 (drawn a) ks css -> k ∈ ks -> series_commands a k = Some cs ->
  c ∈ cs -> c ∈ concat css.
Proof.
  intros H Hk Hcs Hc. apply elem_of_concat. exists cs. split; [|exact Hc].
  induction H as [|k' cs' ks css Hk' _ IH]; [inversion Hk|].
  apply elem_of_cons in Hk as [->|Hk].
  - replace cs' with cs by congruence. apply list_elem_of_here.
  - apply list_elem_of_further. auto.
Qed.

Lemma series_commands_drawing (a : arguments) k cs :
  series_commands a k = Some cs -> Forall (fun c => drawing c = true) cs.
Proof.
  intros H. apply series_commands_inv in H
    as (ox & f & oe & _ & _ & _ & H).
  destruct ox as [x|]; [|subst cs; constructor].
  destruct H as (label & c & m & ls & lw & _ & _ & _ & _ & _ & ->).
  destruct oe; repeat constructor.
Qed.

Lemma drawn_drawing (a : arguments) ks css :
  Forall2 (drawn a) ks css -> Forall (fun c => drawing c = true) (concat css).
Proof.
  induction 1 as [|k cs ks css Hk _ IH]; simpl; [constructor|].
  apply Forall_app. split; [|exact IH].
  eapply series_commands_drawing, Hk.
Qed.

Ltac pieces :=
  repeat (apply Forall_app; split);
  repeat match goal with
         | |- Forall _ (match ?o with _ => _ end) => destruct o
         end;
  repeat constructor; try discriminate; intros; discriminate.

(** What follows the loop: the legend is the third command if any, the
    file is saved just before the figure is closed, and nothing else
    draws, saves or closes. *)
Lemma decorations_legend cfg (a : arguments) pl :
  exists rest,
    decorations cfg a pl
    = [grid; axhline 0 "-" "k"]
      ++ (if pl && bool_decide (1 < length (xArrays a))%nat
          then [legend] else [])
      ++ rest
    /\ Forall (fun c => c <> legend) rest.
Proof.
  unfold Oned.decorations. eexists. split; [reflexivity|]. pieces.
Qed.

Lemma decorations_close cfg (a : arguments) pl :
  exists before,
    decorations cfg a pl
    = before
      ++ match fileout array a with
         | Some fileout => [savefig fileout]
         | None => []
         end
      ++ [close]
    /\ Forall (fun c => c <> close /\ forall f, c <> savefig f) before.
Proof.
  unfold Oned.decorations.
  exists ([grid; axhline 0 "-" "k"]
    ++ (if pl && bool_decide (1 < length (xArrays a))%nat
        then [legend] else [])
    ++ match title a with
       | Some title =>
           [title_ (limit_title title (maxTitleLength a))
              (from_option SizeInt (SizeStr (plot_titleFontSize cfg))
                 (titleFontSize array a))
              (plot_titleFontColor cfg) (plot_titleFontWeight cfg)]
       | None => []
       end
    ++ match xlabel array a with
       | Some xlabel =>
           [xlabel_ xlabel
              (from_option SizeInt (SizeStr (plot_axisFontSize cfg))
                 (axisFontSize array a))]
       | None => []
       end
    ++ match ylabel array a with
       | Some ylabel =>
           [ylabel_ ylabel
              (from_option SizeInt (SizeStr (plot_axisFontSize cfg))
                 (axisFontSize array a))]
       | None => []
       end
    ++ (if invertYAxis array a then [invert_yaxis] else [])
    ++ (if truthy (xLim array a) then [xlim (default [] (xLim array a))]
        else [])
    ++ (if truthy (yLim array a) then [ylim (default [] (yLim array a))]
        else [])).
  split; [rewrite <- !app_assoc; reflexivity|]. pieces.
Qed.

Lemma decorations_drawing cfg (a : arguments) pl :
  Forall (fun c => drawing c = false) (decorations cfg a pl).
Proof. unfold Oned.decorations. pieces. Qed.

Lemma drawing_not_closing (cs : list command) :
  Forall (fun c => drawing c = true) cs ->
  Forall (fun c => c <> close /\ forall f, c <> savefig f) cs.
Proof.
  intros H. eapply Forall_impl; [exact H|]. intros c Hc.
  split; [|intros f]; intros ->; discriminate Hc.
Qed.

(** X16.  The figure is closed only when the call returns.  The
    commands always start with the font size and the new figure, each
    from the argument or else from the configuration.  On return they
    end with saving the file, if [fileout] is given, and closing the
    figure, and nothing is saved or closed before.  When the call
    raises, nothing has been saved and the figure is left open. *)
Theorem X16_figure_is_closed_only_on_return
    cfg (a : arguments) (fig : list command) :
  exists cmds,
    (plot_1D cfg a fig).2 = fig ++ cmds
    /\ take 2 cmds
       = [rc_font (default (plot_defaultFontSize cfg)
                     (defaultFontSize array a));
          figure (figsize array a) (default (plot_dpi cfg) (dpi array a))]
    /\ ((plot_1D cfg a fig).1 = Return tt ->
        exists body,
          cmds = body
                 ++ match fileout array a with
                    | Some fileout => [savefig fileout]
                    | None => []
                    end
                 ++ [close]
          /\ Forall (fun c => c <> close /\ forall f, c <> savefig f) body)
    /\ ((plot_1D cfg a fig).1 <> Return tt ->
        Forall (fun c => c <> close /\ forall f, c <> savefig f) cmds).
Proof.
  destruct (plot_1D_run cfg a fig)
    as [(css & Hcss & Hrun)|(ks1 & css & Hrun & Hcss & _ & _)];
    rewrite Hrun; cbn [fst snd]; eexists; (split; [reflexivity|]);
    (split; [reflexivity|]); split.
  - intros _.
    destruct (decorations_close cfg a
                (flag a false (seq 0 (length (xArrays a)))))
      as (before & -> & Hbefore).
    eexists. split; [rewrite !app_assoc; reflexivity|].
    rewrite <- !app_assoc.
    apply Forall_app. split; [pieces|]. apply Forall_app. split.
    + apply (drawing_not_closing (concat css)).
      exact (drawn_drawing _ _ _ Hcss).
    + exact Hbefore.
  - intros H. exfalso. apply H. reflexivity.
  - discriminate.
  - intros _. apply Forall_app. split; [pieces|].
    apply (drawing_not_closing (concat css)).
    exact (drawn_drawing _ _ _ Hcss).
Qed.

Lemma flag_true (a : arguments) ks pl :
  flag a pl ks = true
  <-> pl = true
      \/ (is_Some (legendText a)
          /\ exists k x, k ∈ ks /\ xArrays a !! k = Some (Some x)).
Proof.
  revert pl. induction ks as [|k ks IH]; intros pl; simpl.
  - split; [auto|]. intros [H|(_ & k & x & H & _)]; [exact H|inversion H].
  - rewrite IH. unfold Oned.legend_after, Oned.has_data.
    split.
    + intros [H|(Hl & k' & x & Hk & Hx)].
      * destruct (xArrays a !! k) as [[x|]|] eqn:Hx; auto.
        destruct (legendText a) eqn:Hl; auto.
        right. split; [eauto|]. exists k, x.
        split; [apply list_elem_of_here|exact Hx].
      * right. split; [exact Hl|]. exists k', x.
        split; [apply list_elem_of_further, Hk|exact Hx].
    + intros [->|(Hl & k' & x & Hk & Hx)].
      * left. destruct (xArrays a !! k) as [[x|]|]; auto.
        destruct (legendText a); auto.
      * apply elem_of_cons in Hk as [->|Hk].
        -- left. rewrite Hx. destruct Hl as [l ->]. reflexivity.
        -- right. split; [exact Hl|]. eauto.
Qed.

(** X17.  When the legend is drawn.  On return, [plt.legend()] has
    been called exactly when legend text is given, some series has data,
    and [xArrays] has more than one entry - entries without data
    counted. *)
Theorem X17_legend_is_drawn_iff
    cfg (a : arguments) (fig : list command) :
  (plot_1D cfg a fig).1 = Return tt ->
  exists cmds,
    (plot_1D cfg a fig).2 = fig ++ cmds
    /\ (legend ∈ cmds
        <-> is_Some (legendText a)
            /\ (exists k x, xArrays a !! k = Some (Some x))
            /\ (1 < length (xArrays a))%nat).
Proof.
  destruct (plot_1D_run cfg a fig)
    as [(css & Hcss & Hrun)|(ks1 & css & Hrun & _)];
    rewrite Hrun; cbn [fst snd]; [intros _|discriminate].
  eexists. split; [reflexivity|].
  destruct (decorations_legend cfg a
              (flag a false (seq 0 (length (xArrays a)))))
    as (rest & -> & Hrest).
  assert (Hno : legend ∉ concat css).
  { intros Hin. pose proof (drawn_drawing _ _ _ Hcss) as Hd.
    rewrite Forall_forall in Hd. specialize (Hd _ Hin). discriminate Hd. }
  assert (Hrest' : legend ∉ rest).
  { intros Hin. rewrite Forall_forall in Hrest. exact (Hrest _ Hin eq_refl). }
  rewrite !elem_of_app.
  destruct (flag a false (seq 0 (length (xArrays a)))) eqn:Hflag.
  - apply flag_true in Hflag as [?|(Hl & k & x & Hk & Hx)]; [discriminate|].
    destruct (bool_decide _) eqn:Hn; simpl.
    + apply bool_decide_eq_true in Hn. split; [eauto 10|].
      intros _. right. right. right. left. apply list_elem_of_here.
    + apply bool_decide_eq_false in Hn. split; [|tauto].
      intros [H|[H|[H|[H|H]]]]; try tauto;
        repeat (apply elem_of_cons in H as [H|H]; try discriminate H);
        inversion H.
  - simpl. split.
    + intros [H|[H|[H|[H|H]]]]; try tauto;
        repeat (apply elem_of_cons in H as [H|H]; try discriminate H);
        inversion H.
    + intros (Hl & (k & x & Hx) & _).
      assert (flag a false (seq 0 (length (xArrays a))) = true);
        [|congruence].
      apply flag_true. right. split; [exact Hl|]. exists k, x.
      split; [|exact Hx]. apply elem_of_seq.
      apply lookup_lt_Some in Hx. lia.
Qed.


Lemma lookup_or_Some {A} (l : option (list A)) k (d v : A) :
  lookup_or l k d = Some v ->
  match l with
  | Some l => l !! k = Some v
  | None => v = d
  end.
Proof. destruct l; simpl; [auto|congruence]. Qed.

Lemma plot_1D_drawn cfg (a : arguments) (fig : list command) :
  exists cmds,
    (plot_1D cfg a fig).2 = fig ++ cmds
    /\ forall c, c ∈ cmds -> drawing c = true ->
         exists k cs, series_commands a k = Some cs /\ c ∈ cs.
Proof.
  assert (Hhead : forall c d e, c ∈ [rc_font d; figure e.1 e.2] ->
                    drawing c = true -> False).
  { intros c d e H Hd.
    repeat (apply elem_of_cons in H as [->|H]; try discriminate Hd).
    inversion H. }
  destruct (plot_1D_run cfg a fig)
    as [(css & Hcss & Hrun)|(ks1 & css & Hrun & Hcss & _ & _)];
    rewrite Hrun; cbn [snd]; eexists; (split; [reflexivity|]);
    intros c Hc Hd; rewrite !elem_of_app in Hc.
  - destruct Hc as [Hc|[Hc|Hc]].
    + destruct (Hhead c _ (_, _) Hc Hd).
    + destruct (drawn_elem _ _ _ _ Hcss Hc) as (k & cs & _ & ? & ?). eauto.
    + pose proof (decorations_drawing cfg a
                    (flag a false (seq 0 (length (xArrays a))))) as H.
      rewrite Forall_forall in H. rewrite (H _ Hc) in Hd. discriminate Hd.
  - destruct Hc as [Hc|Hc].
    + destruct (Hhead c _ (_, _) Hc Hd).
    + destruct (drawn_elem _ _ _ _ Hcss Hc) as (k & cs & _ & ? & ?). eauto.
Qed.

(** X18.  Every line is a series, with the label and the style of its
    own index.  Whatever the outcome, each [plt.plot] call draws the
    data and the field of one index [k], with the colour, marker, style
    and width that the lists hold at [k] - series without data do not
    shift them - or, for a list that is not given, black, no marker, a
    solid line and the width 1. *)
Theorem X18_a_line_has_the_style_of_its_index
    cfg (a : arguments) (fig : list command) :
  exists cmds,
    (plot_1D cfg a fig).2 = fig ++ cmds
    /\ forall x y color linestyle marker linewidth label,
         plot x y color linestyle marker linewidth label ∈ cmds ->
         exists k,
           xArrays a !! k = Some (Some x)
           /\ fieldArrays a !! k = Some y
           /\ match lineColors array a with
              | Some l => l !! k = Some color
              | None => color = "k"
              end
           /\ match markers array a with
              | Some l => l !! k = Some marker
              | None => marker = None
              end
           /\ match lineStyles array a with
              | Some l => l !! k = Some linestyle
              | None => linestyle = "-"
              end
           /\ match lineWidths array a with
              | Some l => l !! k = Some linewidth
              | None => linewidth = 1%Q
              end
           /\ match legendText a with
              | Some l =>
                  exists t, l !! k = Some t
                    /\ label
                       = (fun t => limit_title t (maxTitleLength a)) <$> t
              | None => label = None
              end.
Proof.
  destruct (plot_1D_drawn cfg a fig) as (cmds & Hcmds & Hdrawn).
  exists cmds. split; [exact Hcmds|].
  intros x y color linestyle marker linewidth label Hin.
  destruct (Hdrawn _ Hin eq_refl) as (k & cs & Hk & Hc).
  apply series_commands_inv in Hk as (ox & f & oe & Hx & Hf & He & Hcs).
  destruct ox as [x'|]; [|subst cs; inversion Hc].
  destruct Hcs as (label' & c & m & ls & lw & Hlabel & Hc1 & Hm & Hls & Hlw
                   & ->).
  assert (Heq : plot x y color linestyle marker linewidth label
                = plot x' f c ls m lw label').
  { apply elem_of_cons in Hc as [Hc|Hc]; [exact Hc|].
    destruct oe;
      repeat (apply elem_of_cons in Hc as [Hc|Hc]; try discriminate Hc);
      inversion Hc. }
  injection Heq as -> -> -> -> -> -> ->.
  exists k. repeat (split; [assumption|]).
  split; [exact (lookup_or_Some _ _ _ _ Hc1)|].
  split; [exact (lookup_or_Some _ _ _ _ Hm)|].
  split; [exact (lookup_or_Some _ _ _ _ Hls)|].
  split; [exact (lookup_or_Some _ _ _ _ Hlw)|].
  exact Hlabel.
Qed.

Lemma line_labels_drawn (a : arguments) ks css :
  Forall2 (drawn a) ks css ->
  (line_labels (concat css)).*1
  = omap (fun k => xArrays a !! k ≫= id) ks.
Proof.
  induction 1 as [|k cs ks css Hk _ IH]; [reflexivity|].
  cbn [concat]. unfold line_labels in *. rewrite omap_app, fmap_app, IH.
  apply series_commands_inv in Hk as (ox & f & oe & Hx & _ & _ & Hcs).
  cbn [omap list_omap]. rewrite Hx.
  destruct ox as [x|]; [|subst cs; reflexivity].
  destruct Hcs as (label & c & m & ls & lw & _ & _ & _ & _ & _ & ->).
  destruct oe; reflexivity.
Qed.

Lemma omap_lookup_seq {A} (pre l : list (option A)) :
  omap (fun k => (pre ++ l) !! k ≫= id) (seq (length pre) (length l))
  = omap id l.
Proof.
  revert pre. induction l as [|o l IH]; intros pre; [reflexivity|].
  cbn [length seq omap list_omap].
  rewrite (list_lookup_middle pre l o (length pre) eq_refl).
  specialize (IH (pre ++ [o])).
  rewrite <- app_assoc, length_app in IH. cbn [app length] in IH.
  replace (length pre + 1)%nat with (S (length pre)) in IH by lia.
  rewrite IH. reflexivity.
Qed.

(** X19.  One line for each series that has data, in the order of the
    lists.  On return, the data arrays of the [plt.plot] calls are the
    entries of [xArrays] that are not [None], in order. *)
Theorem X19_one_line_for_each_series_with_data
    cfg (a : arguments) (fig : list command) :
  (plot_1D cfg a fig).1 = Return tt ->
  exists cmds,
    (plot_1D cfg a fig).2 = fig ++ cmds
    /\ (line_labels cmds).*1 = omap id (xArrays a).
Proof.
  destruct (plot_1D_run cfg a fig)
    as [(css & Hcss & Hrun)|(ks1 & css & Hrun & _)];
    rewrite Hrun; cbn [fst snd]; [intros _|discriminate].
  eexists. split; [reflexivity|].
  unfold line_labels. rewrite !omap_app, !fmap_app.
  fold (line_labels (concat css)).
  rewrite (line_labels_drawn a _ _ Hcss).
  pose proof (omap_lookup_seq [] (xArrays a)) as Hseq.
  cbn [app length] in Hseq. rewrite Hseq.
  assert (Hdec : forall pl,
            omap (fun c : command =>
                    match c with
                    | plot x _ _ _ _ _ label => Some (x, label)
                    | _ => None
                    end) (decorations cfg a pl) = []).
  { intros pl. pose proof (decorations_drawing cfg a pl) as H.
    induction H as [|c l Hc _ IH]; [reflexivity|].
    cbn [omap list_omap]. destruct c; try discriminate Hc; exact IH. }
  rewrite Hdec. cbn. rewrite app_nil_r. reflexivity.
Qed.

(** X20.  The error band of a series.  Whatever the outcome, each
    [plt.fill_between] call shades, with the opacity 0.2, between the
    field of a series that has data and an error array and the field
    plus or minus that error.  On return, every such series has its line
    and both bands, in the colour of the line. *)
Theorem X20_error_band_around_a_series
    cfg (a : arguments) (fig : list command) :
  exists cmds,
    (plot_1D cfg a fig).2 = fig ++ cmds
    /\ (forall x y1 y2 color alpha,
          fill_between x y1 y2 color alpha ∈ cmds ->
          (alpha == 1 # 5)%Q
          /\ exists k e,
               xArrays a !! k = Some (Some x)
               /\ fieldArrays a !! k = Some y1
               /\ errArrays a !! k = Some (Some e)
               /\ (y2 = add y1 e \/ y2 = sub y1 e)
               /\ match lineColors array a with
                  | Some l => l !! k = Some color
                  | None => color = "k"
                  end)
    /\ ((plot_1D cfg a fig).1 = Return tt ->
        forall k x f e,
          xArrays a !! k = Some (Some x) ->
          fieldArrays a !! k = Some f ->
          errArrays a !! k = Some (Some e) ->
          exists color linestyle marker linewidth label,
            plot x f color linestyle marker linewidth label ∈ cmds
            /\ fill_between x f (add f e) color (1 # 5) ∈ cmds
            /\ fill_between x f (sub f e) color (1 # 5) ∈ cmds).
Proof.
  destruct (plot_1D_drawn cfg a fig) as (cmds & Hcmds & Hdrawn).
  exists cmds. split; [exact Hcmds|]. split.
  - intros x y1 y2 color alpha Hin.
    destruct (Hdrawn _ Hin eq_refl) as (k & cs & Hk & Hc).
    apply series_commands_inv in Hk as (ox & f & oe & Hx & Hf & He & Hcs).
    destruct ox as [x'|]; [|subst cs; inversion Hc].
    destruct Hcs as (label' & c & m & ls & lw & _ & Hc1 & _ & _ & _ & ->).
    apply elem_of_cons in Hc as [Hc|Hc]; [discriminate Hc|].
    destruct oe as [e|]; [|inversion Hc].
    assert (Heq : alpha = (1 # 5)%Q /\ x = x' /\ y1 = f /\ color = c
                  /\ (y2 = add f e \/ y2 = sub f e)).
    { repeat (apply elem_of_cons in Hc as [Hc|Hc];
              [injection Hc as -> -> -> -> ->; auto 10|]).
      inversion Hc. }
    destruct Heq as (-> & -> & -> & -> & Hy2).
    split; [reflexivity|]. exists k, e.
    repeat (split; [assumption|]).
    exact (lookup_or_Some _ _ _ _ Hc1).
  - intros Hret k x f e Hx Hf He.
    destruct (plot_1D_run cfg a fig)
      as [(css & Hcss & Hrun)|(ks1 & css & Hrun & _)];
      rewrite Hrun in Hcmds, Hret; cbn [fst snd] in *; [|discriminate].
    apply app_inv_head in Hcmds. subst cmds.
    assert (Hk : k ∈ seq 0 (length (xArrays a))).
    { apply elem_of_seq. apply lookup_lt_Some in Hx. lia. }
    destruct (Forall2_drawn_lookup _ _ _ _ Hcss Hk) as [cs Hcs].
    pose proof Hcs as Hinv.
    apply series_commands_inv in Hinv
      as (ox & f' & oe & Hx' & Hf' & He' & Hshape).
    rewrite Hx in Hx'. injection Hx' as <-.
    rewrite Hf in Hf'. injection Hf' as <-.
    rewrite He in He'. injection He' as <-.
    destruct Hshape as (label & c & m & ls & lw & _ & _ & _ & _ & _ & ->).
    exists c, ls, m, lw, label.
    rewrite !elem_of_app.
    split; [|split]; right; left;
      eapply (drawn_complete _ _ _ _ _ _ Hcss Hk Hcs).
    + apply list_elem_of_here.
    + apply list_elem_of_further, list_elem_of_here.
    + do 2 apply list_elem_of_further. apply list_elem_of_here.
Qed.

End OnedMore.

Section OnedMoreExamples.
Import Oned.

Lemma X15_witness :
  (1 < length (fieldArrays three_series))%nat
  /\ (1 < length (errArrays three_series))%nat
  /\ ((exists x, xArrays three_series !! 1%nat = Some (Some x)) ->
      (forall l, legendText three_series = Some l -> (1 < length l)%nat)
      /\ (forall l, lineColors (list Z) three_series = Some l ->
            (1 < length l)%nat)
      /\ (forall l, markers (list Z) three_series = Some l ->
            (1 < length l)%nat)
      /\ (forall l, lineStyles (list Z) three_series = Some l ->
            (1 < length l)%nat)
      /\ (forall l, lineWidths (list Z) three_series = Some l ->
            (1 < length l)%nat)).
Proof.
  apply (X15_returns_only_if_the_lists_are_long_enough (list Z) zadd zsub
           sample_config three_series [] eq_refl 1%nat).
  simpl. lia.
Defined.

Lemma X17_witness :
  exists cmds,
    (plot_1D (list Z) zadd zsub sample_config three_series []).2 = [] ++ cmds
    /\ (legend ∈ cmds
        <-> is_Some (legendText three_series)
            /\ (exists k x, xArrays three_series !! k = Some (Some x))
            /\ (1 < length (xArrays three_series))%nat).
Proof.
  apply (X17_legend_is_drawn_iff (list Z) zadd zsub sample_config
           three_series []).
  reflexivity.
Defined.

Lemma X19_witness :
  exists cmds,
    (plot_1D (list Z) zadd zsub sample_config three_series []).2 = [] ++ cmds
    /\ (line_labels cmds).*1 = omap id (xArrays three_series).
Proof.
  apply (X19_one_line_for_each_series_with_data (list Z) zadd zsub
           sample_config three_series []).
  reflexivity.
Defined.

End OnedMoreExamples.


(** ** The observational data set: further properties *)

Section ObsMore.
Import ObservedMLD.
Variable F : Type.
Variable fadd1 : F -> F.
Variable ftrunc : F -> Z.
Variable MeshDescriptor : Type.
Variable LatLonGridDescriptor_read :
  Dataset F -> string -> string -> outcome MeshDescriptor.

Abbreviation Dataset := (Dataset F).
Abbreviation DataArray := (DataArray F).
Abbreviation build_observational_dataset :=
  (build_observational_dataset F fadd1 ftrunc).
Abbreviation get_observation_descriptor :=
  (get_observation_descriptor F fadd1 ftrunc MeshDescriptor
     LatLonGridDescriptor_read).

(** X21.  The field on its grid.  For a raw file with months,
    latitudes, longitudes and the field, whatever their sizes, the data
    set that is built has the six variables [Time], [lat], [lon], [mld],
    [month] and [year] in this order and nothing else of the file;
    [mld] is the field of the file, unchanged, on the dimensions [Time],
    [lat], [lon]; [lat] and [lon] hold the latitudes and longitudes of
    the file, not its indices; [Time] holds the months of the file; and
    [year] is 1 for every month. *)
Theorem X21_the_field_on_its_grid
    fs fileName month lat lon mld iMONTH iLAT iLON others :
  fs !! fileName
  = Some (raw_file F month lat lon mld iMONTH iLAT iLON others) ->
  Forall (fun k => k ∉ reserved) (names others) ->
  exists ds,
    build_observational_dataset fs fileName = Return ds
    /\ names (variables ds) = ["Time"; "lat"; "lon"; "mld"; "month"; "year"]
    /\ assoc "mld" (variables ds)
       = Some {| dims := ["Time"; "lat"; "lon"]; values := mld |}
    /\ assoc "lat" (variables ds)
       = Some {| dims := ["lat"]; values := lat |}
    /\ assoc "lon" (variables ds)
       = Some {| dims := ["lon"]; values := lon |}
    /\ assoc "Time" (variables ds)
       = Some {| dims := ["Time"]; values := month |}
    /\ assoc "month" (variables ds)
       = Some {| dims := ["Time"]; values := astype_int F ftrunc month |}
    /\ assoc "year" (variables ds)
       = Some {| dims := ["Time"];
                 values := IntArray (replicate (size month) 1) |}
    /\ ds_dims ds
       = [("Time", size month); ("lat", size lat); ("lon", size lon)].
Proof.
  intros Hfs Hothers.
  rewrite (build_raw_file F fadd1 ftrunc _ _ _ _ _ _ _ _ _ _ Hfs Hothers).
  eexists. split; [reflexivity|]. repeat split.
Qed.


Lemma names_assoc_set {V} (k : string) (v v' : V) (l : list (string * V)) :
  assoc k l = Some v' -> names (assoc_set k v l) = names l.
Proof.
  induction l as [|[k' w] l IH]; simpl; [discriminate|].
  destruct (decide (k = k')) as [->|Hne]; [reflexivity|].
  intros H. unfold names in *. simpl. f_equal. apply IH, H.
Qed.

Lemma for_in_raises {S A} (body : A -> py S unit) (l : list A) (s : S)
    (P : exn -> Prop) x :
  (forall y, y ∈ l ->
     body y s = (Return tt, s) \/ exists e, P e /\ body y s = (Raise e, s)) ->
  x ∈ l -> (exists e, P e /\ body x s = (Raise e, s)) ->
  exists e, P e /\ for_in l body s = (Raise e, s).
Proof.
  induction l as [|y l IH]; intros Hall Hx Hraise; [inversion Hx|].
  simpl. rewrite run_bind.
  destruct (Hall y (list_elem_of_here _ _)) as [Hy|(e & He & Hy)].
  - rewrite Hy. apply elem_of_cons in Hx as [->|Hx].
    + destruct Hraise as (e & _ & He). congruence.
    + apply IH; [|exact Hx|exact Hraise].
      intros z Hz. apply Hall, list_elem_of_further, Hz.
  - rewrite Hy. eauto.
Qed.

(** X23.  A file without one of its variables.  When the file has the
    index variable [iMONTH] and one of [month], [lat], [lon] and
    [mld_dt_mean] is neither a variable nor a dimension of it, the
    renaming is refused: a [ValueError] leaves the function and no data
    set is built. *)
Theorem X23_file_without_a_variable_is_refused
    fs fileName (opened : Dataset) k :
  fs !! fileName = Some opened ->
  is_Some (assoc "iMONTH" (variables opened)) ->
  k ∈ ["month"; "lat"; "lon"; "mld_dt_mean"] ->
  k ∉ names (variables opened) ->
  k ∉ names (ds_dims opened) ->
  exists msg,
    build_observational_dataset fs fileName = Raise (ValueError msg).
Proof.
  intros Hfs [v Hv] Hk Hvar Hdim.
  unfold ObservedMLD.build_observational_dataset. rewrite Hfs.
  rewrite run_bind, (values_iadd1_run F fadd1 _ _ _ Hv).
  rewrite run_bind. unfold rename at 1. rewrite run_bind.
  cbn [get_state]. rewrite run_bind.
  match goal with
  | |- context [for_in ?l ?body ?s] =>
      destruct (for_in_raises body l s
                  (fun e => exists msg, e = ValueError msg)
                  (k, renamed [("month", "calmonth"); ("lat", "latCoord");
                               ("lon", "lonCoord"); ("mld_dt_mean", "mld")]
                        k))
        as (e & (msg & ->) & Hrun)
  end.
  - intros [k' v'] _.
    destruct (decide (_ /\ _)); [right; eauto|].
    destruct (decide (_ /\ _)); [right; eauto|]. left. reflexivity.
  - repeat (apply elem_of_cons in Hk as [->|Hk];
            [unfold renamed; simpl; repeat constructor|]).
    inversion Hk.
  - eexists. split; [eexists; reflexivity|].
    cbn [variables ds_dims].
    rewrite (names_assoc_set _ _ _ _ Hv).
    rewrite decide_True by (split; assumption). reflexivity.
  - rewrite Hrun. exists msg. reflexivity.
Qed.

End ObsMore.

Section ObsMoreExamples.
Import ObservedMLD.

Lemma X21_witness :
  exists ds,
    build_observational_dataset Q (Qplus 1) Qtrunc sample_fs
      "obs/holtetalley_mld_climatology.nc" = Return ds
    /\ names (variables ds) = ["Time"; "lat"; "lon"; "mld"; "month"; "year"]
    /\ assoc "mld" (variables ds)
       = Some {| dims := ["Time"; "lat"; "lon"];
                 values := FloatArray (replicate 24 (50 # 1)%Q) |}
    /\ assoc "lat" (variables ds)
       = Some {| dims := ["lat"];
                 values := FloatArray [(-45 # 1)%Q; (45 # 1)%Q] |}
    /\ assoc "lon" (variables ds)
       = Some {| dims := ["lon"]; values := FloatArray [(90 # 1)%Q] |}
    /\ assoc "Time" (variables ds)
       = Some {| dims := ["Time"];
                 values :=
                   IntArray [1; 2; 3; 4; 5; 6; 7; 8; 9; 10; 11; 12] |}
    /\ assoc "month" (variables ds)
       = Some {| dims := ["Time"];
                 values :=
                   astype_int Q Qtrunc
                     (IntArray [1; 2; 3; 4; 5; 6; 7; 8; 9; 10; 11; 12]) |}
    /\ assoc "year" (variables ds)
       = Some {| dims := ["Time"];
                 values :=
                   IntArray
                     (replicate
                        (size (IntArray (F := Q)
                                 [1; 2; 3; 4; 5; 6; 7; 8; 9; 10; 11; 12]))
                        1) |}
    /\ ds_dims ds
       = [("Time",
           size (IntArray (F := Q) [1; 2; 3; 4; 5; 6; 7; 8; 9; 10; 11; 12]));
          ("lat", size (FloatArray [(-45 # 1)%Q; (45 # 1)%Q]));
          ("lon", size (FloatArray [(90 # 1)%Q]))].
Proof.
  apply (X21_the_field_on_its_grid Q (Qplus 1) Qtrunc sample_fs
           "obs/holtetalley_mld_climatology.nc"
           (IntArray [1; 2; 3; 4; 5; 6; 7; 8; 9; 10; 11; 12])
           (FloatArray [(-45 # 1)%Q; (45 # 1)%Q])
           (FloatArray [(90 # 1)%Q])
           (FloatArray (replicate 24 (50 # 1)%Q))
           (IntArray [0; 1; 2; 3; 4; 5; 6; 7; 8; 9; 10; 11])
           (IntArray [0; 1]) (IntArray [0])
           [("mld_da_mean",
             {| dims := ["iMONTH"; "iLAT"; "iLON"];
                values := FloatArray (replicate 24 (60 # 1)%Q) |})]).
  - reflexivity.
  - repeat constructor. vm_compute. intros H.
    repeat (apply elem_of_cons in H as [H|H]; [discriminate H|]).
    inversion H.
Defined.


Lemma X23_witness :
  exists msg,
    build_observational_dataset Q (Qplus 1) Qtrunc no_field_fs
      "obs/no_field.nc" = Raise (ValueError msg).
Proof.
  apply (X23_file_without_a_variable_is_refused Q (Qplus 1) Qtrunc
           no_field_fs "obs/no_field.nc" no_field_file "mld_dt_mean").
  - reflexivity.
  - eexists. reflexivity.
  - repeat constructor.
  - vm_compute. intros H.
    repeat (apply elem_of_cons in H as [H|H]; [discriminate H|]).
    inversion H.
  - vm_compute. intros H.
    repeat (apply elem_of_cons in H as [H|H]; [discriminate H|]).
    inversion H.
Defined.

End ObsMoreExamples.
